(** * Worker pool and task orchestration: a shallow embedding

    The embedding follows [server/modules/workers/trainingWorker.ts] (the pool,
    the worker-side message handler, the configuration validator and the
    performance monitor that the file bundles) and [types.ts].

    Conventions.
    - A JavaScript [Map] or [Set] keeps insertion order and the code depends on
      it ([available.values().next().value], the order of [healthCheck]), so
      they are lists without repeated keys, oldest entry first.
    - [Date.now()], generated identifiers and the readings of [process.*] are
      inputs of the operation that reads them.
    - Effects of the pool on the outside (settling a promise, [postMessage],
      [worker.terminate()], arming a timer) are logged in the pool state.
    - Counters and timestamps are integers; memory and CPU readings are
      rationals.  Division is exact: IEEE rounding is not modelled, the
      special values Infinity and NaN are. *)

From Stdlib Require Import List String Ascii ZArith QArith Bool Lia.
From Stdlib Require Import Lqa Qround.
Import ListNotations.
Local Open Scope string_scope.
Local Open Scope list_scope.
Local Open Scope Z_scope.

(** ** JavaScript containers as ordered lists *)

Section Containers.
Context {V : Type}.

(** [Set.prototype.add]: a value already present keeps its place. *)
Definition set_add (x : string) (s : list string) : list string :=
  if existsb (String.eqb x) s then s else s ++ [x].

(** [Set.prototype.delete]. *)
Definition set_delete (x : string) (s : list string) : list string :=
  filter (fun y => negb (String.eqb x y)) s.

(** [Set.prototype.has] / [Map.prototype.has]. *)
Definition set_has (x : string) (s : list string) : bool :=
  existsb (String.eqb x) s.

(** [Map.prototype.get]. *)
Fixpoint map_get (k : string) (m : list (string * V)) : option V :=
  match m with
  | [] => None
  | (k', v) :: rest => if String.eqb k k' then Some v else map_get k rest
  end.

(** [Map.prototype.set]: an existing key keeps its place, a new one goes last. *)
Fixpoint map_set (k : string) (v : V) (m : list (string * V)) : list (string * V) :=
  match m with
  | [] => [(k, v)]
  | (k', v') :: rest =>
      if String.eqb k k' then (k', v) :: rest else (k', v') :: map_set k v rest
  end.

(** [Map.prototype.delete]. *)
Definition map_delete (k : string) (m : list (string * V)) : list (string * V) :=
  filter (fun kv => negb (String.eqb k (fst kv))) m.

(** [Array.prototype.findIndex]; [None] stands for -1. *)
Fixpoint findIndex (f : V -> bool) (l : list V) : option nat :=
  match l with
  | [] => None
  | x :: rest =>
      if f x then Some O
      else match findIndex f rest with
           | Some i => Some (S i)
           | None => None
           end
  end.

(** [arr.splice(i, 1)]. *)
Fixpoint splice_out (i : nat) (l : list V) : list V :=
  match l, i with
  | [], _ => []
  | _ :: rest, O => rest
  | x :: rest, S j => x :: splice_out j rest
  end.

(** [arr.splice(i, 0, x)]. *)
Fixpoint splice_in (i : nat) (x : V) (l : list V) : list V :=
  match i, l with
  | O, _ => x :: l
  | S j, [] => [x]
  | S j, y :: rest => y :: splice_in j x rest
  end.
End Containers.

(** ** JavaScript numbers that leave the rationals *)

(** The result of a division: a finite value, an infinity or NaN. *)
Inductive JsNumber :=
| Finite (q : Q)
| PosInfinity
| NegInfinity
| NaN.

(** [a / b] on finite operands.  A zero divisor gives NaN for [0 / 0] and an
    infinity of the sign of [a] otherwise (the sums the code divides by start
    from [0] and so are never negative zero). *)
Definition js_div (a b : Q) : JsNumber :=
  if Qeq_bool b 0 then
    if Qeq_bool a 0 then NaN
    else if Qle_bool 0 a then PosInfinity else NegInfinity
  else Finite (a / b).

(** [x || 0]: the falsy numbers are [0] and NaN. *)
Definition js_or_zero (x : JsNumber) : JsNumber :=
  match x with
  | Finite q => if Qeq_bool q 0 then Finite 0 else Finite q
  | NaN => Finite 0
  | PosInfinity => PosInfinity
  | NegInfinity => NegInfinity
  end.

(** [a > b] on rationals. *)
Definition Qgt_bool (a b : Q) : bool := negb (Qle_bool a b).

(** A value read from an object that may lack the property: [None] is
    [undefined].  [undefined < n] converts [undefined] to NaN and every
    comparison with NaN is false. *)
Definition js_lt (a : option Z) (b : Z) : bool :=
  match a with
  | Some x => x <? b
  | None => false
  end.

(** The result of [parseInt]: an integer, or NaN ([None]).  Both [<] and [>]
    are false on NaN. *)
Definition num_lt (a : option Z) (b : Z) : bool :=
  match a with Some x => x <? b | None => false end.

Definition num_gt (a : option Z) (b : Z) : bool :=
  match a with Some x => b <? x | None => false end.

(** ** types.ts *)

Inductive WorkerMessageType :=
| TRAIN | EVALUATE | PREDICT | STOP | STATUS | CLEANUP.

(** The string value of each enum member, as template strings print it. *)
Definition type_value (t : WorkerMessageType) : string :=
  match t with
  | TRAIN => "train"
  | EVALUATE => "evaluate"
  | PREDICT => "predict"
  | STOP => "stop"
  | STATUS => "status"
  | CLEANUP => "cleanup"
  end.

Record WorkerMetrics := {
  workerId : string;
  cpuUsage : Q;
  memoryUsage : Q;
  messageLatency : Z;
  tasksCompleted : Z;
  tasksFailed : Z;
  uptime : Z;
  lastActivity : Z
}.

Record WorkerError := {
  we_code : string;
  we_message : string;
  we_stack : option string;
  we_recoverable : bool;
  we_timestamp : Z
}.

(** The values of type [any] that travel in messages: the object shapes this
    module builds itself, and [DOpaque] for everything else (task payloads,
    what the executors return). *)
Inductive JsData :=
| DOpaque (v : string)
| DStopped (timestamp : Z)
| DStatus (isTraining : bool) (currentTask : option WorkerMessageType)
          (memory : Q) (up : Z)
| DCleaned
| DWorkerError (e : WorkerError)
| DMetrics (m : WorkerMetrics)
| DReady (worker : string) (timestamp : Z).

(** [WorkerMessage]: pool to worker.  It declares [id], [type], [data] and
    [timestamp], and nothing else. *)
Record WorkerMessage := {
  wm_id : string;
  wm_type : WorkerMessageType;
  wm_data : JsData;
  wm_timestamp : Z
}.

(** [WorkerResponse]: worker to pool, terminal for a task. *)
Record WorkerResponse := {
  wr_id : string;
  wr_success : bool;
  wr_data : option JsData;
  wr_error : option string;
  wr_timestamp : Z
}.

(** The [type] tag of a [WorkerProgressUpdate].  The interface declares the
    first four; the worker also sends ['metrics'] and ['ready'] ([type as any]). *)
Inductive UpdateType :=
| UProgress | UCheckpoint | UError | UComplete | UMetrics | UReady.

Record WorkerProgressUpdate := {
  wu_id : string;
  wu_type : UpdateType;
  wu_data : JsData;
  wu_timestamp : Z
}.

(** [WorkerResponse | WorkerProgressUpdate], what [handleWorkerMessage] takes. *)
Inductive InboundMessage :=
| IsResponse (r : WorkerResponse)
| IsUpdate (u : WorkerProgressUpdate).

Definition message_id (m : InboundMessage) : string :=
  match m with IsResponse r => wr_id r | IsUpdate u => wu_id u end.

Definition message_timestamp (m : InboundMessage) : Z :=
  match m with IsResponse r => wr_timestamp r | IsUpdate u => wu_timestamp u end.

(** [message.success]: a progress update has no such property, and
    [undefined] is falsy. *)
Definition message_success (m : InboundMessage) : bool :=
  match m with IsResponse r => wr_success r | IsUpdate _ => false end.

(** [message.data]. *)
Definition message_data (m : InboundMessage) : option JsData :=
  match m with IsResponse r => wr_data r | IsUpdate u => Some (wu_data u) end.

(** [message.error]. *)
Definition message_error (m : InboundMessage) : option string :=
  match m with IsResponse r => wr_error r | IsUpdate _ => None end.

Record WorkerPoolConfig := {
  maxWorkers : Z;
  maxMemoryPerWorker : Q;
  maxTasksPerWorker : Z;
  workerTimeout : Z;
  enableMetrics : bool;
  enableCheckpoints : bool
}.

(** ** Exceptions and promises *)

(** What an executor throws: any JavaScript error object. *)
Record JsError := {
  err_name : string;
  err_message : string
}.

(** The error a caller of the pool can be handed, by the place that made it. *)
Inductive Rejection :=
| TaskTimeoutError                           (* new Error('Task timeout') *)
| ShuttingDownError                          (* new Error('Worker pool is shutting down') *)
| WorkerReportedError (msg : string)         (* new Error(message.error || 'Unknown error') *)
| UnknownTaskTypeError (t : WorkerMessageType) (* new Error(`Unknown task type: ${type}`) *)
| ExecutorException (e : JsError).           (* the executor's own exception, as thrown *)

Definition rejection_message (r : Rejection) : string :=
  match r with
  | TaskTimeoutError => "Task timeout"
  | ShuttingDownError => "Worker pool is shutting down"
  | WorkerReportedError msg => msg
  | UnknownTaskTypeError t => String.append "Unknown task type: " (type_value t)
  | ExecutorException e => err_message e
  end.

(** The error kinds the specification documents for [execute]. *)
Definition documented_kind (r : Rejection) : bool :=
  match r with
  | TaskTimeoutError | ShuttingDownError | WorkerReportedError _ => true
  | UnknownTaskTypeError _ | ExecutorException _ => false
  end.

(** How a promise ends. *)
Inductive Settlement :=
| Resolved (data : option JsData)
| Rejected (e : Rejection).

(** How a call of an executor ends. *)
Inductive Outcome :=
| Returned (v : JsData)
| Threw (e : JsError).

(** The Task Executor: [performRealTraining], [evaluateModel], [predictText].
    Their bodies (TensorFlow) are outside the model; only how a call ends
    matters to the pool. *)
Record TaskExecutor := {
  performRealTraining : JsData -> Outcome;
  evaluateModel : JsData -> Outcome;
  predictText : JsData -> Outcome
}.

(** [await executor(data)] inside an [async] function that returns it. *)
Definition settle_outcome (o : Outcome) : Settlement :=
  match o with
  | Returned v => Resolved (Some v)
  | Threw e => Rejected (ExecutorException e)
  end.

(** What a call of a constructor or of a synchronous function does. *)
Inductive Completion (A : Type) :=
| Normal (a : A)
| Throw (e : Rejection).
Arguments Normal {A} a.
Arguments Throw {A} e.

(** ** TrainingWorkerPool: state *)

(** An entry of [taskQueue].  Its [resolve], [reject] and [timeout] members
    belong to the promise and the timer of the task [qt_id]; calling them is
    logged under that id in [settled] and [timers]. *)
Record QueuedTask := {
  qt_id : string;
  qt_task : WorkerMessage
}.

Record Pool := {
  workers : list string;                 (* keys of Map<string, Worker> *)
  available : list string;
  busy : list string;
  taskQueue : list QueuedTask;
  config : WorkerPoolConfig;
  metrics : list (string * WorkerMetrics);
  isShuttingDown : bool;
  timers : list string;                  (* armed setTimeout handles, by task id *)
  settled : list (string * Settlement);  (* resolve/reject calls, oldest first *)
  posted : list (string * WorkerMessage);(* worker.postMessage calls, oldest first *)
  terminated : list string               (* worker.terminate() calls, oldest first *)
}.

Definition with_workers (x : list string) (p : Pool) : Pool :=
  {| workers := x; available := available p; busy := busy p;
     taskQueue := taskQueue p; config := config p; metrics := metrics p;
     isShuttingDown := isShuttingDown p; timers := timers p;
     settled := settled p; posted := posted p; terminated := terminated p |}.

Definition with_available (x : list string) (p : Pool) : Pool :=
  {| workers := workers p; available := x; busy := busy p;
     taskQueue := taskQueue p; config := config p; metrics := metrics p;
     isShuttingDown := isShuttingDown p; timers := timers p;
     settled := settled p; posted := posted p; terminated := terminated p |}.

Definition with_busy (x : list string) (p : Pool) : Pool :=
  {| workers := workers p; available := available p; busy := x;
     taskQueue := taskQueue p; config := config p; metrics := metrics p;
     isShuttingDown := isShuttingDown p; timers := timers p;
     settled := settled p; posted := posted p; terminated := terminated p |}.

Definition with_taskQueue (x : list QueuedTask) (p : Pool) : Pool :=
  {| workers := workers p; available := available p; busy := busy p;
     taskQueue := x; config := config p; metrics := metrics p;
     isShuttingDown := isShuttingDown p; timers := timers p;
     settled := settled p; posted := posted p; terminated := terminated p |}.

Definition with_metrics (x : list (string * WorkerMetrics)) (p : Pool) : Pool :=
  {| workers := workers p; available := available p; busy := busy p;
     taskQueue := taskQueue p; config := config p; metrics := x;
     isShuttingDown := isShuttingDown p; timers := timers p;
     settled := settled p; posted := posted p; terminated := terminated p |}.

Definition with_isShuttingDown (x : bool) (p : Pool) : Pool :=
  {| workers := workers p; available := available p; busy := busy p;
     taskQueue := taskQueue p; config := config p; metrics := metrics p;
     isShuttingDown := x; timers := timers p;
     settled := settled p; posted := posted p; terminated := terminated p |}.

Definition with_timers (x : list string) (p : Pool) : Pool :=
  {| workers := workers p; available := available p; busy := busy p;
     taskQueue := taskQueue p; config := config p; metrics := metrics p;
     isShuttingDown := isShuttingDown p; timers := x;
     settled := settled p; posted := posted p; terminated := terminated p |}.

Definition with_settled (x : list (string * Settlement)) (p : Pool) : Pool :=
  {| workers := workers p; available := available p; busy := busy p;
     taskQueue := taskQueue p; config := config p; metrics := metrics p;
     isShuttingDown := isShuttingDown p; timers := timers p;
     settled := x; posted := posted p; terminated := terminated p |}.

Definition with_posted (x : list (string * WorkerMessage)) (p : Pool) : Pool :=
  {| workers := workers p; available := available p; busy := busy p;
     taskQueue := taskQueue p; config := config p; metrics := metrics p;
     isShuttingDown := isShuttingDown p; timers := timers p;
     settled := settled p; posted := x; terminated := terminated p |}.

Definition with_terminated (x : list string) (p : Pool) : Pool :=
  {| workers := workers p; available := available p; busy := busy p;
     taskQueue := taskQueue p; config := config p; metrics := metrics p;
     isShuttingDown := isShuttingDown p; timers := timers p;
     settled := settled p; posted := posted p; terminated := x |}.

(** [resolve(v)] / [reject(e)] of the promise of task [id]. *)
Definition settle (id : string) (s : Settlement) (p : Pool) : Pool :=
  with_settled (settled p ++ [(id, s)]) p.

(** The state of the promise of task [id]: a promise keeps its first
    settlement; [None] is pending. *)
Definition promise_state (p : Pool) (id : string) : option Settlement :=
  map_get id (settled p).

(** The tasks handed to workers so far, oldest first. *)
Definition dispatched (p : Pool) : list string :=
  map (fun wm => wm_id (snd wm)) (posted p).

(** ** TrainingWorkerPool: construction *)

(** The record [createWorker] stores for a new worker. *)
Definition fresh_metrics (id : string) (now : Z) : WorkerMetrics :=
  {| workerId := id; cpuUsage := 0%Q; memoryUsage := 0%Q; messageLatency := 0;
     tasksCompleted := 0; tasksFailed := 0; uptime := 0; lastActivity := now |}.

(** [createWorker()], with the generated id and the clock as inputs. *)
Definition createWorker (newId : string) (now : Z) (p : Pool) : Pool :=
  let p := with_metrics (map_set newId (fresh_metrics newId now) (metrics p)) p in
  let p := with_workers (set_add newId (workers p)) p in
  with_available (set_add newId (available p)) p.

(** [initializePool()]: [for (i = 0; i < maxWorkers; i++) createWorker()].
    [ids i] is the id generated in round [i]. *)
Fixpoint initializePool_from (i : nat) (rounds : nat) (ids : nat -> string)
    (now : Z) (p : Pool) : Pool :=
  match rounds with
  | O => p
  | S r => initializePool_from (S i) r ids now (createWorker (ids i) now p)
  end.

Definition initializePool (ids : nat -> string) (now : Z) (p : Pool) : Pool :=
  initializePool_from O (Z.to_nat (maxWorkers (config p))) ids now p.

(** The field initialisers of the class. *)
Definition empty_pool (cfg : WorkerPoolConfig) : Pool :=
  {| workers := []; available := []; busy := []; taskQueue := [];
     config := cfg; metrics := []; isShuttingDown := false; timers := [];
     settled := []; posted := []; terminated := [] |}.

(** [new TrainingWorkerPool(config)].  [cfg] is the configuration after the
    defaults from the environment were merged with the argument;
    [useWorkers] is [process.env.USE_WORKERS === 'true'].  The body has no
    [throw] and calls no validation. *)
Definition TrainingWorkerPool_new (useWorkers : bool) (cfg : WorkerPoolConfig)
    (ids : nat -> string) (now : Z) : Completion Pool :=
  let p := empty_pool cfg in
  Normal (if useWorkers then initializePool ids now p else p).

(** ** TrainingWorkerPool: the assignment step *)

(** [processQueue()].  It runs to its end synchronously (it awaits nothing),
    and handles at most one task per call. *)
Definition processQueue (p : Pool) : Pool :=
  match taskQueue p, available p with
  | [], _ => p
  | _, [] => p
  | task :: rest, workerId :: _ =>
      let p := with_taskQueue rest p in              (* taskQueue.shift() *)
      if String.eqb workerId "" then p               (* if (!workerId) return *)
      else
        let p := with_available (set_delete workerId (available p)) p in
        let p := with_busy (set_add workerId (busy p)) p in
        if set_has workerId (workers p)
        then with_posted (posted p ++ [(workerId, qt_task task)]) p
        else p
  end.

(** ** TrainingWorkerPool: execute *)

(** [executeInMainThread(type, data)]. *)
Definition executeInMainThread (ex : TaskExecutor) (type : WorkerMessageType)
    (data : JsData) : Settlement :=
  match type with
  | TRAIN => settle_outcome (performRealTraining ex data)
  | EVALUATE => settle_outcome (evaluateModel ex data)
  | PREDICT => settle_outcome (predictText ex data)
  | _ => Rejected (UnknownTaskTypeError type)
  end.

(** [t.task.priority]: [t.task] is the [WorkerMessage], which has no such
    property; [execute] does not store its [priority] argument anywhere. *)
Definition task_priority (t : QueuedTask) : option Z :=
  let _ := qt_task t in None.

(** What [execute] hands back: a promise that is settled already, or the
    promise of the queued task [id], settled later through [settled]. *)
Inductive ExecuteResult :=
| SettledNow (s : Settlement)
| Awaiting (id : string).

(** [execute(type, data, priority)].  [useWorkers] is
    [process.env.USE_WORKERS === 'true'] at the time of the call, [taskId] the
    generated id. *)
Definition execute (ex : TaskExecutor) (useWorkers : bool)
    (type : WorkerMessageType) (data : JsData) (priority : Z)
    (taskId : string) (now : Z) (p : Pool) : ExecuteResult * Pool :=
  if negb useWorkers then (SettledNow (executeInMainThread ex type data), p)
  else if isShuttingDown p then (SettledNow (Rejected ShuttingDownError), p)
  else
    let message := {| wm_id := taskId; wm_type := type; wm_data := data;
                      wm_timestamp := now |} in
    let p := with_timers (timers p ++ [taskId]) p in     (* setTimeout *)
    let task := {| qt_id := taskId; qt_task := message |} in
    let insertIndex :=
      findIndex (fun t => js_lt (task_priority t) priority) (taskQueue p) in
    let p :=
      match insertIndex with
      | None => with_taskQueue (taskQueue p ++ [task]) p
      | Some i => with_taskQueue (splice_in i task (taskQueue p)) p
      end in
    (Awaiting taskId, processQueue p).

(** The callback given to [setTimeout] in [execute], run when the timer of
    [taskId] fires.  A timer that is not armed (never set, fired before, or
    cleared) does not fire. *)
Definition timeoutHandler (taskId : string) (p : Pool) : Pool :=
  if set_has taskId (timers p) then
    let p := with_timers (set_delete taskId (timers p)) p in
    match findIndex (fun t => String.eqb (qt_id t) taskId) (taskQueue p) with
    | Some i =>
        let p := with_taskQueue (splice_out i (taskQueue p)) p in
        settle taskId (Rejected TaskTimeoutError) p
    | None => p
    end
  else p.

(** ** TrainingWorkerPool: messages from workers *)

(** [{ ...metrics, ...message.data }].  The worker sends a whole
    [WorkerMetrics] object, so each of its properties replaces the stored one;
    data of another shape carries none of them and the stored record stays.
    With no stored record and data of another shape the code stores a copy
    of the data all the same, an object with no member of [WorkerMetrics];
    that entry is not represented here ([None] stands for it).  The workers
    send ['metrics'] updates with a whole record only. *)
Definition spread_metrics (old : option WorkerMetrics) (data : JsData)
    : option WorkerMetrics :=
  match data with
  | DMetrics m =>
      Some {| workerId := workerId m; cpuUsage := cpuUsage m;
              memoryUsage := memoryUsage m; messageLatency := messageLatency m;
              tasksCompleted := tasksCompleted m; tasksFailed := tasksFailed m;
              uptime := uptime m; lastActivity := lastActivity m |}
  | _ => old
  end.

Definition touch (now ts : Z) (m : WorkerMetrics) : WorkerMetrics :=
  {| workerId := workerId m; cpuUsage := cpuUsage m;
     memoryUsage := memoryUsage m; messageLatency := now - ts;
     tasksCompleted := tasksCompleted m; tasksFailed := tasksFailed m;
     uptime := uptime m; lastActivity := now |}.

Definition count_task (success : bool) (m : WorkerMetrics) : WorkerMetrics :=
  {| workerId := workerId m; cpuUsage := cpuUsage m;
     memoryUsage := memoryUsage m; messageLatency := messageLatency m;
     tasksCompleted := if success then tasksCompleted m + 1 else tasksCompleted m;
     tasksFailed := if success then tasksFailed m else tasksFailed m + 1;
     uptime := uptime m; lastActivity := lastActivity m |}.

(** Apply [f] to the metrics object of [id], in place, when there is one
    ([const metrics = this.metrics.get(id); if (metrics) { ... }]). *)
Definition update_metrics (id : string) (f : WorkerMetrics -> WorkerMetrics)
    (p : Pool) : Pool :=
  match map_get id (metrics p) with
  | Some m => with_metrics (map_set id (f m) (metrics p)) p
  | None => p
  end.

(** [message.error || 'Unknown error']: [undefined] and the empty string are
    falsy. *)
Definition error_or_unknown (e : option string) : string :=
  match e with
  | Some s => if String.eqb s "" then "Unknown error" else s
  | None => "Unknown error"
  end.

Definition is_type (t : UpdateType) (m : InboundMessage) : bool :=
  match m with
  | IsUpdate u =>
      match wu_type u, t with
      | UProgress, UProgress | UMetrics, UMetrics => true
      | _, _ => false
      end
  | IsResponse _ => false
  end.

(** [handleWorkerMessage(workerId, message)]. *)
Definition handleWorkerMessage (wid : string) (message : InboundMessage)
    (now : Z) (p : Pool) : Pool :=
  let p := update_metrics wid (touch now (message_timestamp message)) p in
  if is_type UProgress message then p          (* emitProgressUpdate: console.log *)
  else if is_type UMetrics message then
    match message_data message with
    | Some d =>
        match spread_metrics (map_get wid (metrics p)) d with
        | Some m => with_metrics (map_set wid m (metrics p)) p
        | None => p
        end
    | None => p
    end
  else
    match findIndex (fun t => String.eqb (qt_id t) (message_id message))
                    (taskQueue p) with
    | Some taskIndex =>
        let id := message_id message in
        let p := with_timers (set_delete id (timers p)) p in     (* clearTimeout *)
        let p := with_taskQueue (splice_out taskIndex (taskQueue p)) p in
        let p := with_available (set_add wid (available p)) p in
        let p := with_busy (set_delete wid (busy p)) p in
        let p := update_metrics wid (count_task (message_success message)) p in
        let p :=
          if message_success message
          then settle id (Resolved (message_data message)) p
          else settle id (Rejected (WorkerReportedError
                                      (error_or_unknown (message_error message)))) p in
        processQueue p
    | None => p
    end.

(** ** TrainingWorkerPool: crashed workers *)

(** [replaceWorker(workerId)]. *)
Definition replaceWorker (wid newId : string) (now : Z) (p : Pool) : Pool :=
  let p :=
    if set_has wid (workers p) then
      let p := with_terminated (terminated p ++ [wid]) p in
      let p := with_workers (set_delete wid (workers p)) p in
      with_metrics (map_delete wid (metrics p)) p
    else p in
  createWorker newId now p.

Definition count_failure (m : WorkerMetrics) : WorkerMetrics :=
  count_task false m.

(** [handleWorkerError(workerId, error)], the worker's ['error'] event. *)
Definition handleWorkerError (wid newId : string) (now : Z) (p : Pool) : Pool :=
  let p := update_metrics wid count_failure p in
  let p := with_available (set_delete wid (available p)) p in
  let p := with_busy (set_delete wid (busy p)) p in
  replaceWorker wid newId now p.

(** ** TrainingWorkerPool: status, throughput, health *)

Record Throughput := {
  tasksPerSecond : JsNumber;
  averageTaskTime : JsNumber
}.

Definition sum_Z (l : list Z) : Z := fold_left Z.add l 0.

(** The two accumulators of [calculateThroughput]'s loop over
    [metrics.values()]. *)
Definition total_completed (ms : list (string * WorkerMetrics)) : Z :=
  sum_Z (map (fun kv => tasksCompleted (snd kv)) ms).

Definition total_uptime (ms : list (string * WorkerMetrics)) : Z :=
  sum_Z (map (fun kv => uptime (snd kv)) ms).

(** [calculateThroughput()] of the pool:
    [totalTasks / (totalTime / 1000) || 0] and [totalTime / totalTasks || 0]. *)
Definition calculateThroughput (p : Pool) : Throughput :=
  let totalTasks := total_completed (metrics p) in
  let totalTime := total_uptime (metrics p) in
  {| tasksPerSecond :=
       js_or_zero (js_div (inject_Z totalTasks) (inject_Z totalTime / 1000)%Q);
     averageTaskTime :=
       js_or_zero (js_div (inject_Z totalTime) (inject_Z totalTasks)) |}.

(** [calculateErrorRate()]. *)
Definition calculateErrorRate (p : Pool) : Q :=
  let totalTasks :=
    sum_Z (map (fun kv => tasksCompleted (snd kv) + tasksFailed (snd kv)) (metrics p)) in
  let failedTasks := sum_Z (map (fun kv => tasksFailed (snd kv)) (metrics p)) in
  if 0 <? totalTasks
  then (inject_Z failedTasks / inject_Z totalTasks * 100)%Q
  else 0%Q.

Record PoolStatus := {
  totalWorkers : nat;
  availableWorkers : nat;
  busyWorkers : nat;
  queuedTasks : nat;
  status_metrics : list WorkerMetrics
}.

(** [getStatus()] (the [performance] member is the last stored snapshot and
    is left out). *)
Definition getStatus (p : Pool) : PoolStatus :=
  {| totalWorkers := List.length (workers p);
     availableWorkers := List.length (available p);
     busyWorkers := List.length (busy p);
     queuedTasks := List.length (taskQueue p);
     status_metrics := map snd (metrics p) |}.

(** The three messages [checkWorkerHealth] can push. *)
Inductive Issue :=
| MemoryOverLimit (usage limit : Q)  (* `Memory usage ${usage}MB exceeds limit ${limit}MB` *)
| NoActivity                         (* 'No activity for over 1 minute' *)
| HighErrorRate.                     (* 'High error rate detected' *)

(** [checkWorkerHealth(workerId, metrics, issues)]: pushes onto [issues] and
    returns [issues.length === 0]; the pair is the returned flag and the
    array after the call. *)
Definition checkWorkerHealth (p : Pool) (now : Z) (wid : string)
    (m : WorkerMetrics) (issues : list Issue) : bool * list Issue :=
  let issues :=
    if Qgt_bool (memoryUsage m) (maxMemoryPerWorker (config p))
    then issues ++ [MemoryOverLimit (memoryUsage m) (maxMemoryPerWorker (config p))]
    else issues in
  let issues :=
    if 60000 <? now - lastActivity m then issues ++ [NoActivity] else issues in
  let totalTasks := tasksCompleted m + tasksFailed m in
  let issues :=
    if (0 <? totalTasks)
       && Qgt_bool (inject_Z (tasksFailed m) / inject_Z totalTasks)%Q (1 # 10)%Q
    then issues ++ [HighErrorRate]
    else issues in
  (match issues with [] => true | _ => false end, issues).

Record HealthReport := {
  hr_workerId : string;
  isHealthy : bool;
  issues : list Issue
}.

(** [healthCheck()]: one report per entry of [metrics], in map order. *)
Definition healthCheck (p : Pool) (now : Z) : list HealthReport :=
  map (fun kv =>
         let r := checkWorkerHealth p now (fst kv) (snd kv) [] in
         {| hr_workerId := fst kv; isHealthy := fst r; issues := snd r |})
      (metrics p).

(** ** TrainingWorkerPool: terminate *)

(** [terminate()] up to its loop: [this.isShuttingDown = true]. *)
Definition terminate_begin (p : Pool) : Pool :=
  with_isShuttingDown true p.

(** The loop condition [this.taskQueue.length > 0], polled every 100 ms. *)
Definition terminate_waiting (p : Pool) : bool :=
  match taskQueue p with [] => false | _ => true end.

(** [terminate()] after its loop: [worker.terminate()] is called on every
    worker of the map, and the call awaits the promises. *)
Definition terminate_stop (p : Pool) : Pool :=
  with_terminated (terminated p ++ workers p) p.

(** [terminate()] once they have resolved: the maps, the sets and the queue
    are cleared. *)
Definition terminate_finish (p : Pool) : Pool :=
  let p := with_workers [] p in
  let p := with_available [] p in
  let p := with_busy [] p in
  let p := with_taskQueue [] p in
  with_metrics [] p.

(** ** Worker configuration (config.ts) *)

Record WorkerEnvironment := {
  USE_WORKERS : bool;
  MAX_WORKERS : option Z;           (* parseInt: an integer or NaN *)
  WORKER_MEMORY_LIMIT : option Z;
  WORKER_TIMEOUT : option Z;
  ENABLE_METRICS : bool;
  ENABLE_CHECKPOINTS : bool;
  LOG_LEVEL : string
}.

Record Validation := {
  isValid : bool;
  errors : list string
}.

Definition known_log_level (l : string) : bool :=
  existsb (String.eqb l) ["debug"; "info"; "warn"; "error"].

(** [validateWorkerConfig(config)]. *)
Definition validateWorkerConfig (c : WorkerEnvironment) : Validation :=
  let errors := [] in
  let errors :=
    if num_lt (MAX_WORKERS c) 1 || num_gt (MAX_WORKERS c) 16
    then errors ++ ["MAX_WORKERS must be between 1 and 16"] else errors in
  let errors :=
    if num_lt (WORKER_MEMORY_LIMIT c) 128 || num_gt (WORKER_MEMORY_LIMIT c) 2048
    then errors ++ ["WORKER_MEMORY_LIMIT must be between 128MB and 2048MB"]
    else errors in
  let errors :=
    if num_lt (WORKER_TIMEOUT c) 30000 || num_gt (WORKER_TIMEOUT c) 1800000
    then errors ++ ["WORKER_TIMEOUT must be between 30 seconds and 30 minutes"]
    else errors in
  let errors :=
    if negb (known_log_level (LOG_LEVEL c))
    then errors ++ ["LOG_LEVEL must be one of: debug, info, warn, error"]
    else errors in
  {| isValid := match errors with [] => true | _ => false end;
     errors := errors |}.

(** The pool configuration the constructor derives from an environment
    ([parseInt(process.env.X || default)]).  The numbers of
    [WorkerPoolConfig] are in Z and Q, which have no [NaN]; a variable that
    did not parse is written 0.  For [maxWorkers] that is what the code does
    with it (the loop [i < NaN] makes no round).  For [maxMemoryPerWorker]
    it is not: [memoryUsage > NaN] is false for every usage, and
    [memoryUsage > 0] is not.  What is stated of this function reads
    [maxWorkers] only. *)
Definition config_of_environment (c : WorkerEnvironment) : WorkerPoolConfig :=
  {| maxWorkers := match MAX_WORKERS c with Some n => n | None => 0 end;
     maxMemoryPerWorker :=
       match WORKER_MEMORY_LIMIT c with Some n => inject_Z n | None => 0%Q end;
     maxTasksPerWorker := 100;
     workerTimeout := match WORKER_TIMEOUT c with Some n => n | None => 0 end;
     enableMetrics := ENABLE_METRICS c;
     enableCheckpoints := ENABLE_CHECKPOINTS c |}.

(** ** WorkerPerformanceMonitor (performanceMonitor.ts) *)

(** The throughput part of [calculateDerivedMetrics()], over the monitor's
    own [workerMetrics] map:
    [totalTime > 0 ? totalTasks / (totalTime / 1000) : 0] and
    [totalTasks > 0 ? totalTime / totalTasks : 0]. *)
Definition calculateDerivedMetrics (workerMetrics : list (string * WorkerMetrics))
    : Throughput :=
  let totalTasks := total_completed workerMetrics in
  let totalTime := total_uptime workerMetrics in
  {| tasksPerSecond :=
       if 0 <? totalTime
       then js_div (inject_Z totalTasks) (inject_Z totalTime / 1000)%Q
       else Finite 0;
     averageTaskTime :=
       if 0 <? totalTasks
       then js_div (inject_Z totalTime) (inject_Z totalTasks)
       else Finite 0 |}.

(** ** The worker side: handleWorkerTask *)

(** The closure variables of [handleWorkerTask]. *)
Record WorkerState := {
  ws_workerId : string;
  currentTask : option WorkerMessage;
  isTraining : bool;
  trainingStartTime : Z;
  peakMemoryUsage : Q
}.

(** [currentTask?.id || 'unknown']. *)
Definition current_id (st : WorkerState) : string :=
  match currentTask st with
  | Some t => if String.eqb (wm_id t) "" then "unknown" else wm_id t
  | None => "unknown"
  end.

(** [sendProgressUpdate(type, data)]: the message posted to the pool. *)
Definition sendProgressUpdate (st : WorkerState) (type : UpdateType)
    (data : JsData) (now : Z) : list InboundMessage :=
  [IsUpdate {| wu_id := current_id st; wu_type := type; wu_data := data;
               wu_timestamp := now |}].

(** [sendResponse(success, data, error)]: nothing is posted without a
    current task. *)
Definition sendResponse (st : WorkerState) (success : bool)
    (data : option JsData) (error : option string) (now : Z)
    : list InboundMessage :=
  match currentTask st with
  | Some t => [IsResponse {| wr_id := wm_id t; wr_success := success;
                             wr_data := data; wr_error := error;
                             wr_timestamp := now |}]
  | None => []
  end.

(** The object the monitoring interval of [startMonitoring] builds.
    [cpu] is [process.cpuUsage().user / 1000000] and [heap] is
    [process.memoryUsage().heapUsed / 1024 / 1024]. *)
Definition monitoring_snapshot (st : WorkerState) (task : WorkerMessage)
    (cpu heap : Q) (now : Z) : WorkerMetrics :=
  {| workerId := ws_workerId st;
     cpuUsage := cpu;
     memoryUsage := heap;
     messageLatency := now - wm_timestamp task;
     tasksCompleted := 0;
     tasksFailed := 0;
     uptime := now - trainingStartTime st;
     lastActivity := now |}.

(** One tick of the monitoring interval: the new worker state and what is
    posted. *)
Definition monitoring_tick (st : WorkerState) (cpu heap : Q) (now : Z)
    : WorkerState * list InboundMessage :=
  match isTraining st, currentTask st with
  | true, Some task =>
      let peak := if Qle_bool (peakMemoryUsage st) heap
                  then heap else peakMemoryUsage st in
      let st' := {| ws_workerId := ws_workerId st; currentTask := currentTask st;
                    isTraining := isTraining st;
                    trainingStartTime := trainingStartTime st;
                    peakMemoryUsage := peak |} in
      (st', sendProgressUpdate st UMetrics
              (DMetrics (monitoring_snapshot st task cpu heap now)) now)
  | _, _ => (st, [])
  end.

(** The [catch] block of the message handler. *)
Definition report_failure (st : WorkerState) (e : JsError) (now : Z)
    : list InboundMessage :=
  let workerError :=
    {| we_code := "WORKER_ERROR"; we_message := err_message e;
       we_stack := None; we_recoverable := true; we_timestamp := now |} in
  sendResponse st false None (Some (we_message workerError)) now
  ++ sendProgressUpdate st UError (DWorkerError workerError) now.

(** The handler of a task message, [parentPort.on('message', async ...)],
    in the two stretches it runs without interruption.  [worker_begin] is
    the handler up to its [await]: for STOP and STATUS, which await nothing,
    that is the whole handler, Response included.  [heap] is
    [process.memoryUsage().heapUsed / 1024 / 1024]. *)
Definition worker_begin (heap : Q) (now : Z) (message : WorkerMessage)
    (st : WorkerState) : WorkerState * list InboundMessage :=
  let st := {| ws_workerId := ws_workerId st; currentTask := Some message;
               isTraining := isTraining st;
               trainingStartTime := trainingStartTime st;
               peakMemoryUsage := peakMemoryUsage st |} in
  let training (b : bool) (start : Z) (peak : Q) :=
    {| ws_workerId := ws_workerId st; currentTask := currentTask st;
       isTraining := b; trainingStartTime := start; peakMemoryUsage := peak |} in
  match wm_type message with
  | TRAIN => (training true now 0%Q, [])
  | EVALUATE | PREDICT | CLEANUP => (st, [])
  | STOP =>
      let st := training false (trainingStartTime st) (peakMemoryUsage st) in
      (st, sendResponse st true (Some (DStopped now)) None now)
  | STATUS =>
      (st, sendResponse st true
             (Some (DStatus (isTraining st) (Some (wm_type message)) heap
                            (now - trainingStartTime st))) None now)
  end.

(** [worker_end] is the handler of [message] from the moment the call it
    awaits ends: the [finally] of TRAIN, then [sendResponse(true, result)]
    or the [catch] block.  Both read [currentTask] as it is by then.
    [cleanup()] only asks TensorFlow to dispose its variables and returns. *)
Definition worker_end (ex : TaskExecutor) (now : Z) (message : WorkerMessage)
    (st : WorkerState) : WorkerState * list InboundMessage :=
  let finish st (o : Outcome) :=
    match o with
    | Returned v => (st, sendResponse st true (Some v) None now)
    | Threw e => (st, report_failure st e now)
    end in
  match wm_type message with
  | TRAIN =>
      finish {| ws_workerId := ws_workerId st; currentTask := currentTask st;
                isTraining := false;
                trainingStartTime := trainingStartTime st;
                peakMemoryUsage := peakMemoryUsage st |}
             (performRealTraining ex (wm_data message))
  | EVALUATE => finish st (evaluateModel ex (wm_data message))
  | PREDICT => finish st (predictText ex (wm_data message))
  | CLEANUP => finish st (Returned DCleaned)
  | STOP | STATUS => (st, [])
  end.

(** The handler run from its first statement to its last with nothing in
    between.  STOP and STATUS always run so; a handler that awaits is
    followed through [worker_run] below, where what the executor reports
    while it runs comes between its two stretches. *)
Definition worker_onmessage (ex : TaskExecutor) (heap : Q) (now : Z)
    (message : WorkerMessage) (st : WorkerState)
    : WorkerState * list InboundMessage :=
  let begun := worker_begin heap now message st in
  let ended := worker_end ex now message (fst begun) in
  (fst ended, snd begun ++ snd ended).

(** What happens in a worker thread: a task message arrives; the executor
    that is running calls the [sendProgressUpdate] it was given
    ([performRealTraining] does for its progress, checkpoints and
    completion); the monitoring interval ticks; the call the handler of
    [message] awaits ends. *)
Inductive WorkerEvent :=
| Arrives (message : WorkerMessage) (heap : Q) (now : Z)
| Reports (type : UpdateType) (data : JsData) (now : Z)
| Ticks (cpu heap : Q) (now : Z)
| Ends (message : WorkerMessage) (now : Z).

Definition worker_step (ex : TaskExecutor) (st : WorkerState) (e : WorkerEvent)
    : WorkerState * list InboundMessage :=
  match e with
  | Arrives message heap now => worker_begin heap now message st
  | Reports type data now => (st, sendProgressUpdate st type data now)
  | Ticks cpu heap now => monitoring_tick st cpu heap now
  | Ends message now => worker_end ex now message st
  end.

(** The state of the worker after the events and everything it posted, in
    order. *)
Definition worker_run (ex : TaskExecutor) (es : list WorkerEvent)
    (st : WorkerState) : WorkerState * list InboundMessage :=
  fold_left (fun acc e => let r := worker_step ex (fst acc) e in
                          (fst r, snd acc ++ snd r))
            es (st, []).

(** Events that neither bring a task nor end a handler. *)
Definition in_the_background (e : WorkerEvent) : bool :=
  match e with
  | Reports _ _ _ | Ticks _ _ _ => true
  | Arrives _ _ _ | Ends _ _ => false
  end.

(** The kinds whose handler awaits a call before it answers. *)
Definition awaits (type : WorkerMessageType) : bool :=
  match type with
  | STOP | STATUS => false
  | TRAIN | EVALUATE | PREDICT | CLEANUP => true
  end.

(** One task handled without another arriving meanwhile: the message
    arrives at [began], the events [between] happen while its handler
    awaits, and the awaited call ends at [ended]. *)
Definition handling (message : WorkerMessage) (heap : Q) (began : Z)
    (between : list WorkerEvent) (ended : Z) : list WorkerEvent :=
  Arrives message heap began :: between ++ [Ends message ended].

(** ** Runs of the pool *)

(** What the coordinating thread reacts to. *)
Inductive Event :=
| OnExecute (useWorkers : bool) (type : WorkerMessageType) (data : JsData)
            (priority : Z) (taskId : string) (now : Z)
| OnMessage (wid : string) (message : InboundMessage) (now : Z)
| OnTimeout (taskId : string)
| OnWorkerError (wid newId : string) (now : Z)
| OnWorkerExit (wid newId : string) (now : Z).

Definition step (ex : TaskExecutor) (p : Pool) (e : Event) : Pool :=
  match e with
  | OnExecute useWorkers type data priority taskId now =>
      snd (execute ex useWorkers type data priority taskId now p)
  | OnMessage wid message now => handleWorkerMessage wid message now p
  | OnTimeout taskId => timeoutHandler taskId p
  | OnWorkerError wid newId now => handleWorkerError wid newId now p
  | OnWorkerExit wid newId now => replaceWorker wid newId now p
  end.

Definition run (ex : TaskExecutor) (es : list Event) (p : Pool) : Pool :=
  fold_left (step ex) es p.

(** The pool a successful construction yields. *)
Definition new_pool (useWorkers : bool) (cfg : WorkerPoolConfig)
    (ids : nat -> string) (now : Z) : Pool :=
  match TrainingWorkerPool_new useWorkers cfg ids now with
  | Normal p => p
  | Throw _ => empty_pool cfg
  end.

(** A call of [terminate()]: the flag is set, the events [during_wait] happen
    while the call polls the queue, and once a poll finds it empty the workers
    of the map are told to stop; the events [during_stop] happen while the
    call awaits them, before the final clearing.  [None]: the call is still
    in its loop after [during_wait]. *)
Definition terminate (ex : TaskExecutor) (during_wait during_stop : list Event)
    (p : Pool) : option Pool :=
  let p := run ex during_wait (terminate_begin p) in
  if terminate_waiting p then None
  else Some (terminate_finish (run ex during_stop (terminate_stop p))).

(** ** Concrete inputs of the examples *)

(** Generated ids: ["a"], ["b"], ... in the order they are drawn. *)
Definition letter_id (i : nat) : string :=
  String (ascii_of_nat (97 + i)) EmptyString.

Definition single_worker_config : WorkerPoolConfig :=
  {| maxWorkers := 1; maxMemoryPerWorker := inject_Z 512;
     maxTasksPerWorker := 100; workerTimeout := 300000;
     enableMetrics := true; enableCheckpoints := true |}.

(** An executor whose three functions return. *)
Definition sound_executor : TaskExecutor :=
  {| performRealTraining := fun _ => Returned (DOpaque "trained");
     evaluateModel := fun _ => Returned (DOpaque "evaluated");
     predictText := fun _ => Returned (DOpaque "predicted") |}.

(** The exception [performRealTraining] rethrows when [config] is [null]. *)
Definition null_config_error : JsError :=
  {| err_name := "TypeError";
     err_message := "Cannot read properties of null (reading 'epochs')" |}.

(** An executor whose training throws. *)
Definition throwing_executor : TaskExecutor :=
  {| performRealTraining := fun _ => Threw null_config_error;
     evaluateModel := fun _ => Returned (DOpaque "evaluated");
     predictText := fun _ => Returned (DOpaque "predicted") |}.

(** A pool of one worker ["a"], built at time 1000 with workers enabled. *)
Definition pool_of_one : Pool :=
  new_pool true single_worker_config letter_id 1000.

(** Task [t1] is submitted and goes to worker ["a"]; task [t2] is submitted
    and waits. *)
Definition one_running_one_queued : Pool :=
  run sound_executor
    [OnExecute true TRAIN (DOpaque "d1") 0 "t1" 1001;
     OnExecute true TRAIN (DOpaque "d2") 0 "t2" 1002]
    pool_of_one.

(** The worker's answer to [t1]. *)
Definition t1_succeeded : InboundMessage :=
  IsResponse {| wr_id := "t1"; wr_success := true;
                wr_data := Some (DOpaque "trained"); wr_error := None;
                wr_timestamp := 2000 |}.

(** Task [t1] runs on the only worker; [tA] (priority 5) and then [tB]
    (priority 10) are submitted and wait. *)
Definition low_then_high_queued : Pool :=
  run sound_executor
    [OnExecute true TRAIN (DOpaque "d1") 0 "t1" 1001;
     OnExecute true EVALUATE (DOpaque "dA") 5 "tA" 1002;
     OnExecute true EVALUATE (DOpaque "dB") 10 "tB" 1003]
    pool_of_one.

(** Worker ["a"] exits and is replaced by ["b"]; the next submission runs the
    assignment step. *)
Definition after_replacement : Pool :=
  run sound_executor
    [OnWorkerExit "a" "b" 1500;
     OnExecute true PREDICT (DOpaque "dC") 0 "tC" 1501]
    low_then_high_queued.

(** The record of a worker that has finished three tasks and failed one. *)
Definition seasoned_metrics : WorkerMetrics :=
  {| workerId := "a"; cpuUsage := 0%Q; memoryUsage := inject_Z 100;
     messageLatency := 1; tasksCompleted := 3; tasksFailed := 1;
     uptime := 2000; lastActivity := 5000 |}.

Definition seasoned_pool : Pool :=
  with_metrics [("a", seasoned_metrics)] pool_of_one.

(** The worker behind ["a"] while it trains task [t1]. *)
Definition training_worker : WorkerState :=
  {| ws_workerId := "worker-17-900";
     currentTask := Some {| wm_id := "t1"; wm_type := TRAIN;
                            wm_data := DOpaque "d1"; wm_timestamp := 1001 |};
     isTraining := true; trainingStartTime := 1002; peakMemoryUsage := 0%Q |}.

(** What its monitoring interval posts at time 4000. *)
Definition snapshot_message : list InboundMessage :=
  snd (monitoring_tick training_worker (1 # 2)%Q (inject_Z 120) 4000).

(** A progress update the worker posts at time 3999. *)
Definition progress_message : InboundMessage :=
  IsUpdate {| wu_id := "t1"; wu_type := UProgress;
              wu_data := DOpaque "Batch 10 completed"; wu_timestamp := 3999 |}.


(** The stored record of worker [id], if any. *)
Definition metrics_of (p : Pool) (id : string) : option WorkerMetrics :=
  map_get id (metrics p).

(** [tasksCompleted + tasksFailed] of a record. *)
Definition tasks_counted (m : WorkerMetrics) : Z :=
  tasksCompleted m + tasksFailed m.

(** The pool after worker ["a"]'s progress update was handled at time 5000. *)
Definition after_progress : Pool :=
  run sound_executor [OnMessage "a" progress_message 5000] pool_of_one.

(** The same pool after the snapshot posted at time 4000 was handled at 5001. *)
Definition after_snapshot (p : Pool) : Pool :=
  fold_left (fun p m => handleWorkerMessage "a" m 5001 p) snapshot_message p.

(** A numeric setting that is a number outside [lo, hi]. *)
Definition outside (v : option Z) (lo hi : Z) : Prop :=
  exists n, v = Some n /\ (n < lo \/ hi < n).

(** Seventeen workers asked for, everything else at its default. *)
Definition oversized_environment : WorkerEnvironment :=
  {| USE_WORKERS := true; MAX_WORKERS := Some 17;
     WORKER_MEMORY_LIMIT := Some 512; WORKER_TIMEOUT := Some 300000;
     ENABLE_METRICS := true; ENABLE_CHECKPOINTS := true; LOG_LEVEL := "info" |}.

(** A settlement the pool itself makes for a queued task: a success, or one
    of the two errors it constructs for queued tasks. *)
Definition pool_settlement (s : Settlement) : bool :=
  match s with
  | Resolved _ => true
  | Rejected TaskTimeoutError => true
  | Rejected (WorkerReportedError _) => true
  | Rejected _ => false
  end.

Definition only_pool_settlements (p : Pool) : Prop :=
  Forall (fun x => pool_settlement (snd x) = true) (settled p).

(** The executor function a kind is delegated to, on either path. *)
Definition executor_for (ex : TaskExecutor) (type : WorkerMessageType)
    : option (JsData -> Outcome) :=
  match type with
  | TRAIN => Some (performRealTraining ex)
  | EVALUATE => Some (evaluateModel ex)
  | PREDICT => Some (predictText ex)
  | _ => None
  end.

(** A pool built with workers disabled. *)
Definition disabled_pool : Pool :=
  new_pool false single_worker_config letter_id 1000.

(** A worker thread that has received no task yet. *)
Definition idle_worker : WorkerState :=
  {| ws_workerId := "worker-17-900"; currentTask := None; isTraining := false;
     trainingStartTime := 0; peakMemoryUsage := 0%Q |}.

(** What [performRealTraining] reports, with no checkpoint to load, before
    it calls [model.fit]. *)
Definition reports_before_fit : list WorkerEvent :=
  [Reports UProgress (DOpaque "New model created") 1500;
   Reports UProgress (DOpaque "Training data prepared") 1510;
   Reports UProgress (DOpaque "Training started") 1520].

(** The only worker exits while it is idle and is replaced by ["b"]:
    [replaceWorker] takes ["a"] out of the map and leaves it in [available]. *)
Definition idle_worker_replaced : Pool :=
  run sound_executor [OnWorkerExit "a" "b" 1500] pool_of_one.

(** ** Notions used to state properties of runs *)

(** [subseq l1 l2]: [l1] is [l2] with some elements left out, order kept. *)
Inductive subseq {A : Type} : list A -> list A -> Prop :=
| subseq_nil : subseq [] []
| subseq_skip (x : A) (l1 l2 : list A) : subseq l1 l2 -> subseq l1 (x :: l2)
| subseq_take (x : A) (l1 l2 : list A) : subseq l1 l2 -> subseq (x :: l1) (x :: l2).

(** The task ids of the [execute] calls of a run, in call order. *)
Definition submitted (es : list Event) : list string :=
  flat_map (fun e => match e with
                     | OnExecute _ _ _ _ taskId _ => [taskId]
                     | _ => []
                     end) es.

(** The ids of the tasks waiting in the queue, head first. *)
Definition queued (p : Pool) : list string := map qt_id (taskQueue p).

(** The ids of the promises settled so far, oldest first. *)
Definition settled_ids (p : Pool) : list string := map fst (settled p).

(** One call [execute(type, data, priority)] with workers enabled, with the
    id and the time it draws. *)
Record Submission := {
  sub_type : WorkerMessageType;
  sub_data : JsData;
  sub_priority : Z;
  sub_id : string;
  sub_time : Z
}.

Definition submit (s : Submission) : Event :=
  OnExecute true (sub_type s) (sub_data s) (sub_priority s) (sub_id s) (sub_time s).

(** The ids the constructor draws for a pool of [maxWorkers cfg] workers. *)
Definition drawn_ids (cfg : WorkerPoolConfig) (ids : nat -> string) : list string :=
  map ids (seq 0 (Z.to_nat (maxWorkers cfg))).

(** Every queue entry carries the id of its own message (as [execute]
    builds them). *)
Definition queue_ids_agree (p : Pool) : Prop :=
  Forall (fun t => wm_id (qt_task t) = qt_id t) (taskQueue p).

(** The bookkeeping of tasks agrees with the submissions [l] so far: the
    tasks handed to workers followed by the tasks still waiting appear in
    [l] in that order, no promise was settled twice, and a settled task was
    submitted and is neither waiting nor handed to a worker. *)
Definition tasks_consistent (p : Pool) (l : list string) : Prop :=
  queue_ids_agree p
  /\ subseq (dispatched p ++ queued p) l
  /\ NoDup (settled_ids p)
  /\ forall id, In id (settled_ids p) ->
       In id l /\ ~ In id (dispatched p ++ queued p).

(** ** Messages as the workers of this module send them *)





(** ** Performance snapshots (types.ts: PerformanceMetrics) *)

Record MemoryUsage := {
  mem_total : Q;
  mem_workers : Q;
  mem_main : Q
}.

(** [workerUtilization] and the two throughput numbers come out of divisions
    that the pool does not always guard, so they are [JsNumber]s. *)
Record PerformanceMetrics := {
  mainThreadResponseTime : Q;
  workerUtilization : JsNumber;
  perf_memoryUsage : MemoryUsage;
  throughput : Throughput;
  errorRate : Q
}.

(** [x * k] for a finite positive [k]: NaN and the infinities stay. *)
Definition js_scale (x : JsNumber) (k : Q) : JsNumber :=
  match x with
  | Finite q => Finite (q * k)
  | other => other
  end.

(** [x < q] and [x > q] for a finite [q]; both are false on NaN. *)
Definition js_lt_q (x : JsNumber) (q : Q) : bool :=
  match x with
  | Finite v => Qgt_bool q v
  | NegInfinity => true
  | PosInfinity | NaN => false
  end.

Definition js_gt_q (x : JsNumber) (q : Q) : bool :=
  match x with
  | Finite v => Qgt_bool v q
  | PosInfinity => true
  | NegInfinity | NaN => false
  end.

Definition sum_Q (l : list Q) : Q := fold_left Qplus l 0%Q.

(** The number of metrics records whose worker is in the [busy] set. *)
Definition active_workers (p : Pool) : nat :=
  List.length (filter (fun kv => set_has (fst kv) (busy p)) (metrics p)).

(** [updatePerformanceMetrics()] of the pool: the snapshot it stores.
    [heap] is [process.memoryUsage().heapUsed / 1024 / 1024] and
    [responseTime] what [measureMainThreadResponseTime()] returned. *)
Definition updatePerformanceMetrics (heap responseTime : Q) (p : Pool)
    : PerformanceMetrics :=
  let totalWorkerMemory := sum_Q (map (fun kv => memoryUsage (snd kv)) (metrics p)) in
  let activeWorkers := active_workers p in
  {| mainThreadResponseTime := responseTime;
     workerUtilization :=
       js_scale (js_div (inject_Z (Z.of_nat activeWorkers))
                        (inject_Z (Z.of_nat (List.length (workers p))))) 100;
     perf_memoryUsage :=
       {| mem_total := heap; mem_workers := totalWorkerMemory;
          mem_main := (heap - totalWorkerMemory)%Q |};
     throughput := calculateThroughput p;
     errorRate := calculateErrorRate p |}.

(** ** WorkerPerformanceMonitor (performanceMonitor.ts), the rest *)

Module Monitor.

(** PERFORMANCE_THRESHOLDS: the members the monitor reads. *)
Record Thresholds := {
  MAIN_THREAD_RESPONSE_TIME : Q;
  WORKER_MEMORY_LIMIT : Q;
  ERROR_RATE_THRESHOLD : Q
}.

(** The constant as config.ts declares it. *)
Definition declared_thresholds : Thresholds :=
  {| MAIN_THREAD_RESPONSE_TIME := inject_Z 100;
     WORKER_MEMORY_LIMIT := inject_Z 512;
     ERROR_RATE_THRESHOLD := inject_Z 5 |}.

(** What the name is bound to in performanceMonitor.ts.  The file imports
    it from './types.js', and types.ts exports no such name (it exports
    interfaces and one enum; the constant is config.ts's): at run time the
    binding is [undefined], and reading a member of it throws a TypeError.
    The functions that read it take the binding as [imported], so that
    their bodies can be followed for either value; the monitor as it stands
    is their instance at [PERFORMANCE_THRESHOLDS]. *)
Definition PERFORMANCE_THRESHOLDS : option Thresholds := None.

(** How a call ends: it returns, or it throws that TypeError. *)
Inductive Call (A : Type) :=
| Returns (a : A)
| Throws.
Arguments Returns {A} a.
Arguments Throws {A}.

Inductive AlertType := Warning | Error | Critical.

(** The four messages [checkThresholds] builds, by their template and the
    numbers printed in them. *)
Inductive AlertMessage :=
| SlowMainThread (responseTime : Q)
| WorkerOverMemory (worker : string) (usage : Q)
| ErrorRateOver (rate : Q)
| LowUtilization (utilization : JsNumber).

(** What the [metrics] member of an alert refers to: the monitor's own
    metrics object or the record of a worker. *)
Inductive AlertSubject :=
| MonitorMetrics
| WorkerRecord (worker : string).

Record PerformanceAlert := {
  alert_type : AlertType;
  alert_message : AlertMessage;
  alert_timestamp : Z;
  alert_metrics : AlertSubject
}.

Record State := {
  metrics : PerformanceMetrics;
  workerMetrics : list (string * WorkerMetrics);
  heapUsed : Q;                        (* systemMetrics.memory.heapUsed, in bytes *)
  alerts : list PerformanceAlert;
  isMonitoring : bool;
  mainThreadResponseTimes : list Q;
  emitted : list PerformanceAlert      (* emit('alert', alert), oldest first *)
}.

Definition with_metrics (x : PerformanceMetrics) (m : State) : State :=
  {| metrics := x; workerMetrics := workerMetrics m; heapUsed := heapUsed m;
     alerts := alerts m; isMonitoring := isMonitoring m;
     mainThreadResponseTimes := mainThreadResponseTimes m;
     emitted := emitted m |}.

Definition with_alerts (x : list PerformanceAlert) (m : State) : State :=
  {| metrics := metrics m; workerMetrics := workerMetrics m;
     heapUsed := heapUsed m; alerts := x; isMonitoring := isMonitoring m;
     mainThreadResponseTimes := mainThreadResponseTimes m;
     emitted := emitted m |}.

Definition with_emitted (x : list PerformanceAlert) (m : State) : State :=
  {| metrics := metrics m; workerMetrics := workerMetrics m;
     heapUsed := heapUsed m; alerts := alerts m;
     isMonitoring := isMonitoring m;
     mainThreadResponseTimes := mainThreadResponseTimes m;
     emitted := x |}.

Definition with_responseTimes (x : list Q) (m : State) : State :=
  {| metrics := metrics m; workerMetrics := workerMetrics m;
     heapUsed := heapUsed m; alerts := alerts m;
     isMonitoring := isMonitoring m;
     mainThreadResponseTimes := x; emitted := emitted m |}.

Definition with_workerMetrics (x : list (string * WorkerMetrics)) (m : State)
    : State :=
  {| metrics := metrics m; workerMetrics := x; heapUsed := heapUsed m;
     alerts := alerts m; isMonitoring := isMonitoring m;
     mainThreadResponseTimes := mainThreadResponseTimes m;
     emitted := emitted m |}.

(** [initializeMetrics()]. *)
Definition initializeMetrics : PerformanceMetrics :=
  {| mainThreadResponseTime := 0%Q; workerUtilization := Finite 0;
     perf_memoryUsage := {| mem_total := 0%Q; mem_workers := 0%Q; mem_main := 0%Q |};
     throughput := {| tasksPerSecond := Finite 0; averageTaskTime := Finite 0 |};
     errorRate := 0%Q |}.

(** [new WorkerPerformanceMonitor()]. *)
Definition create (heap : Q) : State :=
  {| metrics := initializeMetrics; workerMetrics := []; heapUsed := heap;
     alerts := []; isMonitoring := false; mainThreadResponseTimes := [];
     emitted := [] |}.

(** [arr.shift()] as a statement. *)
Definition shift {A : Type} (l : list A) : list A :=
  match l with [] => [] | _ :: rest => rest end.

(** [addAlert(type, message, metrics)]. *)
Definition addAlert (type : AlertType) (message : AlertMessage)
    (subject : AlertSubject) (now : Z) (m : State) : State :=
  let alert := {| alert_type := type; alert_message := message;
                  alert_timestamp := now; alert_metrics := subject |} in
  let m := with_alerts (alerts m ++ [alert]) m in
  let m := with_emitted (emitted m ++ [alert]) m in
  if (100 <? List.length (alerts m))%nat
  then with_alerts (shift (alerts m)) m
  else m.

(** [removeWorkerMetrics(workerId)]. *)
Definition removeWorkerMetrics (id : string) (m : State) : State :=
  with_workerMetrics (map_delete id (workerMetrics m)) m.

(** [clearOldAlerts(maxAge)]. *)
Definition clearOldAlerts (maxAge now : Z) (m : State) : State :=
  let cutoff := now - maxAge in
  with_alerts (filter (fun a => cutoff <? alert_timestamp a) (alerts m)) m.

(** The callback of [measureMainThreadResponseTime()] with the time it
    measured. *)
Definition measureMainThreadResponseTime (responseTime : Q) (m : State) : State :=
  let m := with_responseTimes (mainThreadResponseTimes m ++ [responseTime]) m in
  if (100 <? List.length (mainThreadResponseTimes m))%nat
  then with_responseTimes (shift (mainThreadResponseTimes m)) m
  else m.

(** The parameterless [updateWorkerMetrics()], which aggregates the
    records: utilization, memory and error rate.  The class declares the
    name twice; this later declaration replaces the public
    [updateWorkerMetrics(workerId, metrics)], the only method that would
    store a record, so no operation below adds one. *)
Definition updateWorkerMetrics (m : State) : State :=
  let ms := workerMetrics m in
  let totalWorkerMemory := sum_Q (map (fun kv => memoryUsage (snd kv)) ms) in
  let activeWorkers := List.length (filter (fun kv => 0 <? uptime (snd kv)) ms) in
  let totalTasks :=
    sum_Z (map (fun kv => tasksCompleted (snd kv) + tasksFailed (snd kv)) ms) in
  let failedTasks := sum_Z (map (fun kv => tasksFailed (snd kv)) ms) in
  let heapMB := (heapUsed m / inject_Z 1024 / inject_Z 1024)%Q in
  with_metrics
    {| mainThreadResponseTime := mainThreadResponseTime (metrics m);
       workerUtilization :=
         if (0 <? List.length ms)%nat
         then Finite (inject_Z (Z.of_nat activeWorkers)
                      / inject_Z (Z.of_nat (List.length ms)) * 100)%Q
         else Finite 0;
       perf_memoryUsage :=
         {| mem_total := heapMB; mem_workers := totalWorkerMemory;
            mem_main := (heapMB - totalWorkerMemory)%Q |};
       throughput := throughput (metrics m);
       errorRate :=
         if 0 <? totalTasks
         then (inject_Z failedTasks / inject_Z totalTasks * 100)%Q
         else 0%Q |} m.

(** [calculateDerivedMetrics()]: the average response time, when there is a
    measurement, and the throughput. *)
Definition calculateDerived (m : State) : State :=
  let times := mainThreadResponseTimes m in
  let response :=
    match times with
    | [] => mainThreadResponseTime (metrics m)
    | _ => (sum_Q times / inject_Z (Z.of_nat (List.length times)))%Q
    end in
  with_metrics
    {| mainThreadResponseTime := response;
       workerUtilization := workerUtilization (metrics m);
       perf_memoryUsage := perf_memoryUsage (metrics m);
       throughput := calculateDerivedMetrics (workerMetrics m);
       errorRate := errorRate (metrics m) |} m.

(** The loop of [checkThresholds] over the worker records. *)
Definition checkWorkerMemory (limits : Thresholds) (now : Z) (m : State)
    : State :=
  fold_left
    (fun m kv =>
       if Qgt_bool (memoryUsage (snd kv)) (WORKER_MEMORY_LIMIT limits)
       then addAlert Error (WorkerOverMemory (fst kv) (memoryUsage (snd kv)))
                     (WorkerRecord (fst kv)) now m
       else m)
    (workerMetrics m) m.

(** The body of [checkThresholds()] once the thresholds can be read. *)
Definition checkAgainst (limits : Thresholds) (now : Z) (m : State) : State :=
  let m :=
    if Qgt_bool (mainThreadResponseTime (metrics m))
                (MAIN_THREAD_RESPONSE_TIME limits)
    then addAlert Warning (SlowMainThread (mainThreadResponseTime (metrics m)))
                  MonitorMetrics now m
    else m in
  let m := checkWorkerMemory limits now m in
  let m :=
    if Qgt_bool (errorRate (metrics m)) (ERROR_RATE_THRESHOLD limits)
    then addAlert Critical (ErrorRateOver (errorRate (metrics m)))
                  MonitorMetrics now m
    else m in
  if js_lt_q (workerUtilization (metrics m)) (inject_Z 20)
     && (0 <? List.length (workerMetrics m))%nat
  then addAlert Warning (LowUtilization (workerUtilization (metrics m)))
                MonitorMetrics now m
  else m.

(** [checkThresholds()].  Its first statement reads
    [PERFORMANCE_THRESHOLDS.MAIN_THREAD_RESPONSE_TIME]: with the binding
    undefined the call throws there, before it has changed anything. *)
Definition checkThresholds (imported : option Thresholds) (now : Z) (m : State)
    : Call State :=
  match imported with
  | Some limits => Returns (checkAgainst limits now m)
  | None => Throws
  end.

Inductive Status := Healthy | StatusWarning | StatusCritical.

Inductive Recommendation :=
| OptimizeMainThread   (* 'Consider reducing worker count or optimizing main thread operations' *)
| FixWorkerErrors      (* 'Investigate and fix worker errors to improve reliability' *)
| ShrinkPool.          (* 'Consider reducing worker pool size for better resource utilization' *)

Record Summary := {
  status : Status;
  summary_metrics : PerformanceMetrics;
  summary_alerts : list PerformanceAlert;
  recommendations : list Recommendation
}.

Definition is_critical (a : PerformanceAlert) : bool :=
  match alert_type a with Critical => true | _ => false end.

Definition is_warning (a : PerformanceAlert) : bool :=
  match alert_type a with Warning => true | _ => false end.

(** The body of [getPerformanceSummary()] once the thresholds can be
    read. *)
Definition summarize (limits : Thresholds) (m : State) : Summary :=
  let criticalAlerts := filter is_critical (alerts m) in
  let warningAlerts := filter is_warning (alerts m) in
  let status :=
    match criticalAlerts, warningAlerts with
    | _ :: _, _ => StatusCritical
    | [], _ :: _ => StatusWarning
    | [], [] => Healthy
    end in
  let recommendations := [] in
  let recommendations :=
    if Qgt_bool (mainThreadResponseTime (metrics m))
                (MAIN_THREAD_RESPONSE_TIME limits)
    then recommendations ++ [OptimizeMainThread] else recommendations in
  let recommendations :=
    if Qgt_bool (errorRate (metrics m)) (ERROR_RATE_THRESHOLD limits)
    then recommendations ++ [FixWorkerErrors] else recommendations in
  let recommendations :=
    if js_lt_q (workerUtilization (metrics m)) (inject_Z 20)
    then recommendations ++ [ShrinkPool] else recommendations in
  {| status := status; summary_metrics := metrics m;
     summary_alerts := alerts m; recommendations := recommendations |}.

(** [getPerformanceSummary()].  It filters the alerts and picks the status,
    which read no threshold, and throws at the first recommendation test,
    which does: with the binding undefined it returns nothing. *)
Definition getPerformanceSummary (imported : option Thresholds) (m : State)
    : Call Summary :=
  match imported with
  | Some limits => Returns (summarize limits m)
  | None => Throws
  end.

(** What the monitor does, one operation at a time: the steps of a
    monitoring round and the public calls that change its state. *)
Inductive Operation :=
| Measured (responseTime : Q)
| Aggregated
| Derived
| Checked (now : Z)
| Cleared (maxAge now : Z)
| Removed (worker : string).

(** The state after the operation; a call that throws leaves the state as
    it was when it threw. *)
Definition apply (imported : option Thresholds) (m : State) (o : Operation)
    : State :=
  match o with
  | Measured responseTime => measureMainThreadResponseTime responseTime m
  | Aggregated => updateWorkerMetrics m
  | Derived => calculateDerived m
  | Checked now =>
      match checkThresholds imported now m with
      | Returns m' => m'
      | Throws => m
      end
  | Cleared maxAge now => clearOldAlerts maxAge now m
  | Removed worker => removeWorkerMetrics worker m
  end.

Definition runs (imported : option Thresholds) (os : list Operation)
    (m : State) : State :=
  fold_left (apply imported) os m.

End Monitor.

(** A message to the pool is a Response (not a progress update). *)
Definition is_response (m : InboundMessage) : bool :=
  match m with IsResponse _ => true | IsUpdate _ => false end.

(** [m'] differs from [m] at most in its alerts, and holds at most a hundred
    of them if [m] did. *)
Definition only_alerts_differ (m m' : Monitor.State) : Prop :=
  Monitor.metrics m' = Monitor.metrics m
  /\ Monitor.workerMetrics m' = Monitor.workerMetrics m
  /\ Monitor.mainThreadResponseTimes m' = Monitor.mainThreadResponseTimes m
  /\ ((List.length (Monitor.alerts m) <= 100)%nat ->
      (List.length (Monitor.alerts m') <= 100)%nat).

(** ** Further inputs and measures *)

(** The ['exit'] events of a list of workers, in order: for [(old, new, now)]
    worker [old] exits at [now] and [replaceWorker] draws the id [new]. *)
Definition exit_events (exits : list (string * string * Z)) : list Event :=
  map (fun e => OnWorkerExit (fst (fst e)) (snd (fst e)) (snd e)) exits.

Definition exited (exits : list (string * string * Z)) : list string :=
  map (fun e => fst (fst e)) exits.

Definition started (exits : list (string * string * Z)) : list string :=
  map (fun e => snd (fst e)) exits.

(** Both counters of a record are natural numbers. *)
Definition counts_are_natural (m : WorkerMetrics) : Prop :=
  0 <= tasksCompleted m /\ 0 <= tasksFailed m.

(** The configuration [getDefaultWorkerConfig()] returns. *)
Definition getDefaultWorkerConfig : WorkerEnvironment :=
  {| USE_WORKERS := true; MAX_WORKERS := Some 2;
     WORKER_MEMORY_LIMIT := Some 512; WORKER_TIMEOUT := Some 300000;
     ENABLE_METRICS := true; ENABLE_CHECKPOINTS := true; LOG_LEVEL := "info" |}.


(** ** The worker's evaluation metrics *)

(** Arithmetic on numbers that may have left the rationals.  The two zeros
    are not told apart: every quotient taken below either has a divisor that
    is a sum started from [0] or a positive count, or is followed by [|| 0]. *)
Definition infinity (positive : bool) : JsNumber :=
  if positive then PosInfinity else NegInfinity.

Definition js_add (x y : JsNumber) : JsNumber :=
  match x, y with
  | NaN, _ | _, NaN => NaN
  | Finite a, Finite b => Finite (a + b)
  | PosInfinity, NegInfinity | NegInfinity, PosInfinity => NaN
  | PosInfinity, _ | _, PosInfinity => PosInfinity
  | NegInfinity, _ | _, NegInfinity => NegInfinity
  end.

Definition js_neg (x : JsNumber) : JsNumber :=
  match x with
  | Finite a => Finite (- a)
  | PosInfinity => NegInfinity
  | NegInfinity => PosInfinity
  | NaN => NaN
  end.

Definition js_sub (x y : JsNumber) : JsNumber := js_add x (js_neg y).

(** An infinity times or divided by a finite number. *)
Definition scale_infinity (positive : bool) (b : Q) : JsNumber :=
  if Qeq_bool b 0 then NaN else infinity (Bool.eqb positive (Qle_bool 0 b)).

Definition js_mul (x y : JsNumber) : JsNumber :=
  match x, y with
  | NaN, _ | _, NaN => NaN
  | Finite a, Finite b => Finite (a * b)
  | PosInfinity, Finite b | Finite b, PosInfinity => scale_infinity true b
  | NegInfinity, Finite b | Finite b, NegInfinity => scale_infinity false b
  | PosInfinity, PosInfinity | NegInfinity, NegInfinity => PosInfinity
  | PosInfinity, NegInfinity | NegInfinity, PosInfinity => NegInfinity
  end.

Definition js_quot (x y : JsNumber) : JsNumber :=
  match x, y with
  | NaN, _ | _, NaN => NaN
  | Finite a, Finite b => js_div a b
  | Finite _, _ => Finite 0
  | PosInfinity, Finite b => infinity (Qle_bool 0 b)
  | NegInfinity, Finite b => infinity (negb (Qle_bool 0 b))
  | _, _ => NaN
  end.

Definition js_sum (l : list JsNumber) : JsNumber :=
  fold_left js_add l (Finite 0).

(** An array of numbers; [None] is a hole. *)
Definition Row := list (option JsNumber).
Definition Matrix := list Row.

(** [row[i]] read as a number: a hole, an index past the end and a negative
    index give [undefined], which arithmetic turns into NaN. *)
Definition read (row : Row) (i : Z) : JsNumber :=
  if 0 <=? i
  then match nth_error row (Z.to_nat i) with
       | Some (Some v) => v
       | _ => NaN
       end
  else NaN.

(** [row[i] = v]: an index past the end extends the array with holes. *)
Fixpoint write (row : Row) (i : nat) (v : JsNumber) : Row :=
  match i, row with
  | O, [] => [Some v]
  | O, _ :: rest => Some v :: rest
  | S j, [] => None :: write [] j v
  | S j, x :: rest => x :: write rest j v
  end.

(** [row[p]++], where [p] is [predicted[i]] ([None] when that is
    [undefined]).  When [p] is not an array index the statement sets a
    property that is no element of the array. *)
Definition increment (p : option Z) (row : Row) : Row :=
  match p with
  | Some p =>
      if (0 <=? p) && (p <? 4294967295)
      then write row (Z.to_nat p) (js_add (read row p) (Finite 1))
      else row
  | None => row
  end.

Fixpoint update_row (a : nat) (f : Row -> Row) (m : Matrix) : Matrix :=
  match a, m with
  | _, [] => []
  | O, row :: rest => f row :: rest
  | S b, row :: rest => row :: update_row b f rest
  end.

(** [Array(n).fill(null).map(() => Array(n).fill(0))]. *)
Definition zero_matrix (numClasses : nat) : Matrix :=
  repeat (repeat (Some (Finite 0)) numClasses) numClasses.

(** The loop of [calculateConfusionMatrix]; [predicted] is what is left of
    the array from index [i] on.  [matrix[actual[i]]] is [undefined] for a
    class outside the matrix and reading [predicted[i]] of it throws a
    TypeError: [None]. *)
Fixpoint confusion_loop (actual predicted : list Z) (matrix : Matrix)
    : option Matrix :=
  match actual with
  | [] => Some matrix
  | a :: actual' =>
      if (0 <=? a) && (a <? Z.of_nat (List.length matrix))
      then confusion_loop actual' (tl predicted)
             (update_row (Z.to_nat a) (increment (hd_error predicted)) matrix)
      else None
  end.

(** [calculateConfusionMatrix(actual, predicted, numClasses)], on integer
    labels; [None] stands for an exception. *)
Definition calculateConfusionMatrix (actual predicted : list Z)
    (numClasses : nat) : option Matrix :=
  if Z.of_nat numClasses <=? 4294967295
  then confusion_loop actual predicted (zero_matrix numClasses)
  else None.                        (* Array(n): RangeError *)

Record Scores := {
  precision : JsNumber;
  recall : JsNumber;
  f1Score : JsNumber
}.

(** The elements [reduce] visits: it skips holes. *)
Definition present (row : Row) : list JsNumber :=
  flat_map (fun c => match c with Some v => [v] | None => [] end) row.

(** The body of the loop of [calculateMetrics] for class [i]. *)
Definition class_scores (confusionMatrix : Matrix) (i : nat) : Scores :=
  let row := nth i confusionMatrix [] in
  let truePositives := read row (Z.of_nat i) in
  let falsePositives :=
    js_sub (js_sum (map (fun row => read row (Z.of_nat i)) confusionMatrix))
           truePositives in
  let falseNegatives := js_sub (js_sum (present row)) truePositives in
  let precision :=
    js_or_zero (js_quot truePositives (js_add truePositives falsePositives)) in
  let recall :=
    js_or_zero (js_quot truePositives (js_add truePositives falseNegatives)) in
  let f1 :=
    js_or_zero (js_quot (js_mul (Finite 2) (js_mul precision recall))
                        (js_add precision recall)) in
  {| precision := precision; recall := recall; f1Score := f1 |}.

Definition add_scores (total s : Scores) : Scores :=
  {| precision := js_add (precision total) (precision s);
     recall := js_add (recall total) (recall s);
     f1Score := js_add (f1Score total) (f1Score s) |}.

(** [calculateMetrics(confusionMatrix)]: the three scores averaged over the
    classes. *)
Definition calculateMetrics (confusionMatrix : Matrix) : Scores :=
  let numClasses := List.length confusionMatrix in
  let total :=
    fold_left (fun total i => add_scores total (class_scores confusionMatrix i))
              (seq 0 numClasses)
              {| precision := Finite 0; recall := Finite 0; f1Score := Finite 0 |} in
  let n := Finite (inject_Z (Z.of_nat numClasses)) in
  {| precision := js_quot (precision total) n;
     recall := js_quot (recall total) n;
     f1Score := js_quot (f1Score total) n |}.

(** A matrix of counts as a JavaScript array of arrays. *)
Definition of_counts (counts : list (list Z)) : Matrix :=
  map (map (fun c => Some (Finite (inject_Z c)))) counts.

(** The number of samples with actual class [a] and predicted class [p]. *)
Definition pairs_counted (actual predicted : list Z) (a p : Z) : Z :=
  Z.of_nat (List.length (filter (fun s => (fst s =? a) && (snd s =? p))
                                (combine actual predicted))).

(** The [numClasses] by [numClasses] table of those numbers. *)
Definition pair_counts (actual predicted : list Z) (numClasses : nat)
    : list (list Z) :=
  map (fun a => map (fun p => pairs_counted actual predicted (Z.of_nat a) (Z.of_nat p))
                    (seq 0 numClasses))
      (seq 0 numClasses).

(** A class of the matrix. *)
Definition in_range (numClasses : nat) (c : Z) : Prop :=
  0 <= c < Z.of_nat numClasses.

(** A number that is finite and between 0 and 1. *)
Definition is_ratio (x : JsNumber) : Prop :=
  match x with
  | Finite q => (0 <= q /\ q <= 1)%Q
  | _ => False
  end.

(** Every element of the matrix is a finite number that is not negative. *)
Definition holds_counts (m : Matrix) : Prop :=
  Forall (fun row => Forall (fun v => match v with
                                      | Finite q => (0 <= q)%Q
                                      | _ => False
                                      end) (present row)) m.

(** The labels [generateSyntheticData(numSamples)] returns: [i % 3] for
    sample [i].  (Its texts are drawn at random and are not modelled.) *)
Definition generateSyntheticData_labels (numSamples : nat) : list Z :=
  map (fun i => Z.of_nat i mod 3) (seq 0 numSamples).

(** A count, or NaN where a count could not be read. *)
Definition count_or_nan (x : JsNumber) : Prop :=
  match x with
  | Finite q => (0 <= q)%Q
  | NaN => True
  | _ => False
  end.

(** A finite number between 0 and [k]. *)
Definition within (k : Q) (x : JsNumber) : Prop :=
  match x with
  | Finite q => (0 <= q /\ q <= k)%Q
  | _ => False
  end.

(** The table [counts], [n] by [n], as the matrix the loop works on. *)
Definition tabulate (n : nat) (counts : nat -> nat -> Z) : Matrix :=
  map (fun a => map (fun p => Some (Finite (inject_Z (counts a p)))) (seq 0 n))
      (seq 0 n).

(** A finite number equal to [k]. *)
Definition equals (k : Q) (x : JsNumber) : Prop :=
  match x with
  | Finite q => (q == k)%Q
  | _ => False
  end.

(** Among the classes [0 .. numClasses - 1], the number of those that have
    a sample in [labels]. *)
Definition occurs (labels : list Z) (c : nat) : bool :=
  existsb (Z.eqb (Z.of_nat c)) labels.

Definition classes_present (labels : list Z) (numClasses : nat) : nat :=
  List.length (filter (occurs labels) (seq 0 numClasses)).

(** The number of samples of class [c] among [labels]. *)
Definition samples_of (c : Z) (labels : list Z) : Z :=
  Z.of_nat (List.length (filter (Z.eqb c) labels)).

(** [Math.round]: to the nearest integer, a half goes up. *)
Definition js_round (x : JsNumber) : JsNumber :=
  match x with
  | Finite q => Finite (inject_Z (Qfloor (q + (1 # 2))))
  | other => other
  end.

(** [calculateETA(currentEpoch, totalEpochs, startTime)], read at time
    [now]. *)
Definition calculateETA (currentEpoch totalEpochs startTime now : Z) : JsNumber :=
  let elapsed := now - startTime in
  let avgTimePerEpoch := js_div (inject_Z elapsed) (inject_Z currentEpoch) in
  let remainingEpochs := totalEpochs - currentEpoch in
  js_round (js_mul avgTimePerEpoch (Finite (inject_Z remainingEpochs))).

(** * Properties *)

(** ** Records and containers *)

Lemma update_metrics_frame (id : string) (f : WorkerMetrics -> WorkerMetrics)
    (p : Pool) :
  workers (update_metrics id f p) = workers p
  /\ available (update_metrics id f p) = available p
  /\ busy (update_metrics id f p) = busy p
  /\ taskQueue (update_metrics id f p) = taskQueue p
  /\ isShuttingDown (update_metrics id f p) = isShuttingDown p
  /\ settled (update_metrics id f p) = settled p
  /\ posted (update_metrics id f p) = posted p
  /\ timers (update_metrics id f p) = timers p.
Proof.
  unfold update_metrics. destruct (map_get id (metrics p)); cbn; repeat split.
Qed.

Lemma update_metrics_settled (id : string) (f : WorkerMetrics -> WorkerMetrics)
    (p : Pool) :
  settled (update_metrics id f p) = settled p.
Proof. apply update_metrics_frame. Qed.

Lemma update_metrics_isShuttingDown (id : string)
    (f : WorkerMetrics -> WorkerMetrics) (p : Pool) :
  isShuttingDown (update_metrics id f p) = isShuttingDown p.
Proof. apply update_metrics_frame. Qed.

Lemma map_get_set_same {V : Type} (k : string) (v : V) (m : list (string * V)) :
  map_get k (map_set k v m) = Some v.
Proof.
  induction m as [|[k' v'] m IH]; cbn.
  - now rewrite String.eqb_refl.
  - destruct (String.eqb k k') eqn:E; cbn; rewrite E; auto.
Qed.

Lemma findIndex_none {V : Type} (f : V -> bool) (l : list V) :
  (forall x, In x l -> f x = false) -> findIndex f l = None.
Proof.
  induction l as [|x l IH]; cbn; intros H; [reflexivity|].
  rewrite (H x (or_introl eq_refl)), IH; auto.
Qed.

(** ** The assignment step and the queue *)

(** [processQueue] takes the head of the queue out of [taskQueue] for good:
    the queue is the only place that holds a task's [resolve] and [reject]. *)
Lemma processQueue_shifts (p : Pool) (t : QueuedTask) (rest : list QueuedTask)
    (w : string) (others : list string) :
  taskQueue p = t :: rest -> available p = w :: others ->
  taskQueue (processQueue p) = rest.
Proof.
  intros Hq Ha. unfold processQueue. rewrite Hq, Ha.
  destruct (String.eqb w ""); [reflexivity|].
  cbv zeta. destruct (set_has w _); reflexivity.
Qed.

(** A response whose id is not in the queue changes nothing but the
    activity stamp of the sender. *)
Lemma response_without_entry (wid : string) (r : WorkerResponse) (now : Z)
    (p : Pool) :
  findIndex (fun t => String.eqb (qt_id t) (wr_id r)) (taskQueue p) = None ->
  let p' := handleWorkerMessage wid (IsResponse r) now p in
  settled p' = settled p /\ available p' = available p /\ busy p' = busy p
  /\ taskQueue p' = taskQueue p /\ posted p' = posted p.
Proof.
  intros H. unfold handleWorkerMessage. cbn [is_type message_id message_timestamp].
  destruct (update_metrics_frame wid (touch now (wr_timestamp r)) p)
    as (_ & Ha & Hb & Hq & _ & Hs & Hp & _).
  cbn zeta. rewrite Hq, H. repeat split; assumption.
Qed.

(** The timer of a task that is not in the queue rejects nothing. *)
Lemma timeout_without_entry (id : string) (p : Pool) :
  findIndex (fun t => String.eqb (qt_id t) id) (taskQueue p) = None ->
  settled (timeoutHandler id p) = settled p
  /\ taskQueue (timeoutHandler id p) = taskQueue p.
Proof.
  intros H. unfold timeoutHandler.
  destruct (set_has id (timers p)); [|split; reflexivity].
  cbn. rewrite H. split; reflexivity.
Qed.

(** The search for an insertion point never succeeds: no queued task has a
    priority to compare with. *)
Lemma insertIndex_never_found (priority : Z) (q : list QueuedTask) :
  findIndex (fun t => js_lt (task_priority t) priority) q = None.
Proof.
  apply findIndex_none. intros x _. reflexivity.
Qed.

(** So [execute] always puts the new task last, whatever its priority. *)
Lemma execute_enqueues_last (ex : TaskExecutor) (type : WorkerMessageType)
    (data : JsData) (priority : Z) (taskId : string) (now : Z) (p : Pool) :
  isShuttingDown p = false -> available p = [] ->
  taskQueue (snd (execute ex true type data priority taskId now p))
  = taskQueue p
    ++ [{| qt_id := taskId;
           qt_task := {| wm_id := taskId; wm_type := type; wm_data := data;
                         wm_timestamp := now |} |}].
Proof.
  intros Hs Ha. unfold execute. cbn [negb]. rewrite Hs.
  cbn zeta. cbn [taskQueue with_timers]. rewrite insertIndex_never_found.
  cbn [snd]. unfold processQueue. cbn [taskQueue with_taskQueue available with_timers].
  rewrite Ha. destruct (taskQueue p ++ _) eqn:E; [|rewrite <- E]; reflexivity.
Qed.

(** C1 (code at the failing input).  Task [t1] runs on worker ["a"] and [t2]
    waits.  When the worker's successful Response to [t1] arrives, nothing is
    settled, the worker stays busy and unavailable, and [t2] stays queued:
    the entry of [t1] left the queue when it was dispatched, and the handler
    looks for it there. *)
Theorem C1_response_to_dispatched_task_is_dropped :
  let before := one_running_one_queued in
  let after := handleWorkerMessage "a" t1_succeeded 2001 before in
  dispatched before = ["t1"]
  /\ busy before = ["a"]
  /\ promise_state after "t1" = None
  /\ settled after = []
  /\ busy after = ["a"]
  /\ available after = []
  /\ map qt_id (taskQueue after) = ["t2"]
  /\ dispatched after = ["t1"].
Proof.
  cbv zeta. repeat split; vm_compute; reflexivity.
Qed.

(** C2 (code at the failing input).  The worker never answers [t1]; when the
    timer of [t1] fires, its handler finds no entry for [t1] in the queue and
    rejects nothing.  The timer is spent, so the promise of [t1] stays
    pending. *)
Theorem C2_timeout_of_dispatched_task_rejects_nothing :
  let before := one_running_one_queued in
  let after := timeoutHandler "t1" before in
  dispatched before = ["t1"]
  /\ set_has "t1" (timers before) = true
  /\ promise_state after "t1" = None
  /\ settled after = []
  /\ set_has "t1" (timers after) = false
  /\ timeoutHandler "t1" after = after.
Proof.
  cbv zeta. repeat split; vm_compute; reflexivity.
Qed.

(** C3 (code at the failing input).  [tA] (priority 5) and then [tB]
    (priority 10) wait together; the queue keeps them in submission order and
    the next free worker is given [tA], not [tB]. *)
Theorem C3_higher_priority_task_is_not_dispatched_first :
  map qt_id (taskQueue low_then_high_queued) = ["tA"; "tB"]
  /\ dispatched low_then_high_queued = ["t1"]
  /\ dispatched after_replacement = ["t1"; "tA"]
  /\ map qt_id (taskQueue after_replacement) = ["tB"; "tC"].
Proof.
  repeat split; vm_compute; reflexivity.
Qed.

(** ** Worker metrics *)

(** A metrics message replaces the whole record of its sender by the
    worker's object, counters and activity stamp included. *)
Lemma metrics_message_replaces_record (wid id : string) (m : WorkerMetrics)
    (ts now : Z) (p : Pool) :
  metrics_of
    (handleWorkerMessage wid
       (IsUpdate {| wu_id := id; wu_type := UMetrics; wu_data := DMetrics m;
                    wu_timestamp := ts |}) now p) wid
  = Some m.
Proof.
  unfold handleWorkerMessage, metrics_of. cbn [is_type wu_type message_data wu_data].
  cbv zeta. cbn [spread_metrics metrics with_metrics].
  rewrite map_get_set_same. destruct m; reflexivity.
Qed.

(** The object the worker's monitoring interval sends always carries zero
    counters. *)
Lemma monitoring_snapshot_counts_nothing (st : WorkerState)
    (task : WorkerMessage) (cpu heap : Q) (now : Z) :
  tasks_counted (monitoring_snapshot st task cpu heap now) = 0.
Proof. reflexivity. Qed.

(** Every other message stamps the record with the pool's clock and leaves
    the counters alone or adds one. *)
Lemma touch_keeps_counters (now ts : Z) (m : WorkerMetrics) :
  tasks_counted (touch now ts m) = tasks_counted m
  /\ lastActivity (touch now ts m) = now.
Proof. split; reflexivity. Qed.

Lemma count_task_adds_one (success : bool) (m : WorkerMetrics) :
  tasks_counted (count_task success m) = tasks_counted m + 1
  /\ lastActivity (count_task success m) = lastActivity m.
Proof. unfold tasks_counted. destruct success; cbn; split; lia. Qed.

(** C4 (code at the failing input).  Worker ["a"] has three tasks completed
    and one failed, last active at 5000.  Handling the metrics message its
    monitoring interval posted at 4000 sets both counters to zero and the
    activity stamp back to 4000.  The stamp also goes backwards in a pool
    fresh from its constructor: a progress update handled at 5000, then the
    same metrics message. *)
Theorem C4_metrics_message_resets_counters_and_activity :
  (exists before after,
      metrics_of seasoned_pool "a" = Some before
      /\ metrics_of (after_snapshot seasoned_pool) "a" = Some after
      /\ tasks_counted before = 4 /\ tasks_counted after = 0
      /\ lastActivity before = 5000 /\ lastActivity after = 4000)
  /\ (exists before after,
      metrics_of after_progress "a" = Some before
      /\ metrics_of (after_snapshot after_progress) "a" = Some after
      /\ lastActivity before = 5000 /\ lastActivity after = 4000).
Proof.
  split.
  - eexists. eexists. split; [vm_compute; reflexivity|].
    split; [vm_compute; reflexivity|]. repeat split.
  - eexists. eexists. split; [vm_compute; reflexivity|].
    split; [vm_compute; reflexivity|]. repeat split.
Qed.

(** ** Throughput *)


(** The pool's guard [|| 0] catches [0 / 0] only: with no uptime and a
    completed task the quotient is an infinity and passes through. *)
Lemma calculateThroughput_unguarded (p : Pool) :
  total_uptime (metrics p) = 0 -> 0 < total_completed (metrics p) ->
  tasksPerSecond (calculateThroughput p) = PosInfinity.
Proof.
  intros Hu Hc. unfold calculateThroughput; cbn [tasksPerSecond].
  rewrite Hu. unfold js_div.
  replace (Qeq_bool (inject_Z 0 / 1000) 0) with true by reflexivity.
  destruct (total_completed (metrics p)) eqn:E; try lia. reflexivity.
Qed.

(** ** Health *)

Lemma Qgt_bool_spec (a b : Q) : Qgt_bool a b = true <-> (b < a)%Q.
Proof.
  unfold Qgt_bool. rewrite negb_true_iff, <- not_true_iff_false, Qle_bool_iff.
  split; [apply Qnot_le_lt | apply Qlt_not_le].
Qed.

(** [failed / total > 0.1] says that the failures exceed a tenth of the
    count. *)
Lemma failure_ratio_spec (failed total : Z) :
  (0 <? total) && Qgt_bool (inject_Z failed / inject_Z total) (1 # 10) = true
  <-> 0 < total /\ total < 10 * failed.
Proof.
  rewrite andb_true_iff, Z.ltb_lt, Qgt_bool_spec.
  split; intros [Hpos H]; split; try assumption.
  - destruct (Z.lt_ge_cases total (10 * failed)) as [|Hge]; [assumption|].
    exfalso. apply (Qlt_not_le _ _ H). apply Qle_shift_div_r.
    + unfold Qlt, inject_Z; cbn. lia.
    + destruct total; try lia. unfold Qle, Qmult, inject_Z; cbn. lia.
  - apply Qlt_shift_div_l.
    + unfold Qlt, inject_Z; cbn. lia.
    + destruct total; try lia. unfold Qlt, Qmult, inject_Z; cbn. lia.
Qed.

Lemma Forall2_map_right {A B : Type} (R : A -> B -> Prop) (f : A -> B)
    (l : list A) :
  (forall x, R x (f x)) -> Forall2 R l (map f l).
Proof.
  intros H. induction l; cbn; constructor; auto.
Qed.

(** What one call of [checkWorkerHealth] on an empty [issues] array leaves
    in it, and the flag it returns. *)
Lemma checkWorkerHealth_spec (p : Pool) (now : Z) (wid : string)
    (m : WorkerMetrics) :
  let limit := maxMemoryPerWorker (config p) in
  let r := checkWorkerHealth p now wid m [] in
  (fst r = true <-> snd r = [])
  /\ (In (MemoryOverLimit (memoryUsage m) limit) (snd r)
      <-> (limit < memoryUsage m)%Q)
  /\ (In NoActivity (snd r) <-> 60000 < now - lastActivity m)
  /\ (In HighErrorRate (snd r)
      <-> 0 < tasks_counted m /\ tasks_counted m < 10 * tasksFailed m)
  /\ (forall i, In i (snd r) ->
        i = MemoryOverLimit (memoryUsage m) limit \/ i = NoActivity
        \/ i = HighErrorRate).
Proof.
  cbv zeta. unfold checkWorkerHealth, tasks_counted.
  rewrite <- Qgt_bool_spec, <- Z.ltb_lt, <- failure_ratio_spec.
  destruct (Qgt_bool (memoryUsage m) (maxMemoryPerWorker (config p)));
    destruct (60000 <? now - lastActivity m);
    destruct ((0 <? tasksCompleted m + tasksFailed m)
              && Qgt_bool (inject_Z (tasksFailed m)
                           / inject_Z (tasksCompleted m + tasksFailed m))
                          (1 # 10));
    cbn; intuition (try discriminate; try congruence).
Qed.

(** C9.  [healthCheck] gives one report per metrics record, in order; a
    report is healthy if and only if its issue list is empty, and the list
    holds the memory issue exactly when the memory usage exceeds the
    configured limit, the activity issue exactly when the last activity is
    more than 60000 ms old, the error-rate issue exactly when the worker has
    at least one completed-or-failed task and its failures exceed a tenth of
    that count, and nothing else. *)
Theorem C9_healthy_iff_no_issue (p : Pool) (now : Z) :
  Forall2
    (fun kv r =>
       let m := snd kv in
       let limit := maxMemoryPerWorker (config p) in
       hr_workerId r = fst kv
       /\ (isHealthy r = true <-> issues r = [])
       /\ (In (MemoryOverLimit (memoryUsage m) limit) (issues r)
           <-> (limit < memoryUsage m)%Q)
       /\ (In NoActivity (issues r) <-> 60000 < now - lastActivity m)
       /\ (In HighErrorRate (issues r)
           <-> 0 < tasks_counted m /\ tasks_counted m < 10 * tasksFailed m)
       /\ (forall i, In i (issues r) ->
             i = MemoryOverLimit (memoryUsage m) limit \/ i = NoActivity
             \/ i = HighErrorRate))
    (metrics p) (healthCheck p now).
Proof.
  unfold healthCheck. apply Forall2_map_right. intros [wid m].
  cbn [fst snd hr_workerId isHealthy issues]. split; [reflexivity|].
  apply checkWorkerHealth_spec.
Qed.

(** ** The fallback path and the control kinds *)

(** C10.  With workers disabled, [execute] with kind Stop, Status or Cleanup
    is rejected with the error "Unknown task type: <kind>" and leaves the
    pool as it was; a worker that is sent a message of the same kind answers
    it with a successful Response. *)
Theorem C10_control_kinds_rejected_on_fallback (ex : TaskExecutor)
    (data : JsData) (priority : Z) (taskId : string) (now : Z) (p : Pool) :
  Forall
    (fun type =>
       execute ex false type data priority taskId now p
       = (SettledNow (Rejected (UnknownTaskTypeError type)), p)
       /\ forall (heap : Q) (now' ts : Z) (st : WorkerState),
           exists result st',
             worker_onmessage ex heap now'
               {| wm_id := taskId; wm_type := type; wm_data := data;
                  wm_timestamp := ts |} st
             = (st', [IsResponse {| wr_id := taskId; wr_success := true;
                                    wr_data := Some result; wr_error := None;
                                    wr_timestamp := now' |}]))
    [STOP; STATUS; CLEANUP]
  /\ map (fun type => rejection_message (UnknownTaskTypeError type))
         [STOP; STATUS; CLEANUP]
     = ["Unknown task type: stop"; "Unknown task type: status";
        "Unknown task type: cleanup"].
Proof.
  split; [|reflexivity].
  repeat constructor; intros; eexists; eexists; reflexivity.
Qed.

(** ** Configuration *)

Lemma out_of_range_spec (v : option Z) (lo hi : Z) :
  num_lt v lo || num_gt v hi = true <-> outside v lo hi.
Proof.
  unfold outside, num_lt, num_gt. destruct v as [n|].
  - rewrite orb_true_iff, !Z.ltb_lt. split.
    + intros H. exists n. split; [reflexivity|assumption].
    + intros (k & E & H). injection E as ->. assumption.
  - split; [discriminate|]. intros (k & E & _). discriminate.
Qed.

Lemma set_add_fresh (x : string) (s : list string) :
  ~ In x s -> set_add x s = s ++ [x].
Proof.
  intros H. unfold set_add.
  destruct (existsb (String.eqb x) s) eqn:E; [|reflexivity].
  apply existsb_exists in E as (y & Hy & Heq).
  apply String.eqb_eq in Heq. subst y. contradiction.
Qed.

(** With distinct ids, round [i] of the constructor's loop adds worker
    [ids i] to the map. *)
Lemma initializePool_from_workers (rounds i : nat) (ids : nat -> string)
    (now : Z) (p : Pool) :
  NoDup (map ids (seq 0 (i + rounds))) ->
  workers p = map ids (seq 0 i) ->
  workers (initializePool_from i rounds ids now p) = map ids (seq 0 (i + rounds)).
Proof.
  revert i p. induction rounds as [|r IH]; intros i p Hnd Hw; cbn.
  - now rewrite Nat.add_0_r.
  - replace (i + S r)%nat with (S i + r)%nat in * by lia.
    apply IH; [assumption|].
    cbn [createWorker workers with_available with_workers with_metrics].
    rewrite seq_S, map_app, Hw. cbn [map Nat.add]. apply set_add_fresh.
    replace (S i + r)%nat with (i + S r)%nat in Hnd by lia.
    rewrite seq_app, map_app in Hnd. cbn [seq map Nat.add] in Hnd.
    apply NoDup_remove_2 in Hnd. intros Hin. apply Hnd.
    apply in_or_app. left. assumption.
Qed.

(** C5 (counterexample).  [MAX_WORKERS] is 17, outside 1-16, and
    [validateWorkerConfig] says so; constructing the pool with that
    configuration and workers enabled returns a pool, it raises nothing, and
    seventeen workers are started. *)
Lemma C5_constructor_accepts_out_of_range_configuration :
  outside (MAX_WORKERS oversized_environment) 1 16
  /\ isValid (validateWorkerConfig oversized_environment) = false
  /\ exists p,
      TrainingWorkerPool_new true (config_of_environment oversized_environment)
        letter_id 1000 = Normal p
      /\ totalWorkers (getStatus p) = 17%nat
      /\ availableWorkers (getStatus p) = 17%nat.
Proof.
  split; [exists 17; split; [reflexivity|lia]|].
  split; [reflexivity|].
  eexists. split; [reflexivity|]. split; vm_compute; reflexivity.
Qed.

(** C5 (amended).  Out-of-range settings are reported by
    [validateWorkerConfig], as a value: its result lists the message of a
    bound exactly when the setting is a number outside that bound, and
    [isValid] is false exactly when some bound is violated or the log level
    is unknown.  Construction of the pool itself validates nothing and
    raises nothing: for every configuration it returns a pool, with one
    worker per round of [maxWorkers] when workers are enabled (the generated
    ids being distinct) and none otherwise. *)
Theorem C5_validation_reports_and_constructor_accepts (c : WorkerEnvironment)
    (cfg : WorkerPoolConfig) (useWorkers : bool) (ids : nat -> string) (now : Z)
    (Hdistinct : NoDup (map ids (seq 0 (Z.to_nat (maxWorkers cfg))))) :
  let v := validateWorkerConfig c in
  (In "MAX_WORKERS must be between 1 and 16" (errors v)
   <-> outside (MAX_WORKERS c) 1 16)
  /\ (In "WORKER_MEMORY_LIMIT must be between 128MB and 2048MB" (errors v)
      <-> outside (WORKER_MEMORY_LIMIT c) 128 2048)
  /\ (In "WORKER_TIMEOUT must be between 30 seconds and 30 minutes" (errors v)
      <-> outside (WORKER_TIMEOUT c) 30000 1800000)
  /\ (isValid v = false
      <-> outside (MAX_WORKERS c) 1 16
          \/ outside (WORKER_MEMORY_LIMIT c) 128 2048
          \/ outside (WORKER_TIMEOUT c) 30000 1800000
          \/ known_log_level (LOG_LEVEL c) = false)
  /\ exists p,
      TrainingWorkerPool_new useWorkers cfg ids now = Normal p
      /\ totalWorkers (getStatus p)
         = (if useWorkers then Z.to_nat (maxWorkers cfg) else 0%nat).
Proof.
  cbv zeta. unfold validateWorkerConfig.
  rewrite <- !out_of_range_spec.
  split; [|split; [|split; [|split]]].
  5: {
    eexists. split; [reflexivity|]. unfold getStatus; cbn [totalWorkers].
    destruct useWorkers; [|reflexivity].
    unfold initializePool. cbn [config empty_pool].
    rewrite (initializePool_from_workers _ 0); cbn [Nat.add];
      [now rewrite length_map, length_seq | assumption | reflexivity].
  }
  all: destruct (num_lt (MAX_WORKERS c) 1 || num_gt (MAX_WORKERS c) 16);
    destruct (num_lt (WORKER_MEMORY_LIMIT c) 128
              || num_gt (WORKER_MEMORY_LIMIT c) 2048);
    destruct (num_lt (WORKER_TIMEOUT c) 30000
              || num_gt (WORKER_TIMEOUT c) 1800000);
    destruct (known_log_level (LOG_LEVEL c));
    cbn; intuition (try discriminate; try congruence).
Qed.

(** C5 (witness): the oversized environment and twenty-six letter ids. *)
Lemma C5_validation_reports_and_constructor_accepts_witness :
  isValid (validateWorkerConfig oversized_environment) = false
  /\ exists p,
      TrainingWorkerPool_new true (config_of_environment oversized_environment)
        letter_id 1000 = Normal p
      /\ totalWorkers (getStatus p) = 17%nat.
Proof.
  assert (Hd : NoDup (map letter_id
                        (seq 0 (Z.to_nat
                                  (maxWorkers (config_of_environment
                                                 oversized_environment)))))).
  { vm_compute. repeat (constructor; [cbn; intuition discriminate|]).
    constructor. }
  destruct (C5_validation_reports_and_constructor_accepts
              oversized_environment
              (config_of_environment oversized_environment)
              true letter_id 1000 Hd) as (_ & _ & _ & Hv & Hp).
  split; [apply Hv; left; exists 17; split; [reflexivity|lia]|].
  exact Hp.
Defined.

(** ** What a run can and cannot change *)

Lemma processQueue_frame (p : Pool) :
  settled (processQueue p) = settled p
  /\ isShuttingDown (processQueue p) = isShuttingDown p
  /\ metrics (processQueue p) = metrics p.
Proof.
  unfold processQueue.
  destruct (taskQueue p) as [|t rest]; [repeat split|].
  destruct (available p) as [|w others]; [repeat split|].
  destruct (String.eqb w ""); [repeat split|].
  cbv zeta. destruct (set_has w _); repeat split.
Qed.

Lemma processQueue_idle (p : Pool) : taskQueue p = [] -> processQueue p = p.
Proof. intros H. unfold processQueue. now rewrite H. Qed.

Lemma createWorker_frame (newId : string) (now : Z) (p : Pool) :
  settled (createWorker newId now p) = settled p
  /\ isShuttingDown (createWorker newId now p) = isShuttingDown p
  /\ taskQueue (createWorker newId now p) = taskQueue p.
Proof. repeat split. Qed.

Lemma replaceWorker_frame (wid newId : string) (now : Z) (p : Pool) :
  settled (replaceWorker wid newId now p) = settled p
  /\ isShuttingDown (replaceWorker wid newId now p) = isShuttingDown p
  /\ taskQueue (replaceWorker wid newId now p) = taskQueue p.
Proof.
  unfold replaceWorker. destruct (set_has wid (workers p)); repeat split.
Qed.

Lemma handleWorkerError_frame (wid newId : string) (now : Z) (p : Pool) :
  settled (handleWorkerError wid newId now p) = settled p
  /\ isShuttingDown (handleWorkerError wid newId now p) = isShuttingDown p
  /\ taskQueue (handleWorkerError wid newId now p) = taskQueue p.
Proof.
  unfold handleWorkerError. cbv zeta.
  destruct (update_metrics_frame wid count_failure p)
    as (_ & _ & _ & Hq & Hd & Hs & _).
  match goal with
  | |- context [replaceWorker wid newId now ?q] =>
      destruct (replaceWorker_frame wid newId now q) as (-> & -> & ->)
  end.
  cbn. repeat split; assumption.
Qed.

Lemma initializePool_from_frame (rounds i : nat) (ids : nat -> string)
    (now : Z) (p : Pool) :
  settled (initializePool_from i rounds ids now p) = settled p
  /\ isShuttingDown (initializePool_from i rounds ids now p) = isShuttingDown p
  /\ taskQueue (initializePool_from i rounds ids now p) = taskQueue p.
Proof.
  revert i p. induction rounds as [|r IH]; intros i p; cbn; [repeat split|].
  destruct (IH (S i) (createWorker (ids i) now p)) as (-> & -> & ->).
  apply createWorker_frame.
Qed.

(** A new pool has settled nothing, queued nothing and is not shutting down. *)
Lemma new_pool_clean (useWorkers : bool) (cfg : WorkerPoolConfig)
    (ids : nat -> string) (now : Z) :
  settled (new_pool useWorkers cfg ids now) = []
  /\ isShuttingDown (new_pool useWorkers cfg ids now) = false
  /\ taskQueue (new_pool useWorkers cfg ids now) = [].
Proof.
  unfold new_pool, TrainingWorkerPool_new. destruct useWorkers; [|repeat split].
  unfold initializePool.
  destruct (initializePool_from_frame
              (Z.to_nat (maxWorkers (config (empty_pool cfg)))) 0 ids now
              (empty_pool cfg)) as (-> & -> & ->).
  repeat split.
Qed.

Lemma execute_frame (ex : TaskExecutor) (useWorkers : bool)
    (type : WorkerMessageType) (data : JsData) (priority : Z)
    (taskId : string) (now : Z) (p : Pool) :
  let p' := snd (execute ex useWorkers type data priority taskId now p) in
  settled p' = settled p /\ isShuttingDown p' = isShuttingDown p.
Proof.
  cbv zeta. unfold execute.
  destruct (negb useWorkers); [split; reflexivity|].
  destruct (isShuttingDown p) eqn:E; [split; [reflexivity|assumption]|].
  cbv zeta. cbn [snd].
  match goal with
  | |- context [processQueue ?q] =>
      destruct (processQueue_frame q) as (-> & -> & _)
  end.
  destruct (findIndex _ _); cbn; split; auto.
Qed.

(** Once the pool is shutting down, [execute] leaves it as it is. *)
Lemma execute_when_shutting_down (ex : TaskExecutor) (useWorkers : bool)
    (type : WorkerMessageType) (data : JsData) (priority : Z)
    (taskId : string) (now : Z) (p : Pool) :
  isShuttingDown p = true ->
  snd (execute ex useWorkers type data priority taskId now p) = p.
Proof.
  intros H. unfold execute. rewrite H. destruct (negb useWorkers); reflexivity.
Qed.

Lemma timeoutHandler_frame (taskId : string) (p : Pool) :
  isShuttingDown (timeoutHandler taskId p) = isShuttingDown p
  /\ (taskQueue p = [] -> taskQueue (timeoutHandler taskId p) = [])
  /\ (only_pool_settlements p -> only_pool_settlements (timeoutHandler taskId p)).
Proof.
  unfold timeoutHandler, only_pool_settlements.
  destruct (set_has taskId (timers p)); [|repeat split; auto].
  cbv zeta. cbn [taskQueue with_timers].
  destruct (findIndex _ (taskQueue p)) eqn:E.
  - repeat split.
    + intros Hq. rewrite Hq in E. discriminate.
    + intros H. cbn. apply Forall_app. split; [assumption|].
      repeat constructor.
  - repeat split; auto.
Qed.

Lemma handleWorkerMessage_frame (wid : string) (message : InboundMessage)
    (now : Z) (p : Pool) :
  let p' := handleWorkerMessage wid message now p in
  isShuttingDown p' = isShuttingDown p
  /\ (taskQueue p = [] -> taskQueue p' = [])
  /\ (only_pool_settlements p -> only_pool_settlements p').
Proof.
  cbv zeta. unfold handleWorkerMessage, only_pool_settlements.
  destruct (update_metrics_frame wid (touch now (message_timestamp message)) p)
    as (_ & _ & _ & Hq & Hd & Hs & _).
  cbv zeta.
  set (p1 := update_metrics wid (touch now (message_timestamp message)) p) in *.
  destruct (is_type UProgress message).
  { rewrite Hd, Hq, Hs. repeat split; auto. }
  destruct (is_type UMetrics message).
  { destruct (message_data message) as [d|];
      [destruct (spread_metrics (map_get wid (metrics p1)) d)|];
      cbn; rewrite ?Hd, ?Hq, ?Hs; repeat split; auto. }
  destruct (findIndex _ (taskQueue p1)) eqn:E.
  2: { rewrite Hd, Hq, Hs. repeat split; auto. }
  match goal with
  | |- context [processQueue ?q] =>
      destruct (processQueue_frame q) as (Es & Ed & _); rewrite Es, Ed;
      set (p2 := q) in *
  end.
  assert (Hp2 : isShuttingDown p2 = isShuttingDown p
                /\ exists s, settled p2 = settled p ++ [(message_id message, s)]
                             /\ pool_settlement s = true).
  { subst p2.
    destruct (message_success message);
      cbn [settle settled isShuttingDown with_settled];
      rewrite update_metrics_isShuttingDown, update_metrics_settled;
      cbn [settled isShuttingDown with_busy with_available with_taskQueue
           with_timers];
      rewrite Hd, Hs; (split; [reflexivity|]); eexists; split;
      reflexivity. }
  destruct Hp2 as (Hd2 & s & Hs2 & Hok).
  repeat split.
  - assumption.
  - intros Hq0. rewrite Hq, Hq0 in E. discriminate.
  - intros H. rewrite Hs2. apply Forall_app. split; [assumption|].
    constructor; [assumption|constructor].
Qed.

(** One event keeps the shutting-down flag, keeps an empty queue empty once
    the flag is set, and adds to [settled] only what the pool itself makes. *)
Lemma step_frame (ex : TaskExecutor) (e : Event) (p : Pool) :
  (isShuttingDown p = true -> isShuttingDown (step ex p e) = true)
  /\ (isShuttingDown p = true -> taskQueue p = [] ->
      taskQueue (step ex p e) = [])
  /\ (only_pool_settlements p -> only_pool_settlements (step ex p e)).
Proof.
  destruct e as [u type data priority taskId now | wid message now | taskId
                | wid newId now | wid newId now]; cbn [step].
  - destruct (execute_frame ex u type data priority taskId now p) as (Hs & Hd).
    repeat split.
    + intros H. now rewrite Hd.
    + intros H Hq. now rewrite execute_when_shutting_down.
    + unfold only_pool_settlements. now rewrite Hs.
  - destruct (handleWorkerMessage_frame wid message now p) as (Hd & Hq & Hs).
    repeat split; auto. intros H. now rewrite Hd.
  - destruct (timeoutHandler_frame taskId p) as (Hd & Hq & Hs).
    repeat split; auto. intros H. now rewrite Hd.
  - destruct (handleWorkerError_frame wid newId now p) as (Hs & Hd & Hq).
    unfold only_pool_settlements. rewrite Hs, Hd, Hq. repeat split; auto.
  - destruct (replaceWorker_frame wid newId now p) as (Hs & Hd & Hq).
    unfold only_pool_settlements. rewrite Hs, Hd, Hq. repeat split; auto.
Qed.

Lemma run_settlements (ex : TaskExecutor) (es : list Event) (p : Pool) :
  only_pool_settlements p -> only_pool_settlements (run ex es p).
Proof.
  revert p. induction es as [|e es IH]; intros p H; cbn; [assumption|].
  apply IH. now apply step_frame.
Qed.

Lemma run_drained (ex : TaskExecutor) (es : list Event) (p : Pool) :
  isShuttingDown p = true -> taskQueue p = [] ->
  isShuttingDown (run ex es p) = true /\ taskQueue (run ex es p) = [].
Proof.
  revert p. induction es as [|e es IH]; intros p Hd Hq; cbn; [split; assumption|].
  apply IH; now apply step_frame.
Qed.

Lemma run_keeps_shutting_down (ex : TaskExecutor) (es : list Event) (p : Pool) :
  isShuttingDown p = true -> isShuttingDown (run ex es p) = true.
Proof.
  revert p. induction es as [|e es IH]; intros p Hd; cbn; [assumption|].
  apply IH; now apply step_frame.
Qed.

(** ** What [execute] hands to its caller *)

(** C6 (counterexample).  With workers disabled, [execute(TRAIN, ...)] on an
    executor whose training throws a [TypeError] rejects with that very
    exception: it is none of TaskTimeout, WorkerExecutionError and
    PoolShuttingDown, and nothing wraps it. *)
Lemma C6_fallback_hands_over_raw_exception :
  performRealTraining throwing_executor (DOpaque "d1") = Threw null_config_error
  /\ execute throwing_executor false TRAIN (DOpaque "d1") 0 "t1" 1001 disabled_pool
     = (SettledNow (Rejected (ExecutorException null_config_error)), disabled_pool)
  /\ documented_kind (ExecutorException null_config_error) = false.
Proof.
  repeat split.
Qed.

Lemma worker_run_from (ex : TaskExecutor) (es : list WorkerEvent)
    (st : WorkerState) (out : list InboundMessage) :
  fold_left (fun acc e => let r := worker_step ex (fst acc) e in
                          (fst r, snd acc ++ snd r))
            es (st, out)
  = (fst (worker_run ex es st), out ++ snd (worker_run ex es st)).
Proof.
  unfold worker_run. revert st out. induction es as [|e es IH]; intros st out.
  - cbn. now rewrite app_nil_r.
  - cbn [fold_left fst snd app].
    rewrite (IH _ (out ++ _)), (IH _ (snd (worker_step ex st e))).
    cbn [fst snd]. now rewrite app_assoc.
Qed.

Lemma worker_run_cons (ex : TaskExecutor) (e : WorkerEvent)
    (es : list WorkerEvent) (st : WorkerState) :
  worker_run ex (e :: es) st
  = (fst (worker_run ex es (fst (worker_step ex st e))),
     snd (worker_step ex st e) ++ snd (worker_run ex es (fst (worker_step ex st e)))).
Proof.
  unfold worker_run at 1. cbn [fold_left fst snd app]. apply worker_run_from.
Qed.

Lemma worker_run_app (ex : TaskExecutor) (es1 es2 : list WorkerEvent)
    (st : WorkerState) :
  worker_run ex (es1 ++ es2) st
  = (fst (worker_run ex es2 (fst (worker_run ex es1 st))),
     snd (worker_run ex es1 st) ++ snd (worker_run ex es2 (fst (worker_run ex es1 st)))).
Proof.
  unfold worker_run at 1. rewrite fold_left_app.
  fold (worker_run ex es1 st).
  destruct (worker_run ex es1 st) as [st1 out1]. apply worker_run_from.
Qed.

(** The events that happen while a handler awaits post updates only and
    leave [currentTask] alone. *)
Lemma worker_background (ex : TaskExecutor) (between : list WorkerEvent)
    (st : WorkerState) :
  forallb in_the_background between = true ->
  exists updates,
    snd (worker_run ex between st) = map IsUpdate updates
    /\ currentTask (fst (worker_run ex between st)) = currentTask st.
Proof.
  revert st. induction between as [|e between IH]; intros st H.
  - exists []. split; reflexivity.
  - cbn [forallb] in H. apply andb_true_iff in H as (He & H).
    rewrite worker_run_cons. cbn [fst snd].
    assert (Hstep : exists updates1,
               snd (worker_step ex st e) = map IsUpdate updates1
               /\ currentTask (fst (worker_step ex st e)) = currentTask st).
    { destruct e as [m h t|type data t|cpu h t|m t]; cbn in He; try discriminate.
      - eexists [_]. split; reflexivity.
      - cbn [worker_step]. unfold monitoring_tick.
        destruct (isTraining st), (currentTask st) as [task|] eqn:Et;
          cbn [fst snd sendProgressUpdate].
        + eexists [_]. split; [reflexivity|]. cbn. congruence.
        + exists []. split; [reflexivity|congruence].
        + exists []. split; [reflexivity|congruence].
        + exists []. split; [reflexivity|congruence]. }
    destruct Hstep as (updates1 & E1 & Hc1).
    destruct (IH (fst (worker_step ex st e)) H) as (updates & E & Hc).
    exists (updates1 ++ updates). split; [|congruence].
    now rewrite E1, E, map_app.
Qed.

(** One task handled from its arrival to the end of the call its handler
    awaits: what was posted is the updates of the meantime, then what the
    second stretch of the handler posts with the message as current task. *)
Lemma handling_awaited (ex : TaskExecutor) (message : WorkerMessage) (heap : Q)
    (began ended : Z) (between : list WorkerEvent) (st : WorkerState) :
  forallb in_the_background between = true ->
  awaits (wm_type message) = true ->
  exists st1 updates,
    currentTask st1 = Some message
    /\ worker_run ex (handling message heap began between ended) st
       = (fst (worker_end ex ended message st1),
          map IsUpdate updates ++ snd (worker_end ex ended message st1)).
Proof.
  intros Hb Ha. unfold handling.
  rewrite worker_run_cons, worker_run_app. cbn [fst snd worker_step].
  assert (Hbegin : snd (worker_begin heap began message st) = []
                   /\ currentTask (fst (worker_begin heap began message st))
                      = Some message).
  { unfold worker_begin. destruct (wm_type message); cbn in Ha;
      try discriminate; split; reflexivity. }
  destruct Hbegin as (E0 & Hc0). rewrite E0.
  destruct (worker_background ex between
              (fst (worker_begin heap began message st)) Hb)
    as (updates & E & Hc).
  rewrite E. rewrite worker_run_cons. cbn [fst snd worker_step app worker_run fold_left].
  rewrite app_nil_r.
  exists (fst (worker_run ex between (fst (worker_begin heap began message st)))),
         updates.
  split; [congruence|reflexivity].
Qed.

(** A kind that awaits nothing is answered when it arrives. *)
Lemma handling_at_once (ex : TaskExecutor) (message : WorkerMessage) (heap : Q)
    (began ended : Z) (between : list WorkerEvent) (st : WorkerState) :
  forallb in_the_background between = true ->
  awaits (wm_type message) = false ->
  exists st1 result updates,
    currentTask st1 = Some message
    /\ worker_run ex (handling message heap began between ended) st
       = (st1,
          IsResponse {| wr_id := wm_id message; wr_success := true;
                        wr_data := Some result; wr_error := None;
                        wr_timestamp := began |}
          :: map IsUpdate updates).
Proof.
  intros Hb Ha. unfold handling.
  rewrite worker_run_cons, worker_run_app. cbn [fst snd worker_step].
  destruct (worker_background ex between
              (fst (worker_begin heap began message st)) Hb)
    as (updates & E & Hc).
  rewrite E. rewrite worker_run_cons. cbn [fst snd worker_step app worker_run fold_left].
  assert (Hbegin : exists result,
             snd (worker_begin heap began message st)
             = [IsResponse {| wr_id := wm_id message; wr_success := true;
                              wr_data := Some result; wr_error := None;
                              wr_timestamp := began |}]
             /\ currentTask (fst (worker_begin heap began message st))
                = Some message).
  { unfold worker_begin. destruct (wm_type message); cbn in Ha;
      try discriminate; eexists; split; reflexivity. }
  destruct Hbegin as (result & E0 & Hc0). rewrite E0.
  assert (Hend : worker_end ex ended message
                   (fst (worker_run ex between
                           (fst (worker_begin heap began message st))))
                 = (fst (worker_run ex between
                           (fst (worker_begin heap began message st))), [])).
  { unfold worker_end. destruct (wm_type message); cbn in Ha;
      try discriminate; reflexivity. }
  rewrite Hend. cbn [fst snd app]. rewrite app_nil_r.
  eexists; exists result, updates. split; [|reflexivity]. congruence.
Qed.

(** C6 (amended).  On the fallback path the caller receives exactly what the
    executor produced, its payload or the exception it threw, unwrapped, and
    an "Unknown task type" error for a kind that has no executor.  On the
    worker path the call is rejected at once with "Worker pool is shutting
    down", or it is left pending: nothing is settled, the timer of the task
    is armed and the task is appended to the queue, from which the same call
    takes the task at the head when a worker is available; that task is
    posted to the first available worker if the worker is still in the map,
    and posted nowhere if it is not ([replaceWorker] leaves the id of the
    worker it removes in [available]).  Whatever a run of the pool later
    settles a task with is a success, a "Task timeout" error or a new error
    built from the message of a worker's failure Response, never the
    executor's exception itself.  A worker whose executor throws posts,
    after the updates of the meantime, a failure Response that carries the
    message of the exception, and then an ['error'] update. *)
Theorem C6_what_execute_hands_to_the_caller (ex : TaskExecutor) :
  (forall type data priority taskId now p,
      execute ex false type data priority taskId now p
      = (SettledNow
           match executor_for ex type with
           | Some f =>
               match f data with
               | Returned v => Resolved (Some v)
               | Threw e => Rejected (ExecutorException e)
               end
           | None => Rejected (UnknownTaskTypeError type)
           end, p))
  /\ (forall type data priority taskId now p,
        let task :=
          {| qt_id := taskId;
             qt_task := {| wm_id := taskId; wm_type := type; wm_data := data;
                           wm_timestamp := now |} |} in
        let r := execute ex true type data priority taskId now p in
        if isShuttingDown p
        then r = (SettledNow (Rejected ShuttingDownError), p)
        else fst r = Awaiting taskId
             /\ settled (snd r) = settled p
             /\ timers (snd r) = timers p ++ [taskId]
             /\ match available p with
                | [] =>
                    taskQueue (snd r) = taskQueue p ++ [task]
                    /\ posted (snd r) = posted p
                | w :: _ =>
                    taskQueue (snd r) = tl (taskQueue p ++ [task])
                    /\ posted (snd r)
                       = if negb (String.eqb w "") && set_has w (workers p)
                         then posted p
                              ++ [(w, qt_task (hd task (taskQueue p ++ [task])))]
                         else posted p
                end)
  /\ (forall useWorkers cfg ids now es,
        only_pool_settlements (run ex es (new_pool useWorkers cfg ids now)))
  /\ (forall heap began ended message between st f e,
        forallb in_the_background between = true ->
        executor_for ex (wm_type message) = Some f ->
        f (wm_data message) = Threw e ->
        exists updates update,
          snd (worker_run ex (handling message heap began between ended) st)
          = map IsUpdate updates
            ++ [IsResponse {| wr_id := wm_id message; wr_success := false;
                              wr_data := None; wr_error := Some (err_message e);
                              wr_timestamp := ended |};
                IsUpdate update]
          /\ wu_type update = UError).
Proof.
  split; [|split; [|split]].
  - intros type data priority taskId now p. unfold execute. cbn [negb].
    destruct type; reflexivity.
  - intros type data priority taskId now p. cbv zeta.
    destruct (isShuttingDown p) eqn:Hd.
    + unfold execute. cbn [negb]. now rewrite Hd.
    + unfold execute. cbn [negb]. rewrite Hd. cbv zeta.
      cbn [taskQueue with_timers]. rewrite insertIndex_never_found.
      cbn [fst snd]. unfold processQueue.
      cbn [taskQueue available with_taskQueue with_timers].
      destruct (taskQueue p) as [|t rest];
        cbn [app hd tl]; destruct (available p) as [|w others];
        try (repeat split; reflexivity);
        destruct (String.eqb w ""); cbn [negb andb];
        try (repeat split; reflexivity);
        cbn [workers with_busy with_available with_taskQueue with_timers];
        destruct (set_has w (workers p)); repeat split; reflexivity.
  - intros useWorkers cfg ids now es. apply run_settlements.
    unfold only_pool_settlements.
    destruct (new_pool_clean useWorkers cfg ids now) as (-> & _). constructor.
  - intros heap began ended message between st f e Hb Hf He.
    assert (Ha : awaits (wm_type message) = true)
      by (destruct (wm_type message); cbn in Hf; try discriminate; reflexivity).
    destruct (handling_awaited ex message heap began ended between st Hb Ha)
      as (st1 & updates & Hc & E).
    rewrite E. cbn [snd]. exists updates.
    unfold worker_end.
    destruct (wm_type message); cbn in Hf; try discriminate;
      injection Hf as <-; rewrite He;
      unfold report_failure, sendResponse, sendProgressUpdate;
      cbn [snd currentTask]; rewrite Hc; cbn [app we_message];
      eexists; split; reflexivity.
Qed.

(** C6 (witness): the throwing executor on a disabled pool; a run of the
    pool; a call that finds the id of a replaced worker first in
    [available]; and a worker that is sent a training task with a [null]
    configuration, whose executor reports its progress up to [model.fit]
    and throws there. *)
Lemma C6_what_execute_hands_to_the_caller_witness :
  execute throwing_executor false TRAIN (DOpaque "d1") 0 "t1" 1001 disabled_pool
  = (SettledNow (Rejected (ExecutorException null_config_error)), disabled_pool)
  /\ only_pool_settlements
       (run sound_executor
          [OnExecute true TRAIN (DOpaque "d1") 0 "t1" 1001;
           OnMessage "a" t1_succeeded 2001;
           OnTimeout "t1"]
          (new_pool true single_worker_config letter_id 1000))
  /\ (available idle_worker_replaced = ["a"; "b"]
      /\ workers idle_worker_replaced = ["b"]
      /\ taskQueue (snd (execute sound_executor true TRAIN (DOpaque "d1") 0 "t1"
                           1501 idle_worker_replaced)) = []
      /\ posted (snd (execute sound_executor true TRAIN (DOpaque "d1") 0 "t1"
                        1501 idle_worker_replaced)) = [])
  /\ exists updates update,
      snd (worker_run throwing_executor
             (handling {| wm_id := "t1"; wm_type := TRAIN; wm_data := DOpaque "d1";
                          wm_timestamp := 1001 |}
                       (inject_Z 120) 1002 reports_before_fit 1600)
             idle_worker)
      = map IsUpdate updates
        ++ [IsResponse {| wr_id := "t1"; wr_success := false; wr_data := None;
                          wr_error := Some "Cannot read properties of null (reading 'epochs')";
                          wr_timestamp := 1600 |};
            IsUpdate update]
      /\ wu_type update = UError.
Proof.
  destruct (C6_what_execute_hands_to_the_caller throwing_executor)
    as (Hfallback & _ & _ & Hworker).
  destruct (C6_what_execute_hands_to_the_caller sound_executor)
    as (_ & Hpending & Hrun & _).
  split; [apply Hfallback|]. split; [apply Hrun|]. split.
  - split; [reflexivity|]. split; [reflexivity|].
    pose proof (Hpending TRAIN (DOpaque "d1") 0 "t1" 1501 idle_worker_replaced)
      as H.
    cbv zeta in H.
    change (isShuttingDown idle_worker_replaced) with false in H.
    change (available idle_worker_replaced) with ["a"; "b"] in H.
    cbv iota in H. destruct H as (_ & _ & _ & Hq & Hp).
    split; [exact Hq|exact Hp].
  - apply (Hworker (inject_Z 120) 1002 1600
             {| wm_id := "t1"; wm_type := TRAIN; wm_data := DOpaque "d1";
                wm_timestamp := 1001 |}
             reports_before_fit idle_worker
             (performRealTraining throwing_executor) null_config_error);
      reflexivity.
Defined.

(** ** Shutdown *)

Lemma terminate_finish_state (p : Pool) :
  totalWorkers (getStatus (terminate_finish p)) = 0%nat
  /\ taskQueue (terminate_finish p) = []
  /\ isShuttingDown (terminate_finish p) = isShuttingDown p.
Proof. repeat split. Qed.

(** A call of [terminate] on a pool that is shutting down with an empty
    queue passes its loop at the first poll. *)
Lemma terminate_of_drained (ex : TaskExecutor) (w s : list Event) (p : Pool) :
  isShuttingDown p = true -> taskQueue p = [] ->
  terminate ex w s p
  = Some (terminate_finish
            (run ex s (terminate_stop (run ex w (terminate_begin p))))).
Proof.
  intros Hd Hq. unfold terminate.
  destruct (run_drained ex w (terminate_begin p)) as (_ & Hq'); [reflexivity|assumption|].
  unfold terminate_waiting. now rewrite Hq'.
Qed.

(** C7 (counterexample).  A pool built and used with workers disabled:
    [terminate()] resolves and leaves no worker, and the next [execute] call
    does not fail with PoolShuttingDown, it runs the executor and resolves. *)
Lemma C7_execute_after_terminate_runs_fallback :
  exists p',
    terminate sound_executor [] [] disabled_pool = Some p'
    /\ totalWorkers (getStatus p') = 0%nat
    /\ isShuttingDown p' = true
    /\ execute sound_executor false PREDICT (DOpaque "text") 0 "t9" 3000 p'
       = (SettledNow (Resolved (Some (DOpaque "predicted"))), p').
Proof.
  eexists. split; [reflexivity|]. repeat split.
Qed.

(** C7 (amended).  After [terminate()] resolves the pool has no worker; from
    then on, whatever else happens, every [execute] call made with workers
    enabled is rejected with "Worker pool is shutting down" and leaves the
    pool as it is (a call made with workers disabled still runs the fallback
    executor), and every further [terminate()] call resolves at its first
    poll, again with no worker left. *)
Theorem C7_after_terminate (ex : TaskExecutor) (p p' : Pool)
    (during_wait during_stop : list Event)
    (Hresolved : terminate ex during_wait during_stop p = Some p') :
  totalWorkers (getStatus p') = 0%nat
  /\ (forall later type data priority taskId now,
        execute ex true type data priority taskId now (run ex later p')
        = (SettledNow (Rejected ShuttingDownError), run ex later p'))
  /\ (forall later type data priority taskId now,
        execute ex false type data priority taskId now (run ex later p')
        = (SettledNow (executeInMainThread ex type data), run ex later p'))
  /\ (forall later w s,
        exists p'',
          terminate ex w s (run ex later p') = Some p''
          /\ totalWorkers (getStatus p'') = 0%nat).
Proof.
  unfold terminate in Hresolved.
  destruct (terminate_waiting _) eqn:Hw; [discriminate|].
  injection Hresolved as <-.
  set (q := run ex during_stop
                (terminate_stop (run ex during_wait (terminate_begin p)))).
  assert (Hflag : isShuttingDown (terminate_finish q) = true).
  { cbn. subst q. apply run_keeps_shutting_down. cbn.
    apply run_keeps_shutting_down. reflexivity. }
  assert (Hlater : forall later,
             isShuttingDown (run ex later (terminate_finish q)) = true
             /\ taskQueue (run ex later (terminate_finish q)) = []).
  { intros later. apply run_drained; [assumption|reflexivity]. }
  split; [reflexivity|]. split; [|split].
  - intros later type data priority taskId now.
    destruct (Hlater later) as (Hd & _).
    unfold execute. cbn [negb]. now rewrite Hd.
  - reflexivity.
  - intros later w s. destruct (Hlater later) as (Hd & Hq).
    eexists. split; [apply terminate_of_drained; assumption|reflexivity].
Qed.

(** C7 (witness): the pool with [t1] running and [t2] queued; the call waits
    until the timer of [t2] empties the queue, and worker ["a"] exits while
    the workers are stopped. *)
Lemma C7_after_terminate_witness :
  exists p',
    terminate sound_executor [OnTimeout "t2"] [OnWorkerExit "a" "b" 9000]
      one_running_one_queued = Some p'
    /\ totalWorkers (getStatus p') = 0%nat
    /\ execute sound_executor true TRAIN (DOpaque "d3") 0 "t3" 9500 p'
       = (SettledNow (Rejected ShuttingDownError), p')
    /\ exists p'',
        terminate sound_executor [] [] p' = Some p''
        /\ totalWorkers (getStatus p'') = 0%nat.
Proof.
  eexists. split; [vm_compute; reflexivity|].
  match goal with
  | |- totalWorkers (getStatus ?q) = _ /\ _ =>
      destruct (C7_after_terminate sound_executor one_running_one_queued q
                  [OnTimeout "t2"] [OnWorkerExit "a" "b" 9000])
        as (Hnone & Hexec & _ & Hagain); [vm_compute; reflexivity|]
  end.
  split; [exact Hnone|]. split.
  - exact (Hexec [] TRAIN (DOpaque "d3") 0 "t3" 9500).
  - exact (Hagain [] [] []).
Defined.

(** * Further properties of the pool *)

(** ** Field by field: what [update_metrics] and worker replacement leave alone *)

Lemma update_metrics_posted (id : string) (f : WorkerMetrics -> WorkerMetrics)
    (p : Pool) : posted (update_metrics id f p) = posted p.
Proof. apply update_metrics_frame. Qed.

Lemma update_metrics_taskQueue (id : string) (f : WorkerMetrics -> WorkerMetrics)
    (p : Pool) : taskQueue (update_metrics id f p) = taskQueue p.
Proof. apply update_metrics_frame. Qed.

Lemma update_metrics_timers (id : string) (f : WorkerMetrics -> WorkerMetrics)
    (p : Pool) : timers (update_metrics id f p) = timers p.
Proof. apply update_metrics_frame. Qed.

Lemma update_metrics_available (id : string) (f : WorkerMetrics -> WorkerMetrics)
    (p : Pool) : available (update_metrics id f p) = available p.
Proof. apply update_metrics_frame. Qed.

Lemma update_metrics_busy (id : string) (f : WorkerMetrics -> WorkerMetrics)
    (p : Pool) : busy (update_metrics id f p) = busy p.
Proof. apply update_metrics_frame. Qed.

Lemma update_metrics_workers (id : string) (f : WorkerMetrics -> WorkerMetrics)
    (p : Pool) : workers (update_metrics id f p) = workers p.
Proof. apply update_metrics_frame. Qed.

Lemma NoDup_app_cons_last {A : Type} (l : list A) (x : A) :
  NoDup l -> ~ In x l -> NoDup (l ++ [x]).
Proof.
  intros Hnd Hx. induction Hnd as [|a l Ha Hnd IH]; cbn.
  - constructor; [intros []|constructor].
  - constructor.
    + intros Hin. apply in_app_or in Hin as [Hin|[<-|[]]]; [contradiction|].
      apply Hx. left. reflexivity.
    + apply IH. intros Hin. apply Hx. right. assumption.
Qed.

Lemma replaceWorker_posted (wid newId : string) (now : Z) (p : Pool) :
  posted (replaceWorker wid newId now p) = posted p.
Proof. unfold replaceWorker. destruct (set_has wid (workers p)); reflexivity. Qed.

Lemma handleWorkerError_posted (wid newId : string) (now : Z) (p : Pool) :
  posted (handleWorkerError wid newId now p) = posted p.
Proof.
  unfold handleWorkerError. cbv zeta. rewrite replaceWorker_posted. cbn.
  apply update_metrics_posted.
Qed.

Lemma initializePool_from_posted (rounds i : nat) (ids : nat -> string)
    (now : Z) (p : Pool) :
  posted (initializePool_from i rounds ids now p) = posted p
  /\ busy (initializePool_from i rounds ids now p) = busy p.
Proof.
  revert i p. induction rounds as [|r IH]; intros i p; cbn; [split; reflexivity|].
  destruct (IH (S i) (createWorker (ids i) now p)) as (-> & ->).
  split; reflexivity.
Qed.

Lemma new_pool_posted (useWorkers : bool) (cfg : WorkerPoolConfig)
    (ids : nat -> string) (now : Z) :
  posted (new_pool useWorkers cfg ids now) = [].
Proof.
  unfold new_pool, TrainingWorkerPool_new. destruct useWorkers; [|reflexivity].
  unfold initializePool. apply initializePool_from_posted.
Qed.

(** ** Lists: subsequences and removal by index *)

Lemma subseq_refl {A : Type} (l : list A) : subseq l l.
Proof. induction l; constructor; assumption. Qed.

Lemma subseq_trans {A : Type} (l1 l2 l3 : list A) :
  subseq l1 l2 -> subseq l2 l3 -> subseq l1 l3.
Proof.
  intros H12 H23. revert l1 H12.
  induction H23 as [|x l2 l3 H IH|x l2 l3 H IH]; intros l1 H12.
  - assumption.
  - constructor. apply IH. assumption.
  - inversion H12; subst.
    + constructor. apply IH. assumption.
    + apply subseq_take. apply IH. assumption.
Qed.

Lemma subseq_app {A : Type} (l1 l2 m1 m2 : list A) :
  subseq l1 l2 -> subseq m1 m2 -> subseq (l1 ++ m1) (l2 ++ m2).
Proof.
  intros H Hm. induction H; cbn; [assumption| |]; constructor; assumption.
Qed.

Lemma subseq_drop_middle {A : Type} (l1 l2 : list A) (x : A) :
  subseq (l1 ++ l2) (l1 ++ x :: l2).
Proof.
  apply subseq_app; [apply subseq_refl|]. constructor. apply subseq_refl.
Qed.

Lemma subseq_In {A : Type} (l1 l2 : list A) (x : A) :
  subseq l1 l2 -> In x l1 -> In x l2.
Proof.
  intros H. induction H; cbn; intros Hin; auto.
  destruct Hin; auto.
Qed.

Lemma subseq_NoDup {A : Type} (l1 l2 : list A) :
  subseq l1 l2 -> NoDup l2 -> NoDup l1.
Proof.
  intros H. induction H; intros Hnd; auto.
  - inversion Hnd; auto.
  - inversion Hnd; subst. constructor; auto.
    intros Hin. eapply subseq_In in Hin; eauto.
Qed.

(** [findIndex] returns the place of the first element that satisfies the
    test, and [splice] at that place takes exactly that element out. *)
Lemma findIndex_splits {A : Type} (f : A -> bool) (l : list A) (i : nat) :
  findIndex f l = Some i ->
  exists l1 x l2,
    l = l1 ++ x :: l2 /\ f x = true /\ (forall y, In y l1 -> f y = false)
    /\ splice_out i l = l1 ++ l2.
Proof.
  revert i. induction l as [|a l IH]; cbn; intros i H; [discriminate|].
  destruct (f a) eqn:Fa.
  - injection H as <-. exists [], a, l. repeat split; auto. intros y [].
  - destruct (findIndex f l) as [j|] eqn:E; [|discriminate].
    injection H as <-. destruct (IH j eq_refl) as (l1 & x & l2 & -> & Fx & Hl1 & Hs).
    exists (a :: l1), x, l2. cbn. rewrite Hs. repeat split; auto.
    intros y [<-|Hy]; auto.
Qed.

Lemma findIndex_some_of_In {A : Type} (f : A -> bool) (l : list A) (x : A) :
  In x l -> f x = true -> exists i, findIndex f l = Some i.
Proof.
  induction l as [|a l IH]; cbn; intros Hin Fx; [contradiction|].
  destruct (f a) eqn:Fa; [eexists; reflexivity|].
  destruct Hin as [->|Hin]; [congruence|].
  destruct (IH Hin Fx) as (i & ->). eexists; reflexivity.
Qed.

(** ** What one operation does to the queue, the workers and the promises *)

(** [processQueue] does nothing, or takes the head of the queue and either
    drops it (the first available worker has an empty id) or binds the first
    available worker to it, posting the task when the worker is in the map. *)
Lemma processQueue_cases (p : Pool) :
  let p' := processQueue p in
  settled p' = settled p /\ timers p' = timers p /\ workers p' = workers p
  /\ isShuttingDown p' = isShuttingDown p
  /\ ((taskQueue p' = taskQueue p /\ posted p' = posted p
       /\ available p' = available p /\ busy p' = busy p
       /\ (taskQueue p = [] \/ available p = []))
      \/ exists t rest w others,
          taskQueue p = t :: rest /\ available p = w :: others
          /\ taskQueue p' = rest
          /\ ((w = "" /\ posted p' = posted p /\ available p' = available p
               /\ busy p' = busy p)
              \/ (w <> "" /\ available p' = set_delete w (available p)
                  /\ busy p' = set_add w (busy p)
                  /\ posted p'
                     = if set_has w (workers p)
                       then posted p ++ [(w, qt_task t)] else posted p))).
Proof.
  cbv zeta. unfold processQueue.
  destruct (taskQueue p) as [|t rest] eqn:Hq.
  { repeat split; auto. left. rewrite Hq. repeat split; auto. }
  destruct (available p) as [|w others] eqn:Ha.
  { repeat split; auto. left. rewrite Hq, Ha. repeat split; auto. }
  destruct (String.eqb w "") eqn:Ew.
  { apply String.eqb_eq in Ew. repeat split; auto. right.
    exists t, rest, w, others. repeat split; auto. }
  apply String.eqb_neq in Ew. cbv zeta.
  cbn [workers with_busy with_available with_taskQueue].
  destruct (set_has w (workers p)) eqn:Hw; cbn.
  all: split; [reflexivity|]; split; [reflexivity|]; split; [reflexivity|];
    split; [reflexivity|]; right; exists t, rest, w, others.
  all: split; [reflexivity|]; split; [reflexivity|]; split; [reflexivity|];
    right; rewrite Ha.
  all: split; [assumption|]; split; [reflexivity|]; split; [reflexivity|];
    rewrite Hw; reflexivity.
Qed.

(** What [handleWorkerMessage] does to the queue, the promises and the
    workers: nothing, or the completion of the queued task named by the
    message, followed by one assignment step. *)
Lemma handleWorkerMessage_cases (wid : string) (message : InboundMessage)
    (now : Z) (p : Pool) :
  let p' := handleWorkerMessage wid message now p in
  (posted p' = posted p /\ taskQueue p' = taskQueue p
   /\ settled p' = settled p /\ timers p' = timers p
   /\ available p' = available p /\ busy p' = busy p
   /\ workers p' = workers p)
  \/ exists i q s,
      findIndex (fun t => String.eqb (qt_id t) (message_id message)) (taskQueue p)
      = Some i
      /\ p' = processQueue q
      /\ posted q = posted p
      /\ taskQueue q = splice_out i (taskQueue p)
      /\ settled q = settled p ++ [(message_id message, s)]
      /\ s = (if message_success message
              then Resolved (message_data message)
              else Rejected (WorkerReportedError
                               (error_or_unknown (message_error message))))
      /\ timers q = set_delete (message_id message) (timers p)
      /\ available q = set_add wid (available p)
      /\ busy q = set_delete wid (busy p)
      /\ workers q = workers p.
Proof.
  cbv zeta. unfold handleWorkerMessage. cbv zeta.
  destruct (update_metrics_frame wid (touch now (message_timestamp message)) p)
    as (Hw & Ha & Hb & Hq & _ & Hs & Hp & Ht).
  set (p1 := update_metrics wid (touch now (message_timestamp message)) p) in *.
  destruct (is_type UProgress message); [left; repeat split; assumption|].
  destruct (is_type UMetrics message).
  { left. destruct (message_data message) as [d|];
      [destruct (spread_metrics (map_get wid (metrics p1)) d)|];
      cbn; repeat split; assumption. }
  destruct (findIndex _ (taskQueue p1)) as [i|] eqn:E;
    [|left; repeat split; assumption].
  right. rewrite Hq in E. exists i.
  destruct (message_success message);
    (eexists; eexists; split; [exact E|]; split; [reflexivity|]);
    cbn [settle posted taskQueue settled timers available busy workers
         with_settled];
    rewrite !update_metrics_posted, !update_metrics_taskQueue,
      !update_metrics_settled, !update_metrics_timers,
      !update_metrics_available, !update_metrics_busy, !update_metrics_workers;
    cbn [posted taskQueue settled timers available busy workers with_busy
         with_available with_taskQueue with_timers];
    rewrite ?Hw, ?Ha, ?Hb, ?Hq, ?Hs, ?Hp, ?Ht; repeat split; reflexivity.
Qed.

(** What [execute] does with workers enabled and no shutdown: the timer is
    armed, the task goes to the end of the queue, and one assignment step
    runs. *)
Lemma execute_accepts (ex : TaskExecutor) (type : WorkerMessageType)
    (data : JsData) (priority : Z) (taskId : string) (now : Z) (p : Pool) :
  isShuttingDown p = false ->
  execute ex true type data priority taskId now p
  = (Awaiting taskId,
     processQueue
       (with_taskQueue
          (taskQueue p
           ++ [{| qt_id := taskId;
                  qt_task := {| wm_id := taskId; wm_type := type;
                                wm_data := data; wm_timestamp := now |} |}])
          (with_timers (timers p ++ [taskId]) p))).
Proof.
  intros H. unfold execute. cbn [negb]. rewrite H. cbv zeta.
  cbn [taskQueue with_timers]. rewrite insertIndex_never_found. reflexivity.
Qed.

(** What [execute] does otherwise: the pool is left as it is. *)
Lemma execute_bypasses (ex : TaskExecutor) (useWorkers : bool)
    (type : WorkerMessageType) (data : JsData) (priority : Z)
    (taskId : string) (now : Z) (p : Pool) :
  useWorkers = false \/ isShuttingDown p = true ->
  snd (execute ex useWorkers type data priority taskId now p) = p.
Proof.
  intros [->|H]; unfold execute; [reflexivity|].
  rewrite H. destruct (negb useWorkers); reflexivity.
Qed.

(** What the timeout callback does: nothing to the queue and the promises,
    or the rejection of the queued task it belongs to. *)
Lemma timeoutHandler_cases (taskId : string) (p : Pool) :
  let p' := timeoutHandler taskId p in
  posted p' = posted p /\ available p' = available p /\ busy p' = busy p
  /\ workers p' = workers p
  /\ ((taskQueue p' = taskQueue p /\ settled p' = settled p)
      \/ exists i,
          set_has taskId (timers p) = true
          /\ findIndex (fun t => String.eqb (qt_id t) taskId) (taskQueue p) = Some i
          /\ taskQueue p' = splice_out i (taskQueue p)
          /\ settled p' = settled p ++ [(taskId, Rejected TaskTimeoutError)]).
Proof.
  cbv zeta. unfold timeoutHandler.
  destruct (set_has taskId (timers p)) eqn:Ht; [|repeat split; auto].
  cbv zeta. cbn [taskQueue with_timers].
  destruct (findIndex _ (taskQueue p)) as [i|] eqn:E; cbn; repeat split; auto.
  right. exists i. repeat split; auto.
Qed.

(** ** Tasks, in any run *)

Lemma processQueue_consistent (p : Pool) (l : list string) :
  tasks_consistent p l -> tasks_consistent (processQueue p) l.
Proof.
  intros (Hagree & Hsub & Hnd & Hset).
  destruct (processQueue_cases p) as (Hs & _ & _ & _ & Hcase).
  assert (Hshrink : queue_ids_agree (processQueue p)
                    /\ subseq (dispatched (processQueue p) ++ queued (processQueue p))
                              (dispatched p ++ queued p)).
  { unfold queue_ids_agree, dispatched, queued in *.
    destruct Hcase as [(Hq & Hp & _)|(t & rest & w & others & Hq & _ & Hq' & Hw)].
    - rewrite Hq, Hp. split; [assumption|apply subseq_refl].
    - rewrite Hq', Hq in *. inversion Hagree as [|? ? Ht Hrest]; subst.
      split; [assumption|].
      destruct Hw as [(_ & -> & _)|(_ & _ & _ & ->)].
      + cbn. apply subseq_drop_middle.
      + destruct (set_has w (workers p)).
        * rewrite map_app, <- app_assoc. cbn. rewrite Ht. apply subseq_refl.
        * cbn. apply subseq_drop_middle. }
  destruct Hshrink as (Hagree' & Hsub').
  unfold tasks_consistent, settled_ids. rewrite Hs.
  split; [assumption|]. split; [eapply subseq_trans; eassumption|].
  split; [assumption|]. intros id Hin. destruct (Hset id Hin) as (Hl & Hn).
  split; [assumption|]. intros Hin'. apply Hn. eapply subseq_In; eassumption.
Qed.

(** Taking the queue entry found under [id] out and settling its promise
    keeps the bookkeeping consistent. *)
Lemma settle_queued_consistent (p q : Pool) (l : list string) (id : string)
    (i : nat) (s : Settlement) :
  NoDup l -> tasks_consistent p l ->
  findIndex (fun t => String.eqb (qt_id t) id) (taskQueue p) = Some i ->
  posted q = posted p -> taskQueue q = splice_out i (taskQueue p) ->
  settled q = settled p ++ [(id, s)] ->
  tasks_consistent q l.
Proof.
  intros Hl (Hagree & Hsub & Hnd & Hset) E Hp Hq Hs.
  destruct (findIndex_splits _ _ _ E) as (l1 & x & l2 & Hsplit & Hx & _ & Hout).
  apply String.eqb_eq in Hx.
  assert (Hall : NoDup (dispatched p ++ queued p))
    by (eapply subseq_NoDup; eassumption).
  unfold tasks_consistent, queue_ids_agree, dispatched, queued, settled_ids in *.
  rewrite Hp, Hq, Hs, Hout. rewrite Hsplit in *.
  rewrite map_app in *. cbn [map] in *. rewrite Hx in *.
  rewrite app_assoc in Hall. pose proof (NoDup_remove_2 _ _ _ Hall) as Hfresh.
  rewrite <- app_assoc in Hfresh.
  split.
  { apply Forall_app in Hagree as (H1 & H2). inversion H2; subst.
    apply Forall_app. split; assumption. }
  split.
  { eapply subseq_trans; [|exact Hsub].
    apply subseq_app; [apply subseq_refl|]. apply subseq_drop_middle. }
  assert (Hid : In id (map (fun wm : string * WorkerMessage => wm_id (snd wm)) (posted p)
                       ++ map qt_id l1 ++ id :: map qt_id l2)).
  { apply in_or_app. right. apply in_or_app. right. left. reflexivity. }
  split.
  { cbn [fst]. rewrite map_app. cbn. apply NoDup_app_cons_last.
    - assumption.
    - intros Hin. apply (Hset id Hin). assumption. }
  intros id' Hin. rewrite map_app in Hin. cbn in Hin.
  apply in_app_or in Hin as [Hin|[<-|[]]].
  - destruct (Hset id' Hin) as (Hl' & Hn). split; [assumption|].
    intros Hin'. apply Hn.
    apply in_app_or in Hin' as [Hin'|Hin']; apply in_or_app; [left; assumption|].
    right. apply in_app_or in Hin' as [Hin'|Hin']; apply in_or_app;
      [left|right; right]; assumption.
  - split; [|assumption]. eapply subseq_In; eassumption.
Qed.

Lemma frame_consistent (p q : Pool) (l : list string) :
  posted q = posted p -> taskQueue q = taskQueue p -> settled q = settled p ->
  tasks_consistent p l -> tasks_consistent q l.
Proof.
  unfold tasks_consistent, queue_ids_agree, dispatched, queued, settled_ids.
  intros -> -> ->. auto.
Qed.

Lemma grow_consistent (p : Pool) (l extra : list string) :
  tasks_consistent p l -> tasks_consistent p (l ++ extra).
Proof.
  intros (Hagree & Hsub & Hnd & Hset). repeat split; try assumption.
  - rewrite <- (app_nil_r (dispatched p ++ queued p)).
    apply subseq_app; [assumption|].
    clear. induction extra; constructor; assumption.
  - apply in_or_app. left. apply (Hset id H).
  - apply (Hset id H).
Qed.

(** One event keeps the bookkeeping consistent, provided the id it submits,
    if any, is new. *)
Lemma step_consistent (ex : TaskExecutor) (e : Event) (p : Pool)
    (l : list string) :
  NoDup (l ++ submitted [e]) -> tasks_consistent p l ->
  tasks_consistent (step ex p e) (l ++ submitted [e]).
Proof.
  intros Hl H.
  assert (Hl0 : NoDup l) by (eapply NoDup_app_remove_r; eassumption).
  destruct e as [u type data priority taskId now | wid message now | taskId
                | wid newId now | wid newId now];
    cbn [step submitted flat_map] in *; rewrite ?app_nil_r in *.
  - destruct u; [destruct (isShuttingDown p) eqn:Hd|].
    2: { rewrite execute_accepts by assumption. cbn [snd].
         apply processQueue_consistent.
         destruct H as (Hagree & Hsub & Hnd & Hset).
         assert (Hfresh : ~ In taskId l).
         { intros Hin. apply NoDup_remove_2 in Hl. apply Hl.
           rewrite app_nil_r. assumption. }
         unfold tasks_consistent, queue_ids_agree, dispatched, queued,
           settled_ids in *.
         cbn [taskQueue posted settled with_taskQueue with_timers].
         rewrite map_app. cbn [map qt_id].
         split; [apply Forall_app; split; [assumption|repeat constructor]|].
         split; [rewrite app_assoc; apply subseq_app;
                 [assumption|apply subseq_refl]|].
         split; [assumption|].
         intros id Hin. destruct (Hset id Hin) as (Hin' & Hn).
         split; [apply in_or_app; left; assumption|].
         rewrite app_assoc. intros Hin''.
         apply in_app_or in Hin'' as [Hin''|[<-|[]]]; contradiction. }
    all: rewrite execute_bypasses by auto; apply grow_consistent; assumption.
  - destruct (handleWorkerMessage_cases wid message now p)
      as [(Hp & Hq & Hs & _)|(i & q & s & E & -> & Hp & Hq & Hs & _)].
    + eapply frame_consistent; eassumption.
    + apply processQueue_consistent.
      eapply settle_queued_consistent; eassumption.
  - destruct (timeoutHandler_cases taskId p)
      as (Hp & _ & _ & _ & [(Hq & Hs)|(i & _ & E & Hq & Hs)]).
    + eapply frame_consistent; eassumption.
    + eapply settle_queued_consistent; eassumption.
  - destruct (handleWorkerError_frame wid newId now p) as (Hs & _ & Hq).
    eapply frame_consistent; try eassumption.
    apply handleWorkerError_posted.
  - destruct (replaceWorker_frame wid newId now p) as (Hs & _ & Hq).
    eapply frame_consistent; try eassumption.
    apply replaceWorker_posted.
Qed.

Lemma submitted_app (es1 es2 : list Event) :
  submitted (es1 ++ es2) = submitted es1 ++ submitted es2.
Proof. unfold submitted. apply flat_map_app. Qed.

Lemma run_consistent (ex : TaskExecutor) (es : list Event) (p : Pool)
    (l : list string) :
  NoDup (l ++ submitted es) -> tasks_consistent p l ->
  tasks_consistent (run ex es p) (l ++ submitted es).
Proof.
  revert p l. induction es as [|e es IH]; intros p l Hl H; cbn [run fold_left].
  - cbn. rewrite app_nil_r. assumption.
  - change (e :: es) with ([e] ++ es) in *. rewrite submitted_app in *.
    rewrite app_assoc in *. apply IH; [assumption|].
    apply step_consistent; [|assumption].
    eapply NoDup_app_remove_r. eassumption.
Qed.

Lemma new_pool_consistent (useWorkers : bool) (cfg : WorkerPoolConfig)
    (ids : nat -> string) (now : Z) :
  tasks_consistent (new_pool useWorkers cfg ids now) [].
Proof.
  destruct (new_pool_clean useWorkers cfg ids now) as (Hs & _ & Hq).
  pose proof (new_pool_posted useWorkers cfg ids now) as Hp.
  unfold tasks_consistent, queue_ids_agree, dispatched, queued, settled_ids.
  rewrite Hs, Hq, Hp. cbn. repeat split; try constructor; contradiction.
Qed.

(** The order part alone needs no assumption on the ids. *)
Lemma processQueue_order (p : Pool) :
  queue_ids_agree p ->
  queue_ids_agree (processQueue p)
  /\ subseq (dispatched (processQueue p) ++ queued (processQueue p))
            (dispatched p ++ queued p).
Proof.
  intros Hagree. destruct (processQueue_cases p) as (_ & _ & _ & _ & Hcase).
  unfold queue_ids_agree, dispatched, queued in *.
  destruct Hcase as [(Hq & Hp & _)|(t & rest & w & others & Hq & _ & Hq' & Hw)].
  - rewrite Hq, Hp. split; [assumption|apply subseq_refl].
  - rewrite Hq', Hq in *. inversion Hagree as [|? ? Ht Hrest]; subst.
    split; [assumption|].
    destruct Hw as [(_ & -> & _)|(_ & _ & _ & ->)].
    + cbn. apply subseq_drop_middle.
    + destruct (set_has w (workers p)).
      * rewrite map_app, <- app_assoc. cbn. rewrite Ht. apply subseq_refl.
      * cbn. apply subseq_drop_middle.
Qed.

Lemma splice_out_order (p q : Pool) (i : nat) :
  queue_ids_agree p ->
  posted q = posted p -> taskQueue q = splice_out i (taskQueue p) ->
  queue_ids_agree q
  /\ subseq (dispatched q ++ queued q) (dispatched p ++ queued p).
Proof.
  unfold queue_ids_agree, dispatched, queued. intros Hagree -> ->.
  assert (G : forall (l : list QueuedTask) n,
             Forall (fun t => wm_id (qt_task t) = qt_id t) l ->
             Forall (fun t => wm_id (qt_task t) = qt_id t) (splice_out n l)
             /\ subseq (map qt_id (splice_out n l)) (map qt_id l)).
  { induction l as [|a l IH]; intros n Hl; cbn.
    - destruct n; split; constructor.
    - inversion Hl as [|? ? Ha Hrest]; subst. destruct n; cbn.
      + split; [assumption|]. constructor. apply subseq_refl.
      + destruct (IH n Hrest) as (K1 & K2).
        split; constructor; assumption. }
  destruct (G (taskQueue p) i Hagree) as (H1 & H2).
  split; [assumption|]. apply subseq_app; [apply subseq_refl|assumption].
Qed.

Lemma step_order (ex : TaskExecutor) (e : Event) (p : Pool) (l : list string) :
  queue_ids_agree p -> subseq (dispatched p ++ queued p) l ->
  queue_ids_agree (step ex p e)
  /\ subseq (dispatched (step ex p e) ++ queued (step ex p e))
            (l ++ submitted [e]).
Proof.
  intros Hagree Hsub.
  assert (Hgrow : forall extra, subseq (dispatched p ++ queued p) (l ++ extra)).
  { intros extra. rewrite <- (app_nil_r (dispatched p ++ queued p)).
    apply subseq_app; [assumption|].
    induction extra; constructor; assumption. }
  assert (Hframe : forall q,
             posted q = posted p -> taskQueue q = taskQueue p ->
             queue_ids_agree q
             /\ subseq (dispatched q ++ queued q) (l ++ submitted [e])).
  { unfold queue_ids_agree, dispatched, queued in *. intros q -> ->.
    split; [assumption|apply Hgrow]. }
  destruct e as [u type data priority taskId now | wid message now | taskId
                | wid newId now | wid newId now];
    cbn [step].
  - destruct u; [destruct (isShuttingDown p) eqn:Hd|].
    2: { rewrite execute_accepts by assumption. cbn [snd submitted flat_map app].
         match goal with
         | |- context [processQueue ?q] =>
             destruct (processQueue_order q) as (K1 & K2)
         end.
         { unfold queue_ids_agree in *. cbn. apply Forall_app.
           split; [assumption|repeat constructor]. }
         split; [assumption|]. eapply subseq_trans; [exact K2|].
         unfold dispatched, queued in *. cbn. rewrite map_app, app_assoc. cbn.
         apply subseq_app; [assumption|apply subseq_refl]. }
    all: rewrite execute_bypasses by auto; apply Hframe; reflexivity.
  - destruct (handleWorkerMessage_cases wid message now p)
      as [(Hp & Hq & _)|(i & q & s & _ & -> & Hp & Hq & _)].
    + apply Hframe; assumption.
    + destruct (splice_out_order p q i Hagree Hp Hq) as (H1 & H2).
      destruct (processQueue_order q H1) as (H3 & H4).
      split; [assumption|]. cbn [submitted flat_map]. rewrite app_nil_r.
      eapply subseq_trans; [exact H4|]. eapply subseq_trans; eassumption.
  - destruct (timeoutHandler_cases taskId p)
      as (Hp & _ & _ & _ & [(Hq & _)|(i & _ & _ & Hq & _)]).
    + apply Hframe; assumption.
    + destruct (splice_out_order p _ i Hagree Hp Hq) as (H1 & H2).
      split; [assumption|]. cbn [submitted flat_map]. rewrite app_nil_r.
      eapply subseq_trans; eassumption.
  - apply Hframe; [apply handleWorkerError_posted|apply handleWorkerError_frame].
  - apply Hframe; [apply replaceWorker_posted|apply replaceWorker_frame].
Qed.

Lemma run_order (ex : TaskExecutor) (es : list Event) (p : Pool)
    (l : list string) :
  queue_ids_agree p -> subseq (dispatched p ++ queued p) l ->
  subseq (dispatched (run ex es p) ++ queued (run ex es p)) (l ++ submitted es).
Proof.
  revert p l. induction es as [|e es IH]; intros p l Hagree Hsub;
    cbn [run fold_left].
  - cbn. rewrite app_nil_r. assumption.
  - change (e :: es) with ([e] ++ es). rewrite submitted_app, app_assoc.
    destruct (step_order ex e p l Hagree Hsub) as (H1 & H2).
    apply IH; assumption.
Qed.

Lemma map_get_absent {V : Type} (k : string) (m : list (string * V)) :
  ~ In k (map fst m) -> map_get k m = None.
Proof.
  induction m as [|[k' v] m IH]; cbn; intros H; [reflexivity|].
  destruct (String.eqb k k') eqn:E.
  - apply String.eqb_eq in E. subst. exfalso. apply H. left. reflexivity.
  - apply IH. intros Hin. apply H. right. assumption.
Qed.

(** X1.  In every run of a new pool, the tasks handed to workers, followed
    by the tasks still waiting, appear in the order of their submission:
    tasks leave the queue first come, first served, whatever their
    priority. *)
Theorem dispatch_follows_submission_order (ex : TaskExecutor)
    (useWorkers : bool) (cfg : WorkerPoolConfig) (ids : nat -> string)
    (now : Z) (es : list Event) :
  subseq (dispatched (run ex es (new_pool useWorkers cfg ids now))
          ++ queued (run ex es (new_pool useWorkers cfg ids now)))
         (submitted es).
Proof.
  destruct (new_pool_consistent useWorkers cfg ids now) as (Hagree & Hsub & _).
  apply (run_order ex es _ [] Hagree Hsub).
Qed.

(** X2.  In every run of a new pool in which the submitted tasks have
    distinct ids, no promise is settled twice: a task is resolved or rejected
    at most once. *)
Theorem no_promise_is_settled_twice (ex : TaskExecutor) (useWorkers : bool)
    (cfg : WorkerPoolConfig) (ids : nat -> string) (now : Z) (es : list Event)
    (Hdistinct : NoDup (submitted es)) :
  NoDup (settled_ids (run ex es (new_pool useWorkers cfg ids now))).
Proof.
  apply (run_consistent ex es _ [] Hdistinct
           (new_pool_consistent useWorkers cfg ids now)).
Qed.

Lemma no_promise_is_settled_twice_witness :
  NoDup (settled_ids
           (run sound_executor
              [OnExecute true TRAIN (DOpaque "d1") 0 "t1" 1001;
               OnExecute true EVALUATE (DOpaque "d2") 0 "t2" 1002;
               OnTimeout "t2"; OnTimeout "t2";
               OnMessage "a" t1_succeeded 2001]
              (new_pool true single_worker_config letter_id 1000))).
Proof.
  apply no_promise_is_settled_twice.
  vm_compute. repeat (constructor; [cbn; intuition discriminate|]). constructor.
Defined.

(** X3.  In every run of a new pool in which the submitted tasks have
    distinct ids, a task that has been handed to a worker or is still waiting
    has a pending promise: the pool never settles a task it has dispatched,
    and settles a waiting task only by taking it out of the queue. *)
Theorem dispatched_task_stays_pending (ex : TaskExecutor) (useWorkers : bool)
    (cfg : WorkerPoolConfig) (ids : nat -> string) (now : Z) (es : list Event)
    (Hdistinct : NoDup (submitted es)) :
  let p := run ex es (new_pool useWorkers cfg ids now) in
  forall id, In id (dispatched p ++ queued p) -> promise_state p id = None.
Proof.
  cbv zeta. intros id Hin.
  destruct (run_consistent ex es _ [] Hdistinct
              (new_pool_consistent useWorkers cfg ids now))
    as (_ & _ & _ & Hset).
  apply map_get_absent. intros Hs. apply (Hset id Hs). assumption.
Qed.

Lemma dispatched_task_stays_pending_witness :
  promise_state
    (run sound_executor
       [OnExecute true TRAIN (DOpaque "d1") 0 "t1" 1001;
        OnExecute true EVALUATE (DOpaque "d2") 0 "t2" 1002;
        OnMessage "a" t1_succeeded 2001; OnTimeout "t1"]
       (new_pool true single_worker_config letter_id 1000)) "t1" = None.
Proof.
  apply (dispatched_task_stays_pending sound_executor true single_worker_config
           letter_id 1000
           [OnExecute true TRAIN (DOpaque "d1") 0 "t1" 1001;
            OnExecute true EVALUATE (DOpaque "d2") 0 "t2" 1002;
            OnMessage "a" t1_succeeded 2001; OnTimeout "t1"]).
  - vm_compute. repeat (constructor; [cbn; intuition discriminate|]). constructor.
  - vm_compute. left. reflexivity.
Defined.

(** ** Throughput in the runs of the pool *)















(** ** A waiting task whose timer fires *)

Lemma map_get_app_last {V : Type} (k : string) (v : V) (m : list (string * V)) :
  map_get k m = None -> map_get k (m ++ [(k, v)]) = Some v.
Proof.
  induction m as [|[k' v'] m IH]; cbn; intros H.
  - now rewrite String.eqb_refl.
  - destruct (String.eqb k k'); [discriminate|auto].
Qed.

Lemma set_has_delete_same (x : string) (s : list string) :
  set_has x (set_delete x s) = false.
Proof.
  unfold set_has, set_delete. induction s as [|y s IH]; cbn; [reflexivity|].
  destruct (String.eqb x y) eqn:E; cbn; [assumption|]. now rewrite E.
Qed.

(** X4.  A task that is still waiting when its timer fires is rejected with
    "Task timeout" and leaves the queue; the other waiting tasks keep their
    order, no worker is touched and nothing is sent to any worker; the timer
    is spent, a second firing does nothing. *)
Theorem waiting_task_times_out (id : string) (p : Pool)
    (Harmed : set_has id (timers p) = true)
    (Hunique : NoDup (queued p))
    (Hwaiting : In id (queued p))
    (Hpending : promise_state p id = None) :
  let p' := timeoutHandler id p in
  promise_state p' id = Some (Rejected TaskTimeoutError)
  /\ ~ In id (queued p')
  /\ subseq (queued p') (queued p)
  /\ S (queuedTasks (getStatus p')) = queuedTasks (getStatus p)
  /\ posted p' = posted p /\ available p' = available p /\ busy p' = busy p
  /\ timeoutHandler id p' = p'.
Proof.
  cbv zeta.
  assert (Hfound : exists i, findIndex (fun t => String.eqb (qt_id t) id)
                                       (taskQueue p) = Some i).
  { unfold queued in Hwaiting. apply in_map_iff in Hwaiting as (t & Ht & Hin).
    apply (findIndex_some_of_In _ _ t Hin). subst. apply String.eqb_refl. }
  destruct Hfound as (i & E).
  destruct (findIndex_splits _ _ _ E) as (l1 & x & l2 & Hsplit & Hx & _ & Hout).
  apply String.eqb_eq in Hx.
  assert (Hp' : timeoutHandler id p
                = settle id (Rejected TaskTimeoutError)
                    (with_taskQueue (l1 ++ l2)
                       (with_timers (set_delete id (timers p)) p))).
  { unfold timeoutHandler. rewrite Harmed. cbv zeta.
    cbn [taskQueue with_timers]. rewrite E, Hout. reflexivity. }
  rewrite Hp'. unfold queued, promise_state in *. cbn.
  rewrite Hsplit, map_app in *. cbn [map] in *. rewrite Hx in *.
  repeat split.
  - apply map_get_app_last. assumption.
  - rewrite ?map_app. apply NoDup_remove_2 in Hunique. assumption.
  - rewrite ?map_app. apply subseq_drop_middle.
  - rewrite ?length_app. cbn. lia.
  - unfold timeoutHandler. cbn [timers settle with_settled with_taskQueue with_timers].
    now rewrite set_has_delete_same.
Qed.

Lemma waiting_task_times_out_witness :
  promise_state (timeoutHandler "t2" one_running_one_queued) "t2"
  = Some (Rejected TaskTimeoutError)
  /\ queued (timeoutHandler "t2" one_running_one_queued) = [].
Proof.
  destruct (waiting_task_times_out "t2" one_running_one_queued)
    as (Hrejected & _); try (vm_compute; reflexivity).
  - vm_compute. repeat (constructor; [cbn; intuition discriminate|]). constructor.
  - vm_compute. left. reflexivity.
  - split; [exact Hrejected|reflexivity].
Defined.

(** ** Replacing workers *)

Lemma set_has_In (x : string) (s : list string) :
  set_has x s = true <-> In x s.
Proof.
  unfold set_has. rewrite existsb_exists. split.
  - intros (y & Hy & E). apply String.eqb_eq in E. now subst.
  - intros H. exists x. split; [assumption|apply String.eqb_refl].
Qed.

Lemma set_delete_absent (x : string) (s : list string) :
  ~ In x s -> set_delete x s = s.
Proof.
  unfold set_delete. induction s as [|y s IH]; cbn; intros H; [reflexivity|].
  destruct (String.eqb x y) eqn:E.
  - apply String.eqb_eq in E. subst. exfalso. apply H. now left.
  - cbn. f_equal. apply IH. intros Hin. apply H. now right.
Qed.

Lemma set_delete_length (x : string) (s : list string) :
  NoDup s -> In x s -> S (List.length (set_delete x s)) = List.length s.
Proof.
  unfold set_delete. induction s as [|y s IH]; cbn; intros Hnd Hin; [contradiction|].
  inversion Hnd as [|? ? Hy Hs]; subst.
  destruct (String.eqb x y) eqn:E; cbn.
  - apply String.eqb_eq in E. subst. f_equal.
    change (filter (fun y0 => negb (y =? y0)%string) s) with (set_delete y s).
    now rewrite set_delete_absent.
  - f_equal. apply IH; [assumption|]. destruct Hin as [->|Hin]; [|assumption].
    rewrite String.eqb_refl in E. discriminate.
Qed.

Lemma set_delete_In (x y : string) (s : list string) :
  In y (set_delete x s) <-> In y s /\ y <> x.
Proof.
  unfold set_delete. rewrite filter_In, negb_true_iff, String.eqb_neq.
  split; intros (H1 & H2); split; auto.
Qed.

Lemma set_add_In (x y : string) (s : list string) :
  In y (set_add x s) <-> In y s \/ y = x.
Proof.
  unfold set_add. destruct (existsb (String.eqb x) s) eqn:E.
  - change (existsb (String.eqb x) s) with (set_has x s) in E.
    apply set_has_In in E. split; [auto|]. intros [H| ->]; assumption.
  - rewrite in_app_iff. cbn. intuition.
Qed.


(** What [replaceWorker] does to each part of the pool. *)
Lemma replaceWorker_spec (wid newId : string) (now : Z) (p : Pool)
    (Hunique : NoDup (workers p))
    (Hnew : ~ In newId (workers p)) :
  let p' := replaceWorker wid newId now p in
  totalWorkers (getStatus p')
  = (if set_has wid (workers p)
     then totalWorkers (getStatus p)
     else S (totalWorkers (getStatus p)))
  /\ (forall w, In w (workers p')
                <-> (In w (workers p) /\ w <> wid) \/ w = newId)
  /\ In newId (available p')
  /\ metrics_of p' newId = Some (fresh_metrics newId now)
  /\ taskQueue p' = taskQueue p /\ settled p' = settled p
  /\ posted p' = posted p /\ busy p' = busy p.
Proof.
  cbv zeta. unfold replaceWorker, getStatus, metrics_of. cbn [totalWorkers].
  destruct (set_has wid (workers p)) eqn:Hw.
  - apply set_has_In in Hw.
    cbn [createWorker workers available metrics taskQueue settled posted busy
         with_available with_workers with_metrics with_terminated].
    rewrite set_add_fresh by (rewrite set_delete_In; tauto).
    rewrite length_app, map_get_set_same. cbn [List.length].
    rewrite <- (set_delete_length wid (workers p)) by assumption.
    split; [lia|]. split.
    { intros w. rewrite in_app_iff, set_delete_In. cbn. intuition congruence. }
    split; [apply set_add_In; now right|]. repeat split.
  - assert (Hw' : ~ In wid (workers p)).
    { intros H. apply set_has_In in H. congruence. }
    cbn [createWorker workers available metrics taskQueue settled posted busy
         with_available with_workers with_metrics].
    rewrite set_add_fresh by assumption.
    rewrite length_app, map_get_set_same. cbn [List.length].
    split; [lia|]. split.
    { intros w. rewrite in_app_iff. cbn. intuition congruence. }
    split; [apply set_add_In; now right|]. repeat split.
Qed.

(** X5.  Replacing a worker that is in the map keeps the size of the pool;
    "replacing" one that is not (its exit event arrives after it was already
    replaced) adds a worker.  Either way the new worker is available, with a
    clean record, and nothing happens to the queue or to any promise: the
    task the old worker was running is not settled and not queued again. *)
Theorem replaceWorker_effect (wid newId : string) (now : Z) (p : Pool)
    (Hunique : NoDup (workers p))
    (Hnew : ~ In newId (workers p)) :
  let p' := replaceWorker wid newId now p in
  totalWorkers (getStatus p')
  = (if set_has wid (workers p)
     then totalWorkers (getStatus p)
     else S (totalWorkers (getStatus p)))
  /\ (forall w, In w (workers p')
                <-> (In w (workers p) /\ w <> wid) \/ w = newId)
  /\ In newId (available p')
  /\ metrics_of p' newId = Some (fresh_metrics newId now)
  /\ taskQueue p' = taskQueue p /\ settled p' = settled p
  /\ posted p' = posted p /\ busy p' = busy p.
Proof.
  exact (replaceWorker_spec wid newId now p Hunique Hnew).
Qed.

Lemma replaceWorker_effect_witness :
  totalWorkers (getStatus (replaceWorker "a" "b" 1500 one_running_one_queued))
  = 1%nat
  /\ busy (replaceWorker "a" "b" 1500 one_running_one_queued) = ["a"].
Proof.
  destruct (replaceWorker_effect "a" "b" 1500 one_running_one_queued)
    as (Hsize & _ & _ & _ & _ & _ & _ & Hbusy).
  - vm_compute. repeat (constructor; [cbn; intuition discriminate|]). constructor.
  - vm_compute. intuition discriminate.
  - split; [exact Hsize|exact Hbusy].
Defined.

(** X6.  A crash is reported twice, by the worker's ['error'] event and then by
    its ['exit'] event, and each report creates a worker: after both, the
    pool holds one worker more than before. *)
Theorem crash_then_exit_grows_pool (wid first second : string)
    (now now' : Z) (p : Pool)
    (Hunique : NoDup (workers p))
    (Hknown : In wid (workers p))
    (Hfirst : ~ In first (workers p))
    (Hsecond : ~ In second (workers p))
    (Hdistinct : first <> second) :
  let p' := replaceWorker wid second now' (handleWorkerError wid first now p) in
  totalWorkers (getStatus p') = S (totalWorkers (getStatus p))
  /\ In first (available p') /\ In second (available p')
  /\ taskQueue p' = taskQueue p /\ settled p' = settled p.
Proof.
  cbv zeta. unfold handleWorkerError. cbv zeta.
  set (q := with_busy _ _).
  assert (Hq : workers q = workers p)
    by (unfold q; cbn; apply update_metrics_workers).
  destruct (replaceWorker_spec wid first now q) as (H1 & H2 & H3 & _ & H4 & H5 & _);
    [rewrite Hq; assumption..|].
  set (q' := replaceWorker wid first now q) in *.
  assert (Hgone : set_has wid (workers q') = false).
  { apply not_true_is_false. rewrite set_has_In, H2, Hq.
    intros [(_ & H)|H]; [congruence|]. subst. contradiction. }
  assert (Hnd : NoDup (workers q')).
  { unfold q', replaceWorker. rewrite Hq.
    apply set_has_In in Hknown. rewrite Hknown.
    cbn [createWorker workers with_available with_workers with_metrics
         with_terminated].
    rewrite Hq, set_add_fresh by (rewrite set_delete_In; tauto).
    apply NoDup_app_cons_last; [|rewrite set_delete_In; tauto].
    unfold set_delete. apply NoDup_filter. assumption. }
  destruct (replaceWorker_spec wid second now' q') as (K1 & _ & K3 & _ & K4 & K5 & _).
  { assumption. }
  { rewrite H2, Hq. intros [(H & _)|H]; [contradiction|congruence]. }
  rewrite Hgone in K1. rewrite K1, H1, K4, K5, H4, H5.
  apply set_has_In in Hknown. rewrite Hq, Hknown.
  split; [unfold getStatus; cbn [totalWorkers]; now rewrite Hq|].
  split.
  { unfold replaceWorker. rewrite Hgone.
    cbn [createWorker available with_available with_workers with_metrics].
    apply set_add_In. left. assumption. }
  split; [assumption|].
  unfold q. cbn. rewrite update_metrics_taskQueue, update_metrics_settled.
  split; reflexivity.
Qed.

Lemma crash_then_exit_grows_pool_witness :
  totalWorkers (getStatus
                  (replaceWorker "a" "c" 1501
                     (handleWorkerError "a" "b" 1500 one_running_one_queued)))
  = 2%nat.
Proof.
  destruct (crash_then_exit_grows_pool "a" "b" "c" 1500 1501
              one_running_one_queued) as (Hsize & _).
  - vm_compute. repeat (constructor; [cbn; intuition discriminate|]). constructor.
  - vm_compute. now left.
  - vm_compute. intuition discriminate.
  - vm_compute. intuition discriminate.
  - discriminate.
  - exact Hsize.
Defined.

(** ** Health of a new worker *)




(** ** A burst of submissions *)

(** The message [execute] builds for a submission. *)
Lemma execute_dispatches (ex : TaskExecutor) (s : Submission) (p : Pool)
    (w : string) (others : list string) :
  isShuttingDown p = false -> taskQueue p = [] -> available p = w :: others ->
  w <> "" -> In w (workers p) -> ~ In w others -> ~ In w (busy p) ->
  let p' := step ex p (submit s) in
  taskQueue p' = [] /\ available p' = others /\ busy p' = busy p ++ [w]
  /\ posted p'
     = posted p ++ [(w, {| wm_id := sub_id s; wm_type := sub_type s;
                           wm_data := sub_data s; wm_timestamp := sub_time s |})]
  /\ workers p' = workers p /\ isShuttingDown p' = false
  /\ settled p' = settled p.
Proof.
  intros Hd Hq Ha Hw Hin Hothers Hbusy. cbv zeta. unfold submit. cbn [step].
  rewrite execute_accepts by assumption. cbn [snd]. rewrite Hq. cbn [app].
  unfold processQueue.
  cbn [taskQueue available with_taskQueue with_timers]. rewrite Ha.
  apply String.eqb_neq in Hw. rewrite Hw. cbv zeta.
  cbn [workers available busy with_busy with_available with_taskQueue with_timers].
  apply set_has_In in Hin. rewrite Hin.
  cbn. unfold set_delete. cbn [filter]. rewrite String.eqb_refl. cbn [negb].
  change (filter (fun y => negb (w =? y)%string) others) with (set_delete w others).
  rewrite set_delete_absent by assumption.
  rewrite set_add_fresh by assumption. repeat split; assumption.
Qed.

Lemma processQueue_no_worker (p : Pool) :
  available p = [] -> processQueue p = p.
Proof.
  intros H. unfold processQueue. rewrite H. destruct (taskQueue p); reflexivity.
Qed.

Lemma execute_queues (ex : TaskExecutor) (s : Submission) (p : Pool) :
  isShuttingDown p = false -> available p = [] ->
  let p' := step ex p (submit s) in
  taskQueue p'
  = taskQueue p
    ++ [{| qt_id := sub_id s;
           qt_task := {| wm_id := sub_id s; wm_type := sub_type s;
                         wm_data := sub_data s; wm_timestamp := sub_time s |} |}]
  /\ available p' = [] /\ busy p' = busy p /\ posted p' = posted p
  /\ workers p' = workers p /\ isShuttingDown p' = false
  /\ settled p' = settled p.
Proof.
  intros Hd Ha. cbv zeta. unfold submit. cbn [step].
  rewrite execute_accepts by assumption. cbn [snd].
  rewrite processQueue_no_worker by assumption.
  cbn. repeat split; assumption.
Qed.

(** Once no worker is available, submissions only lengthen the queue. *)
Lemma burst_when_saturated (ex : TaskExecutor) (subs : list Submission)
    (p : Pool) :
  isShuttingDown p = false -> available p = [] ->
  let p' := run ex (map submit subs) p in
  queued p' = queued p ++ map sub_id subs
  /\ available p' = [] /\ busy p' = busy p /\ posted p' = posted p
  /\ settled p' = settled p.
Proof.
  revert p. induction subs as [|s subs IH]; intros p Hd Ha; cbv zeta.
  - cbn. rewrite app_nil_r. repeat split; assumption.
  - cbn [map run fold_left].
    destruct (execute_queues ex s p Hd Ha) as (Hq & Ha' & Hb & Hp & _ & Hd' & Hs).
    destruct (IH _ Hd' Ha') as (K1 & K2 & K3 & K4 & K5).
    unfold run in *. rewrite K1, K2, K3, K4, K5, Hb, Hp, Hs.
    unfold queued. rewrite Hq, map_app, <- app_assoc. repeat split.
Qed.

(** While workers are available and nothing waits, each submission takes
    the first available worker. *)
Lemma burst_from_idle (ex : TaskExecutor) (subs : list Submission) (p : Pool)
    (free : list string) :
  isShuttingDown p = false -> taskQueue p = [] -> available p = free ->
  NoDup (busy p ++ free) -> Forall (fun w => w <> "") free ->
  (forall w, In w free -> In w (workers p)) ->
  let p' := run ex (map submit subs) p in
  dispatched p' = dispatched p ++ firstn (List.length free) (map sub_id subs)
  /\ queued p' = skipn (List.length free) (map sub_id subs)
  /\ busy p' = busy p ++ firstn (List.length subs) free
  /\ available p' = skipn (List.length subs) free
  /\ map fst (posted p')
     = map fst (posted p) ++ firstn (List.length subs) free
  /\ settled p' = settled p.
Proof.
  revert p free. induction subs as [|s subs IH];
    intros p free Hd Hq Ha Hnd Hnamed Hknown; cbv zeta.
  - cbn [map run fold_left List.length firstn skipn]. unfold queued.
    rewrite Hq, Ha. cbn. rewrite firstn_nil, skipn_nil, !app_nil_r.
    repeat split.
  - destruct free as [|w free].
    + destruct (burst_when_saturated ex (s :: subs) p Hd Ha)
        as (K1 & K2 & K3 & K4 & K5).
      unfold dispatched. rewrite K1, K2, K3, K4, K5.
      unfold queued. rewrite Hq. cbn. rewrite !app_nil_r. repeat split.
    + cbn [map run fold_left].
      inversion Hnamed as [|? ? Hw Hnamed']; subst.
      assert (Hw1 : ~ In w free).
      { apply NoDup_app_remove_l in Hnd. now inversion Hnd. }
      assert (Hw2 : ~ In w (busy p)).
      { intros Hin. apply NoDup_remove_2 in Hnd. apply Hnd.
        apply in_or_app. now left. }
      destruct (execute_dispatches ex s p w free Hd Hq Ha Hw
                  (Hknown w (or_introl eq_refl)) Hw1 Hw2)
        as (Hq' & Ha' & Hb' & Hp' & Hwk & Hd' & Hs').
      destruct (IH (step ex p (submit s)) free Hd' Hq' Ha') as (K1 & K2 & K3 & K4 & K5 & K6).
      { rewrite Hb', <- app_assoc. exact Hnd. }
      { assumption. }
      { intros v Hv. rewrite Hwk. apply Hknown. now right. }
      unfold run in *. rewrite K1, K2, K3, K4, K5, K6, Hs', Hb'.
      unfold dispatched. rewrite Hp', !map_app, <- !app_assoc. cbn.
      repeat split.
Qed.

Lemma initializePool_from_available (rounds i : nat) (ids : nat -> string)
    (now : Z) (p : Pool) :
  NoDup (map ids (seq 0 (i + rounds))) ->
  available p = map ids (seq 0 i) ->
  available (initializePool_from i rounds ids now p)
  = map ids (seq 0 (i + rounds)).
Proof.
  revert i p. induction rounds as [|r IH]; intros i p Hnd Ha; cbn.
  - now rewrite Nat.add_0_r.
  - replace (i + S r)%nat with (S i + r)%nat in * by lia.
    apply IH; [assumption|].
    cbn [createWorker available with_available with_workers with_metrics].
    rewrite seq_S, map_app, Ha. cbn [map Nat.add]. apply set_add_fresh.
    replace (S i + r)%nat with (i + S r)%nat in Hnd by lia.
    rewrite seq_app, map_app in Hnd. cbn [seq map Nat.add] in Hnd.
    apply NoDup_remove_2 in Hnd. intros Hin. apply Hnd.
    apply in_or_app. left. assumption.
Qed.

(** A pool built with workers enabled and distinct ids: every worker drawn
    is in the map and available, none is busy. *)
Lemma new_pool_idle (cfg : WorkerPoolConfig) (ids : nat -> string) (now : Z) :
  NoDup (drawn_ids cfg ids) ->
  workers (new_pool true cfg ids now) = drawn_ids cfg ids
  /\ available (new_pool true cfg ids now) = drawn_ids cfg ids
  /\ busy (new_pool true cfg ids now) = [].
Proof.
  intros Hnd. unfold new_pool, TrainingWorkerPool_new, initializePool, drawn_ids in *.
  cbn [config empty_pool].
  rewrite (initializePool_from_workers _ 0), (initializePool_from_available _ 0);
    cbn [Nat.add]; try assumption; try reflexivity.
  repeat split. apply initializePool_from_posted.
Qed.

(** X8.  Submitting tasks in a burst to a new pool: the first tasks, as many as
    there are workers, go to the workers in the order the workers were
    created, one each; the others wait in submission order; nothing is
    settled yet.  In particular one task more than there are workers leaves
    exactly one task waiting. *)
Theorem burst_fills_workers_then_queue (ex : TaskExecutor)
    (cfg : WorkerPoolConfig) (ids : nat -> string) (now : Z)
    (subs : list Submission)
    (Hunique : NoDup (drawn_ids cfg ids))
    (Hnamed : Forall (fun w => w <> "") (drawn_ids cfg ids)) :
  let p := run ex (map submit subs) (new_pool true cfg ids now) in
  let n := Z.to_nat (maxWorkers cfg) in
  dispatched p = firstn n (map sub_id subs)
  /\ queued p = skipn n (map sub_id subs)
  /\ map fst (posted p) = firstn (List.length subs) (drawn_ids cfg ids)
  /\ busy p = firstn (List.length subs) (drawn_ids cfg ids)
  /\ available p = skipn (List.length subs) (drawn_ids cfg ids)
  /\ queuedTasks (getStatus p) = (List.length subs - n)%nat
  /\ busyWorkers (getStatus p) = Nat.min (List.length subs) n
  /\ settled p = [].
Proof.
  cbv zeta.
  destruct (new_pool_idle cfg ids now Hunique) as (Hw & Ha & Hb).
  destruct (new_pool_clean true cfg ids now) as (Hs & Hd & Hq).
  pose proof (new_pool_posted true cfg ids now) as Hp.
  destruct (burst_from_idle ex subs (new_pool true cfg ids now)
              (drawn_ids cfg ids) Hd Hq Ha)
    as (K1 & K2 & K3 & K4 & K5 & K6).
  { rewrite Hb. assumption. }
  { assumption. }
  { intros w Hin. rewrite Hw. assumption. }
  assert (Hn : List.length (drawn_ids cfg ids) = Z.to_nat (maxWorkers cfg)).
  { unfold drawn_ids. now rewrite length_map, length_seq. }
  unfold dispatched in K1. rewrite Hp, Hb, Hs, Hn in *. cbn [map app] in *.
  unfold getStatus. cbn [queuedTasks busyWorkers].
  repeat split; try assumption.
  - unfold queued in K2. rewrite <- (length_map qt_id), K2, length_skipn, length_map.
    reflexivity.
  - rewrite K3, length_firstn, Hn. reflexivity.
Qed.

Lemma burst_fills_workers_then_queue_witness :
  let p := run sound_executor
             (map submit
                [{| sub_type := TRAIN; sub_data := DOpaque "d1";
                    sub_priority := 0; sub_id := "t1"; sub_time := 1001 |};
                 {| sub_type := TRAIN; sub_data := DOpaque "d2";
                    sub_priority := 0; sub_id := "t2"; sub_time := 1002 |}])
             (new_pool true single_worker_config letter_id 1000) in
  dispatched p = ["t1"] /\ queued p = ["t2"].
Proof.
  cbv zeta.
  match goal with
  | |- dispatched (run _ (map submit ?subs) _) = _ /\ _ =>
      destruct (burst_fills_workers_then_queue sound_executor
                  single_worker_config letter_id 1000 subs)
        as (Hd & Hq & _)
  end.
  - vm_compute. repeat (constructor; [cbn; intuition discriminate|]). constructor.
  - vm_compute. repeat constructor. discriminate.
  - split; [exact Hd|exact Hq].
Defined.

(** * The worker side *)

(** ** The worker's answers *)

(** X9.  A task handled without another arriving meanwhile is answered
    with exactly one Response, which bears the id of the message; everything
    else the worker posts is an update.  When the handler awaits a call, the
    updates of the meantime (the progress the executor reports, the metrics
    of the interval) come first and the Response is posted when the call
    ends: after a success nothing follows it, after a failure it carries no
    data and exactly one ['error'] update follows.  STOP and STATUS await
    nothing and are answered with a success when they arrive.  Afterwards
    the message is the worker's current task. *)
Theorem worker_answers_every_task_once (ex : TaskExecutor) (heap : Q)
    (began ended : Z) (message : WorkerMessage) (between : list WorkerEvent)
    (st : WorkerState)
    (Hbetween : forallb in_the_background between = true) :
  let st' := fst (worker_run ex (handling message heap began between ended) st) in
  let out := snd (worker_run ex (handling message heap began between ended) st) in
  exists before r after,
    out = map IsUpdate before ++ IsResponse r :: map IsUpdate after
    /\ List.length (filter is_response out) = 1%nat
    /\ wr_id r = wm_id message
    /\ (wr_success r = true -> wr_error r = None)
    /\ (wr_success r = false -> wr_data r = None)
    /\ (if awaits (wm_type message)
        then wr_timestamp r = ended
             /\ (wr_success r = true -> after = [])
             /\ (wr_success r = false ->
                 exists u, after = [u] /\ wu_type u = UError
                           /\ wu_timestamp u = ended)
        else wr_timestamp r = began /\ before = [] /\ wr_success r = true)
    /\ currentTask st' = Some message.
Proof.
  cbv zeta.
  assert (Hcount : forall before r after,
             List.length (filter is_response
                            (map IsUpdate before ++ IsResponse r
                             :: map IsUpdate after)) = 1%nat).
  { intros before r after. rewrite filter_app. cbn [filter is_response].
    assert (Hnone : forall l, filter is_response (map IsUpdate l) = []).
    { induction l as [|u l IH]; cbn; auto. }
    now rewrite !Hnone. }
  destruct (awaits (wm_type message)) eqn:Ha.
  - destruct (handling_awaited ex message heap began ended between st Hbetween Ha)
      as (st1 & updates & Hc & E).
    rewrite E. cbn [fst snd]. unfold worker_end.
    destruct (wm_type message); cbn in Ha; try discriminate;
      try destruct (performRealTraining ex (wm_data message));
      try destruct (evaluateModel ex (wm_data message));
      try destruct (predictText ex (wm_data message));
      unfold report_failure, sendResponse, sendProgressUpdate;
      cbn [fst snd currentTask]; rewrite Hc; cbn [app];
      exists updates;
      first [ eexists; exists []; split; [reflexivity|]
            | eexists; eexists [_]; split; [reflexivity|] ];
      (split; [first [apply (Hcount updates _ []) | apply (Hcount updates _ [_])]|]);
      cbn;
      repeat match goal with
             | H : _ = _ |- _ => discriminate H
             | |- _ /\ _ => split
             | |- _ -> _ => intro
             | |- exists _, _ => eexists
             end;
      try reflexivity; try assumption.
  - destruct (handling_at_once ex message heap began ended between st Hbetween Ha)
      as (st1 & result & updates & Hc & E).
    rewrite E. cbn [fst snd].
    exists [], {| wr_id := wm_id message; wr_success := true;
                  wr_data := Some result; wr_error := None;
                  wr_timestamp := began |}, updates.
    split; [reflexivity|]. split; [apply (Hcount [])|].
    cbn. repeat split; try assumption; intros H; discriminate H.
Qed.

(** A training task with a [null] configuration: the three progress
    updates of the executor, the failure Response, the ['error'] update. *)
Lemma worker_answers_every_task_once_witness :
  let message := {| wm_id := "t1"; wm_type := TRAIN; wm_data := DOpaque "d1";
                    wm_timestamp := 1001 |} in
  let between := reports_before_fit in
  let out := snd (worker_run throwing_executor
                    (handling message (inject_Z 120) 1002 between 1600)
                    idle_worker) in
  forallb in_the_background between = true
  /\ List.length out = 5%nat
  /\ exists before r after,
       out = map IsUpdate before ++ IsResponse r :: map IsUpdate after
       /\ List.length (filter is_response out) = 1%nat
       /\ wr_id r = "t1"
       /\ (wr_success r = true -> wr_error r = None)
       /\ (wr_success r = false -> wr_data r = None)
       /\ (wr_timestamp r = 1600
           /\ (wr_success r = true -> after = [])
           /\ (wr_success r = false ->
               exists u, after = [u] /\ wu_type u = UError
                         /\ wu_timestamp u = 1600))
       /\ currentTask
            (fst (worker_run throwing_executor
                    (handling message (inject_Z 120) 1002 between 1600)
                    idle_worker))
          = Some message.
Proof.
  cbv zeta. split; [reflexivity|]. split; [reflexivity|].
  exact (worker_answers_every_task_once throwing_executor (inject_Z 120)
           1002 1600
           {| wm_id := "t1"; wm_type := TRAIN; wm_data := DOpaque "d1";
              wm_timestamp := 1001 |}
           reports_before_fit idle_worker eq_refl).
Defined.

(** * Further properties of the monitor *)

(** ** The performance monitor: its alert log *)

Lemma addAlert_frame (type : Monitor.AlertType) (message : Monitor.AlertMessage)
    (subject : Monitor.AlertSubject) (now : Z) (m : Monitor.State) :
  Monitor.metrics (Monitor.addAlert type message subject now m) = Monitor.metrics m
  /\ Monitor.workerMetrics (Monitor.addAlert type message subject now m)
     = Monitor.workerMetrics m
  /\ Monitor.mainThreadResponseTimes (Monitor.addAlert type message subject now m)
     = Monitor.mainThreadResponseTimes m.
Proof.
  unfold Monitor.addAlert. cbv zeta.
  destruct (_ <? _)%nat; repeat split.
Qed.

(** [addAlert] puts the new alert last, and drops the oldest alert exactly
    when the log already held a hundred. *)
Lemma addAlert_alerts (type : Monitor.AlertType) (message : Monitor.AlertMessage)
    (subject : Monitor.AlertSubject) (now : Z) (m : Monitor.State) :
  let a := {| Monitor.alert_type := type; Monitor.alert_message := message;
              Monitor.alert_timestamp := now; Monitor.alert_metrics := subject |} in
  Monitor.alerts (Monitor.addAlert type message subject now m)
  = if (100 <=? List.length (Monitor.alerts m))%nat
    then Monitor.shift (Monitor.alerts m) ++ [a]
    else Monitor.alerts m ++ [a].
Proof.
  cbv zeta. unfold Monitor.addAlert. cbv zeta.
  cbn [Monitor.alerts Monitor.with_alerts Monitor.with_emitted].
  rewrite length_app. cbn [List.length].
  destruct (Nat.ltb_spec 100 (List.length (Monitor.alerts m) + 1));
    destruct (Nat.leb_spec 100 (List.length (Monitor.alerts m))); try lia;
    cbn [Monitor.alerts Monitor.with_alerts Monitor.with_emitted]; [|reflexivity].
  destruct (Monitor.alerts m); [cbn in *; lia|reflexivity].
Qed.

Lemma shift_length {A : Type} (l : list A) :
  List.length (Monitor.shift l) = pred (List.length l).
Proof. destruct l; reflexivity. Qed.

Lemma addAlert_bounded (type : Monitor.AlertType) (message : Monitor.AlertMessage)
    (subject : Monitor.AlertSubject) (now : Z) (m : Monitor.State) :
  (List.length (Monitor.alerts m) <= 100)%nat ->
  (List.length (Monitor.alerts (Monitor.addAlert type message subject now m))
   <= 100)%nat.
Proof.
  intros H. rewrite addAlert_alerts.
  destruct (Nat.leb_spec 100 (List.length (Monitor.alerts m)));
    rewrite length_app, ?shift_length; cbn; lia.
Qed.

Lemma only_alerts_differ_refl (m : Monitor.State) : only_alerts_differ m m.
Proof. repeat split; auto. Qed.

Lemma only_alerts_differ_trans (m1 m2 m3 : Monitor.State) :
  only_alerts_differ m1 m2 -> only_alerts_differ m2 m3 ->
  only_alerts_differ m1 m3.
Proof.
  intros (A1 & A2 & A3 & A4) (B1 & B2 & B3 & B4).
  repeat split; try congruence. auto.
Qed.

Lemma optional_alert_differs (b : bool) (type : Monitor.AlertType)
    (message : Monitor.AlertMessage) (subject : Monitor.AlertSubject) (now : Z)
    (m : Monitor.State) :
  only_alerts_differ m
    (if b then Monitor.addAlert type message subject now m else m).
Proof.
  destruct b; [|apply only_alerts_differ_refl].
  destruct (addAlert_frame type message subject now m) as (E1 & E2 & E3).
  repeat split; try assumption. apply addAlert_bounded.
Qed.

Lemma checkWorkerMemory_differs (limits : Monitor.Thresholds) (now : Z)
    (m : Monitor.State) :
  only_alerts_differ m (Monitor.checkWorkerMemory limits now m).
Proof.
  unfold Monitor.checkWorkerMemory.
  generalize (Monitor.workerMetrics m) as records. intros records. revert m.
  induction records as [|kv records IH]; intros m; cbn [fold_left];
    [apply only_alerts_differ_refl|].
  eapply only_alerts_differ_trans; [|apply IH].
  apply optional_alert_differs.
Qed.

Lemma checkAgainst_differs (limits : Monitor.Thresholds) (now : Z)
    (m : Monitor.State) :
  only_alerts_differ m (Monitor.checkAgainst limits now m).
Proof.
  unfold Monitor.checkAgainst. cbv zeta.
  eapply only_alerts_differ_trans; [|apply optional_alert_differs].
  eapply only_alerts_differ_trans; [|apply optional_alert_differs].
  eapply only_alerts_differ_trans; [|apply checkWorkerMemory_differs].
  apply optional_alert_differs.
Qed.

(** X10.  However the monitor is driven, and whatever PERFORMANCE_THRESHOLDS
    is bound to, its alert log and its list of response times never hold
    more than a hundred entries. *)
Theorem monitor_logs_are_bounded (imported : option Monitor.Thresholds)
    (heap : Q) (os : list Monitor.Operation) :
  (List.length (Monitor.alerts (Monitor.runs imported os (Monitor.create heap)))
   <= 100)%nat
  /\ (List.length (Monitor.mainThreadResponseTimes
                     (Monitor.runs imported os (Monitor.create heap))) <= 100)%nat.
Proof.
  unfold Monitor.runs.
  assert (G : forall m,
             (List.length (Monitor.alerts m) <= 100)%nat
             /\ (List.length (Monitor.mainThreadResponseTimes m) <= 100)%nat ->
             (List.length (Monitor.alerts
                             (fold_left (Monitor.apply imported) os m)) <= 100)%nat
             /\ (List.length (Monitor.mainThreadResponseTimes
                                (fold_left (Monitor.apply imported) os m))
                 <= 100)%nat).
  { induction os as [|o os IH]; intros m (Ha & Ht); cbn [fold_left];
      [split; assumption|].
    apply IH. destruct o as [rt| | |now|maxAge now|worker]; cbn [Monitor.apply].
    - unfold Monitor.measureMainThreadResponseTime. cbv zeta.
      cbn [Monitor.mainThreadResponseTimes Monitor.with_responseTimes].
      rewrite length_app. cbn [List.length].
      destruct (Nat.ltb_spec 100 (List.length (Monitor.mainThreadResponseTimes m) + 1));
        cbn; rewrite ?shift_length, ?length_app; cbn; split; lia.
    - split; assumption.
    - split; assumption.
    - destruct imported as [limits|]; cbn [Monitor.checkThresholds];
        [|split; assumption].
      destruct (checkAgainst_differs limits now m) as (_ & _ & -> & H). auto.
    - cbn. split; [|assumption].
      eapply Nat.le_trans; [apply filter_length_le|assumption].
    - split; assumption. }
  apply G. cbn. split; lia.
Qed.

(** ** The performance monitor as its import stands *)

(** X12.  With PERFORMANCE_THRESHOLDS undefined in performanceMonitor.ts,
    the monitor never raises an alert: however it is driven, its alert log
    stays empty and it emits no ['alert'] event, whatever the response
    time, the memory of the workers and the error rate are.  Every call of
    [checkThresholds] throws at its first statement, and so does every call
    of [getPerformanceSummary]: no status is ever returned. *)
Theorem monitor_never_alerts (heap : Q) (os : list Monitor.Operation) :
  let m := Monitor.runs Monitor.PERFORMANCE_THRESHOLDS os (Monitor.create heap) in
  Monitor.alerts m = []
  /\ Monitor.emitted m = []
  /\ (forall now,
        Monitor.checkThresholds Monitor.PERFORMANCE_THRESHOLDS now m
        = Monitor.Throws)
  /\ Monitor.getPerformanceSummary Monitor.PERFORMANCE_THRESHOLDS m
     = Monitor.Throws.
Proof.
  cbv zeta.
  assert (G : forall m,
             Monitor.alerts m = [] /\ Monitor.emitted m = [] ->
             Monitor.alerts (Monitor.runs Monitor.PERFORMANCE_THRESHOLDS os m) = []
             /\ Monitor.emitted (Monitor.runs Monitor.PERFORMANCE_THRESHOLDS os m)
                = []).
  { unfold Monitor.runs.
    induction os as [|o os IH]; intros m (Ha & He); cbn [fold_left];
      [split; assumption|].
    apply IH. destruct o as [rt| | |now|maxAge now|worker]; cbn [Monitor.apply].
    - unfold Monitor.measureMainThreadResponseTime. cbv zeta.
      destruct (_ <? _)%nat; cbn; split; assumption.
    - split; assumption.
    - split; assumption.
    - split; assumption.
    - unfold Monitor.clearOldAlerts. cbn. rewrite Ha. split; [reflexivity|assumption].
    - split; assumption. }
  destruct (G (Monitor.create heap)) as (Ha & He); [split; reflexivity|].
  repeat split; assumption.
Qed.

(** ** Exits after [terminate()] *)

Lemma exits_start_workers (ex : TaskExecutor) (exits : list (string * string * Z))
    (p : Pool) :
  available p = workers p ->
  NoDup (workers p ++ started exits) ->
  (forall old, In old (exited exits) ->
     ~ In old (workers p ++ started exits)) ->
  workers (run ex (exit_events exits) p) = workers p ++ started exits
  /\ available (run ex (exit_events exits) p) = workers p ++ started exits.
Proof.
  revert p. induction exits as [|[[old new] now] exits IH]; intros p Ha Hnd Hold.
  - cbn. rewrite app_nil_r. auto.
  - cbn [exit_events map run fold_left step fst snd].
    change (fold_left (step ex) (map _ exits) ?q)
      with (run ex (exit_events exits) q).
    cbn [started map fst snd] in Hnd, Hold.
    assert (Hgone : set_has old (workers p) = false).
    { apply not_true_is_false. rewrite set_has_In. intros Hin.
      apply (Hold old); [now left|]. apply in_or_app. now left. }
    assert (Hfresh : ~ In new (workers p)).
    { intros Hin. apply NoDup_remove_2 in Hnd. apply Hnd.
      apply in_or_app. now left. }
    set (q := replaceWorker old new now p).
    assert (Hw : workers q = workers p ++ [new]).
    { unfold q, replaceWorker. rewrite Hgone.
      cbn [createWorker workers with_available with_workers with_metrics].
      now apply set_add_fresh. }
    assert (Hav : available q = workers p ++ [new]).
    { unfold q, replaceWorker. rewrite Hgone.
      cbn [createWorker available with_available with_workers with_metrics].
      rewrite Ha. now apply set_add_fresh. }
    destruct (IH q) as (H1 & H2).
    + congruence.
    + rewrite Hw, <- app_assoc. exact Hnd.
    + intros o Ho. rewrite Hw, <- app_assoc. apply Hold. now right.
    + rewrite H1, H2, Hw, <- app_assoc. auto.
Qed.

(** X15.  [terminate()] stops the workers but not their replacement: the ['exit']
    event of a worker, arriving after the call has resolved, makes
    [replaceWorker] start a new worker although the pool is shutting down.
    After the exit events of [n] stopped workers the pool holds [n] new
    workers, all available, and still refuses every task. *)
Theorem exits_after_terminate_start_workers (ex : TaskExecutor) (p p' : Pool)
    (during_wait during_stop : list Event)
    (exits : list (string * string * Z))
    (Hresolved : terminate ex during_wait during_stop p = Some p')
    (Hnew : NoDup (started exits))
    (Hold : forall old, In old (exited exits) -> ~ In old (started exits)) :
  let q := run ex (exit_events exits) p' in
  workers q = started exits
  /\ available q = started exits
  /\ totalWorkers (getStatus q) = List.length exits
  /\ isShuttingDown q = true
  /\ forall type data priority taskId now,
       fst (execute ex true type data priority taskId now q)
       = SettledNow (Rejected ShuttingDownError).
Proof.
  cbv zeta. unfold terminate in Hresolved.
  destruct (terminate_waiting _); [discriminate|].
  injection Hresolved as <-.
  set (q0 := run ex during_stop
                 (terminate_stop (run ex during_wait (terminate_begin p)))).
  destruct (exits_start_workers ex exits (terminate_finish q0)) as (Hw & Ha);
    [reflexivity|exact Hnew|exact Hold|].
  cbn [terminate_finish workers with_metrics with_taskQueue with_busy
       with_available with_workers with_terminated app] in Hw, Ha.
  assert (Hflag : isShuttingDown (run ex (exit_events exits) (terminate_finish q0))
                  = true).
  { apply run_keeps_shutting_down. cbn.
    unfold q0. apply run_keeps_shutting_down. cbn.
    apply run_keeps_shutting_down. reflexivity. }
  split; [exact Hw|]. split; [exact Ha|]. split.
  { unfold getStatus. cbn [totalWorkers]. rewrite Hw. unfold started.
    apply length_map. }
  split; [exact Hflag|].
  intros type data priority taskId now. unfold execute. cbn [negb].
  rewrite Hflag. reflexivity.
Qed.

Lemma exits_after_terminate_start_workers_witness :
  let p' :=
    terminate_finish
      (terminate_stop
         (run sound_executor [OnTimeout "t2"]
              (terminate_begin one_running_one_queued))) in
  terminate sound_executor [OnTimeout "t2"] [] one_running_one_queued = Some p'
  /\ totalWorkers (getStatus p') = 0%nat
  /\ workers (run sound_executor (exit_events [("a", "b", 9000)]) p') = ["b"].
Proof.
  intros p'. split; [reflexivity|]. split; [reflexivity|].
  destruct (exits_after_terminate_start_workers sound_executor
              one_running_one_queued p' [OnTimeout "t2"] [] [("a", "b", 9000)])
    as (Hworkers & _).
  - reflexivity.
  - repeat constructor. cbn. tauto.
  - cbn. intros old [<-|[]] [H|[]]. discriminate H.
  - exact Hworkers.
Defined.

(** ** Rates *)

Lemma fold_add_shift (l : list Z) (a : Z) :
  fold_left Z.add l a = a + sum_Z l.
Proof.
  unfold sum_Z. revert a. induction l as [|x l IH]; intros a; cbn; [lia|].
  rewrite (IH (a + x)), (IH x). lia.
Qed.

Lemma sum_Z_cons (x : Z) (l : list Z) : sum_Z (x :: l) = x + sum_Z l.
Proof.
  unfold sum_Z at 1. cbn. apply fold_add_shift.
Qed.

Lemma failed_within_total (ms : list (string * WorkerMetrics)) :
  Forall (fun kv => counts_are_natural (snd kv)) ms ->
  0 <= sum_Z (map (fun kv => tasksFailed (snd kv)) ms)
    <= sum_Z (map (fun kv => tasksCompleted (snd kv) + tasksFailed (snd kv)) ms).
Proof.
  induction 1 as [|kv ms (Hc & Hf) _ IH]; cbn [map].
  - unfold sum_Z. cbn. lia.
  - rewrite !sum_Z_cons. lia.
Qed.

Lemma percentage_bounds (a n : Z) :
  0 <= a <= n -> 0 < n ->
  (0 <= inject_Z a / inject_Z n * 100 /\ inject_Z a / inject_Z n * 100 <= 100)%Q.
Proof.
  intros Ha Hn. destruct n as [|n|n]; try lia.
  unfold Qle, Qdiv, Qmult, Qinv, inject_Z. cbn. split; nia.
Qed.

(** X16.  With natural counters in every record, the error rate of the pool is a
    percentage: it lies between 0 and 100, and it is 0 when no task was
    counted. *)
Theorem pool_error_rate_is_a_percentage (p : Pool)
    (Hcounts : Forall (fun kv => counts_are_natural (snd kv)) (metrics p)) :
  (0 <= calculateErrorRate p /\ calculateErrorRate p <= 100)%Q.
Proof.
  unfold calculateErrorRate. cbv zeta.
  pose proof (failed_within_total (metrics p) Hcounts) as Hsum.
  destruct (0 <? sum_Z _) eqn:E.
  - apply Z.ltb_lt in E. now apply percentage_bounds.
  - split; unfold Qle; cbn; lia.
Qed.

Lemma pool_error_rate_is_a_percentage_witness :
  (0 <= calculateErrorRate seasoned_pool
   /\ calculateErrorRate seasoned_pool <= 100)%Q.
Proof.
  apply pool_error_rate_is_a_percentage.
  vm_compute. repeat constructor; discriminate.
Defined.

(** X17.  What the monitor aggregates from its worker records is well-formed: the
    utilization is always a number between 0 and 100 (0 for no record, never
    NaN), and with natural counters so is the error rate. *)
Theorem monitor_rates_are_percentages (m : Monitor.State)
    (Hcounts : Forall (fun kv => counts_are_natural (snd kv))
                      (Monitor.workerMetrics m)) :
  let m' := Monitor.updateWorkerMetrics m in
  (exists u, workerUtilization (Monitor.metrics m') = Finite u
             /\ (0 <= u /\ u <= 100)%Q)
  /\ (0 <= errorRate (Monitor.metrics m')
      /\ errorRate (Monitor.metrics m') <= 100)%Q.
Proof.
  cbv zeta. unfold Monitor.updateWorkerMetrics. cbv zeta.
  cbn [Monitor.metrics Monitor.with_metrics workerUtilization errorRate].
  split.
  - destruct (0 <? List.length (Monitor.workerMetrics m))%nat eqn:E.
    + eexists. split; [reflexivity|].
      apply Nat.ltb_lt in E. apply percentage_bounds; [|lia].
      pose proof (filter_length_le (fun kv => 0 <? uptime (snd kv))
                                   (Monitor.workerMetrics m)).
      lia.
    + exists 0%Q. split; [reflexivity|]. split; unfold Qle; cbn; lia.
  - pose proof (failed_within_total (Monitor.workerMetrics m) Hcounts) as Hsum.
    destruct (0 <? sum_Z _) eqn:E.
    + apply Z.ltb_lt in E. now apply percentage_bounds.
    + split; unfold Qle; cbn; lia.
Qed.

Lemma monitor_rates_are_percentages_witness :
  let m' :=
    Monitor.updateWorkerMetrics
      (Monitor.with_workerMetrics
         [("a", {| workerId := "a"; cpuUsage := 0%Q;
                   memoryUsage := inject_Z 900; messageLatency := 0;
                   tasksCompleted := 3; tasksFailed := 1; uptime := 1000;
                   lastActivity := 0 |})]
         (Monitor.create 0%Q)) in
  (0 <= errorRate (Monitor.metrics m')
   /\ errorRate (Monitor.metrics m') <= 100)%Q.
Proof.
  intros m'.
  destruct (monitor_rates_are_percentages
              (Monitor.with_workerMetrics
                 [("a", {| workerId := "a"; cpuUsage := 0%Q;
                           memoryUsage := inject_Z 900; messageLatency := 0;
                           tasksCompleted := 3; tasksFailed := 1; uptime := 1000;
                           lastActivity := 0 |})]
                 (Monitor.create 0%Q))) as (_ & Hrate).
  - repeat constructor; discriminate.
  - exact Hrate.
Defined.

(** ** The pool's snapshot once it has no worker *)

(** X18.  The performance interval is not stopped by [terminate()].  On the
    emptied pool its next round computes [0 / 0 * 100]: the utilization it
    stores is NaN, while the throughput (guarded by [|| 0]) and the error
    rate are 0. *)
Theorem performance_after_terminate (ex : TaskExecutor) (p p' : Pool)
    (during_wait during_stop : list Event) (heap responseTime : Q)
    (Hresolved : terminate ex during_wait during_stop p = Some p') :
  let s := updatePerformanceMetrics heap responseTime p' in
  workerUtilization s = NaN
  /\ throughput s = {| tasksPerSecond := Finite 0; averageTaskTime := Finite 0 |}
  /\ errorRate s = 0%Q
  /\ mem_workers (perf_memoryUsage s) = 0%Q.
Proof.
  cbv zeta. unfold terminate in Hresolved.
  destruct (terminate_waiting _); [discriminate|].
  injection Hresolved as <-. repeat split.
Qed.

Lemma performance_after_terminate_witness :
  workerUtilization
    (updatePerformanceMetrics 0 0
       (terminate_finish
          (terminate_stop
             (run sound_executor [OnTimeout "t2"]
                  (terminate_begin one_running_one_queued)))))
  = NaN.
Proof.
  apply (performance_after_terminate sound_executor one_running_one_queued _
           [OnTimeout "t2"] [] 0%Q 0%Q).
  reflexivity.
Defined.

(** ** Late messages *)





(** ** A validated environment *)

(** X21.  When [validateWorkerConfig] accepts an environment, a pool built from it
    with workers enabled has between 1 and 16 workers, unless MAX_WORKERS
    did not parse: NaN passes the validation (both comparisons are false) and
    the pool then has no worker. *)
Theorem validated_environment_bounds_the_pool (c : WorkerEnvironment)
    (ids : nat -> string) (now : Z)
    (Hvalid : isValid (validateWorkerConfig c) = true)
    (Hdistinct : NoDup (drawn_ids (config_of_environment c) ids)) :
  let p := new_pool true (config_of_environment c) ids now in
  match MAX_WORKERS c with
  | Some n => 1 <= n <= 16 /\ totalWorkers (getStatus p) = Z.to_nat n
  | None => totalWorkers (getStatus p) = 0%nat
  end.
Proof.
  cbv zeta.
  assert (Hsize : totalWorkers (getStatus (new_pool true (config_of_environment c)
                                                    ids now))
                  = Z.to_nat (maxWorkers (config_of_environment c))).
  { unfold new_pool, TrainingWorkerPool_new, getStatus, initializePool.
    cbn [totalWorkers config empty_pool].
    rewrite (initializePool_from_workers _ 0); cbn [Nat.add];
      [now rewrite length_map, length_seq | exact Hdistinct | reflexivity]. }
  rewrite Hsize. cbn [config_of_environment maxWorkers].
  destruct (MAX_WORKERS c) as [n|] eqn:En; [|reflexivity].
  split; [|reflexivity].
  unfold validateWorkerConfig in Hvalid. rewrite En in Hvalid.
  cbn [num_lt num_gt] in Hvalid.
  destruct (n <? 1) eqn:E1; destruct (16 <? n) eqn:E2;
    cbn [orb app] in Hvalid;
    try (apply Z.ltb_ge in E1; apply Z.ltb_ge in E2; lia).
  all: exfalso;
    destruct (num_lt (WORKER_MEMORY_LIMIT c) 128 || num_gt (WORKER_MEMORY_LIMIT c) 2048);
    destruct (num_lt (WORKER_TIMEOUT c) 30000 || num_gt (WORKER_TIMEOUT c) 1800000);
    destruct (negb (known_log_level (LOG_LEVEL c)));
    cbn in Hvalid; discriminate.
Qed.

Lemma validated_environment_bounds_the_pool_witness :
  totalWorkers
    (getStatus (new_pool true (config_of_environment getDefaultWorkerConfig)
                         letter_id 1000))
  = 2%nat.
Proof.
  apply (validated_environment_bounds_the_pool getDefaultWorkerConfig letter_id 1000).
  - reflexivity.
  - vm_compute. repeat (constructor; [cbn; intuition discriminate|]). constructor.
Defined.

(** * The worker's evaluation metrics *)

(** ** The confusion matrix *)

Lemma update_row_length (a : nat) (f : Row -> Row) (m : Matrix) :
  List.length (update_row a f m) = List.length m.
Proof.
  revert a. induction m as [|row m IH]; intros [|a]; cbn; auto.
Qed.

Lemma zero_matrix_length (n : nat) : List.length (zero_matrix n) = n.
Proof.
  unfold zero_matrix. apply repeat_length.
Qed.

Lemma confusion_loop_defined (actual predicted : list Z) (m : Matrix) :
  (exists result, confusion_loop actual predicted m = Some result)
  <-> Forall (in_range (List.length m)) actual.
Proof.
  revert predicted m. induction actual as [|a actual IH]; intros predicted m.
  - cbn. split; [constructor|]. intros _. now exists m.
  - cbn [confusion_loop].
    destruct ((0 <=? a) && (a <? Z.of_nat (List.length m))) eqn:E.
    + apply andb_true_iff in E as (E1 & E2).
      apply Z.leb_le in E1. apply Z.ltb_lt in E2.
      rewrite IH, update_row_length. split.
      * intros H. constructor; [split; assumption|exact H].
      * intros H. now inversion H.
    + split; [intros (r & Hr); discriminate|].
      intros H. inversion H as [|? ? (H1 & H2) _]; subst.
      apply andb_false_iff in E as [E|E];
        [apply Z.leb_gt in E|apply Z.ltb_ge in E]; lia.
Qed.

(** X22.  [calculateConfusionMatrix] returns a matrix exactly when every
    actual label is a class of the matrix; an actual label outside
    [0 .. numClasses - 1] makes it throw, whatever was predicted.  A
    predicted label never makes it throw. *)
Theorem confusion_matrix_needs_known_actual_classes (actual predicted : list Z)
    (numClasses : nat)
    (Hsize : Z.of_nat numClasses <= 4294967295) :
  (exists matrix, calculateConfusionMatrix actual predicted numClasses = Some matrix)
  <-> Forall (in_range numClasses) actual.
Proof.
  unfold calculateConfusionMatrix.
  apply Z.leb_le in Hsize. rewrite Hsize.
  rewrite confusion_loop_defined, zero_matrix_length. reflexivity.
Qed.

Lemma confusion_matrix_needs_known_actual_classes_witness :
  calculateConfusionMatrix [0; 3; 1] [0; 1; 1] 3 = None
  /\ exists matrix, calculateConfusionMatrix [0; 2; 1] [0; 7; -1] 3 = Some matrix.
Proof.
  split; [reflexivity|].
  apply (confusion_matrix_needs_known_actual_classes [0; 2; 1] [0; 7; -1] 3).
  - lia.
  - repeat constructor; cbn; lia.
Defined.

Lemma update_row_map (F : nat -> Row) (g : Row -> Row) (a n s : nat) :
  update_row a g (map F (seq s n))
  = map (fun i => if (i =? s + a)%nat then g (F i) else F i) (seq s n).
Proof.
  revert a s. induction n as [|n IH]; intros a s; [destruct a; reflexivity|].
  cbn [seq map]. destruct a as [|a]; cbn [update_row].
  - rewrite Nat.add_0_r, Nat.eqb_refl. f_equal.
    apply map_ext_in. intros i Hi. apply in_seq in Hi.
    replace (i =? s)%nat with false; [reflexivity|].
    symmetry. apply Nat.eqb_neq. lia.
  - replace (s =? s + S a)%nat with false
      by (symmetry; apply Nat.eqb_neq; lia).
    f_equal. rewrite IH. apply map_ext. intros i.
    now replace (S s + a)%nat with (s + S a)%nat by lia.
Qed.

Lemma write_map (G : nat -> option JsNumber) (v : JsNumber) (p n s : nat) :
  (p < n)%nat ->
  write (map G (seq s n)) p v
  = map (fun j => if (j =? s + p)%nat then Some v else G j) (seq s n).
Proof.
  revert p s. induction n as [|n IH]; intros p s Hp; [lia|].
  cbn [seq map]. destruct p as [|p]; cbn [write].
  - rewrite Nat.add_0_r, Nat.eqb_refl. f_equal.
    apply map_ext_in. intros i Hi. apply in_seq in Hi.
    replace (i =? s)%nat with false; [reflexivity|].
    symmetry. apply Nat.eqb_neq. lia.
  - replace (s =? s + S p)%nat with false
      by (symmetry; apply Nat.eqb_neq; lia).
    f_equal. rewrite IH by lia. apply map_ext. intros i.
    now replace (S s + p)%nat with (s + S p)%nat by lia.
Qed.

Lemma read_map (G : nat -> JsNumber) (p n : nat) :
  (p < n)%nat ->
  read (map (fun j => Some (G j)) (seq 0 n)) (Z.of_nat p) = G p.
Proof.
  intros Hp. unfold read.
  replace (0 <=? Z.of_nat p) with true by (symmetry; apply Z.leb_le; lia).
  rewrite Nat2Z.id.
  rewrite (nth_error_map (fun j => Some (G j))), nth_error_seq.
  replace (p <? n)%nat with true by (symmetry; apply Nat.ltb_lt; lia).
  reflexivity.
Qed.

Lemma count_one_more (c : Z) :
  js_add (Finite (inject_Z c)) (Finite 1) = Finite (inject_Z (c + 1)).
Proof.
  cbn [js_add]. unfold inject_Z, Qplus. cbn [Qnum Qden].
  now rewrite !Z.mul_1_r.
Qed.

Lemma tabulate_step (n : nat) (counts : nat -> nat -> Z) (a p : Z) :
  in_range n a -> in_range n p -> Z.of_nat n <= 4294967295 ->
  update_row (Z.to_nat a) (increment (Some p)) (tabulate n counts)
  = tabulate n (fun i j => counts i j
                           + (if (a =? Z.of_nat i) && (p =? Z.of_nat j)
                              then 1 else 0)).
Proof.
  intros (Ha0 & Ha1) (Hp0 & Hp1) Hn. unfold tabulate.
  rewrite update_row_map. apply map_ext_in. intros i Hi. cbn [Nat.add].
  destruct (i =? Z.to_nat a)%nat eqn:Ei.
  - apply Nat.eqb_eq in Ei. subst i.
    replace (a =? Z.of_nat (Z.to_nat a)) with true
      by (symmetry; apply Z.eqb_eq; lia).
    unfold increment.
    replace ((0 <=? p) && (p <? 4294967295)) with true.
    2: { symmetry. apply andb_true_iff. split;
         [apply Z.leb_le|apply Z.ltb_lt]; lia. }
    rewrite write_map by lia. apply map_ext_in. intros j Hj. cbn [Nat.add andb].
    destruct (j =? Z.to_nat p)%nat eqn:Ej.
    + apply Nat.eqb_eq in Ej. subst j.
      replace (p =? Z.of_nat (Z.to_nat p)) with true
        by (symmetry; apply Z.eqb_eq; lia).
      replace p with (Z.of_nat (Z.to_nat p)) at 1 by lia.
      rewrite (read_map (fun j => Finite (inject_Z (counts (Z.to_nat a) j))))
        by lia.
      now rewrite count_one_more.
    + apply Nat.eqb_neq in Ej.
      replace (p =? Z.of_nat j) with false
        by (symmetry; apply Z.eqb_neq; lia).
      now rewrite Z.add_0_r.
  - apply Nat.eqb_neq in Ei.
    replace (a =? Z.of_nat i) with false by (symmetry; apply Z.eqb_neq; lia).
    apply map_ext. intros j. cbn [andb]. now rewrite Z.add_0_r.
Qed.

Lemma tabulate_length (n : nat) (counts : nat -> nat -> Z) :
  List.length (tabulate n counts) = n.
Proof.
  unfold tabulate. now rewrite length_map, length_seq.
Qed.

Lemma tabulate_ext (n : nat) (f g : nat -> nat -> Z) :
  (forall i j, f i j = g i j) -> tabulate n f = tabulate n g.
Proof.
  intros H. unfold tabulate. apply map_ext. intros i. apply map_ext.
  intros j. now rewrite H.
Qed.

Lemma confusion_loop_counts (n : nat) (actual predicted : list Z)
    (counts : nat -> nat -> Z) :
  Z.of_nat n <= 4294967295 ->
  Forall (in_range n) actual -> Forall (in_range n) predicted ->
  (List.length actual <= List.length predicted)%nat ->
  confusion_loop actual predicted (tabulate n counts)
  = Some (tabulate n (fun i j => counts i j
                                 + pairs_counted actual predicted
                                     (Z.of_nat i) (Z.of_nat j))).
Proof.
  intros Hn Ha. revert predicted counts.
  induction Ha as [|a actual Ha Hrest IH]; intros predicted counts Hp Hlen.
  - cbn [confusion_loop]. f_equal. apply tabulate_ext. intros i j.
    unfold pairs_counted. cbn. lia.
  - destruct predicted as [|p predicted]; [cbn in Hlen; lia|].
    inversion Hp as [|? ? Hp1 Hp2]; subst.
    cbn [confusion_loop tl hd_error]. rewrite tabulate_length.
    replace ((0 <=? a) && (a <? Z.of_nat n)) with true.
    2: { symmetry. destruct Ha. apply andb_true_iff. split;
         [apply Z.leb_le|apply Z.ltb_lt]; lia. }
    rewrite tabulate_step by assumption.
    rewrite IH by (try assumption; cbn in Hlen; lia).
    f_equal. apply tabulate_ext. intros i j.
    unfold pairs_counted. cbn [combine filter fst snd].
    destruct ((a =? Z.of_nat i) && (p =? Z.of_nat j)); cbn [List.length]; lia.
Qed.

Lemma confusion_matrix_counts_table (actual predicted : list Z)
    (numClasses : nat) :
  Z.of_nat numClasses <= 4294967295 ->
  Forall (in_range numClasses) actual ->
  Forall (in_range numClasses) predicted ->
  (List.length actual <= List.length predicted)%nat ->
  calculateConfusionMatrix actual predicted numClasses
  = Some (of_counts (pair_counts actual predicted numClasses)).
Proof.
  intros Hsize Hactual Hpredicted Hlength.
  unfold calculateConfusionMatrix.
  replace (Z.of_nat numClasses <=? 4294967295) with true
    by (symmetry; now apply Z.leb_le).
  assert (Hzero : zero_matrix numClasses = tabulate numClasses (fun _ _ => 0)).
  { unfold zero_matrix, tabulate.
    assert (R : forall (A : Type) (x : A) k s, repeat x k = map (fun _ => x) (seq s k)).
    { intros A x k. induction k as [|k IHk]; intros s; cbn; [reflexivity|].
      f_equal. apply IHk. }
    rewrite (R _ _ numClasses 0%nat). apply map_ext. intros _.
    apply (R _ _ numClasses 0%nat). }
  rewrite Hzero, confusion_loop_counts by assumption.
  f_equal. unfold tabulate, of_counts, pair_counts.
  rewrite map_map. apply map_ext. intros i. rewrite map_map. reflexivity.
Qed.

(** X23.  When every actual and every predicted label is a class, the
    matrix [calculateConfusionMatrix] returns is the table of the samples:
    [numClasses] rows of [numClasses] counts, where the count in row [a],
    column [p] is the number of samples of class [a] predicted as [p]. *)
Theorem confusion_matrix_counts_samples (actual predicted : list Z)
    (numClasses : nat)
    (Hsize : Z.of_nat numClasses <= 4294967295)
    (Hactual : Forall (in_range numClasses) actual)
    (Hpredicted : Forall (in_range numClasses) predicted)
    (Hlength : (List.length actual <= List.length predicted)%nat) :
  calculateConfusionMatrix actual predicted numClasses
  = Some (of_counts (pair_counts actual predicted numClasses)).
Proof.
  now apply confusion_matrix_counts_table.
Qed.

Lemma confusion_matrix_counts_samples_witness :
  calculateConfusionMatrix [0; 1; 2; 0] [0; 2; 2; 0] 3
  = Some (of_counts [[2; 0; 0]; [0; 0; 1]; [0; 0; 1]]).
Proof.
  apply (confusion_matrix_counts_samples [0; 1; 2; 0] [0; 2; 2; 0] 3).
  - lia.
  - repeat constructor; cbn; lia.
  - repeat constructor; cbn; lia.
  - cbn. lia.
Defined.

(** ** Precision, recall and F1 score *)

Lemma sum_from_nan (l : list JsNumber) : fold_left js_add l NaN = NaN.
Proof.
  induction l as [|x l IH]; cbn; [reflexivity|]. exact IH.
Qed.

Lemma sum_of_counts (l : list JsNumber) (a : Q) :
  Forall count_or_nan l -> (0 <= a)%Q ->
  fold_left js_add l (Finite a) = NaN
  \/ exists s, fold_left js_add l (Finite a) = Finite s
               /\ (a <= s)%Q
               /\ forall q, In (Finite q) l -> (q <= s)%Q.
Proof.
  intros Hl. revert a. induction Hl as [|x l Hx Hl IH]; intros a Ha.
  - right. exists a. split; [reflexivity|]. split; [apply Qle_refl|].
    intros q [].
  - cbn [fold_left]. destruct x as [b| | |]; cbn in Hx; try contradiction.
    + cbn [js_add].
      destruct (IH (a + b)%Q) as [E|(s & E & Hs & Hin)]; [lra|now left|].
      right. exists s. split; [exact E|]. split; [lra|].
      intros q [Eq|Hq]; [injection Eq as <-; lra|auto].
    + left. cbn [js_add]. apply sum_from_nan.
Qed.

Lemma read_is_count (row : Row) (i : Z) :
  Forall count_or_nan (present row) ->
  count_or_nan (read row i)
  /\ forall q, read row i = Finite q -> In (Finite q) (present row).
Proof.
  intros H. unfold read. destruct (0 <=? i); [|split; [exact I|discriminate]].
  destruct (nth_error row (Z.to_nat i)) as [[v|]|] eqn:E;
    try (split; [exact I|discriminate]).
  assert (Hin : In v (present row)).
  { unfold present. apply in_flat_map. exists (Some v).
    split; [eapply nth_error_In; eassumption|now left]. }
  split.
  - rewrite Forall_forall in H. now apply H.
  - intros q ->. exact Hin.
Qed.

Lemma counts_weaken (l : list JsNumber) :
  Forall (fun v => match v with Finite q => (0 <= q)%Q | _ => False end) l ->
  Forall count_or_nan l.
Proof.
  apply Forall_impl. intros [q| | |]; cbn; auto.
Qed.

(** [tp / (tp + (total - tp)) || 0] when [total] sums counts that include
    [tp]. *)
Lemma share_is_ratio (tp total : JsNumber) :
  count_or_nan tp ->
  (total = NaN
   \/ exists s, total = Finite s /\ forall q, tp = Finite q -> (q <= s)%Q) ->
  is_ratio (js_or_zero (js_quot tp (js_add tp (js_sub total tp)))).
Proof.
  intros Htp Htotal. destruct tp as [t| | |]; cbn in Htp; try contradiction.
  2: { cbn. split; lra. }
  destruct Htotal as [->|(s & -> & Hs)]; [cbn; split; lra|].
  specialize (Hs t eq_refl).
  cbn [js_sub js_neg js_add js_quot]. unfold js_div.
  destruct (Qeq_bool (t + (s + - t)) 0) eqn:E.
  - apply Qeq_bool_iff in E.
    replace (Qeq_bool t 0) with true; [cbn; split; lra|].
    symmetry. apply Qeq_bool_iff. lra.
  - apply Qeq_bool_neq in E.
    assert (Hpos : (0 < t + (s + - t))%Q) by lra.
    assert (H0 : (0 <= t / (t + (s + - t)))%Q).
    { apply Qle_shift_div_l; [exact Hpos|lra]. }
    assert (H1 : (t / (t + (s + - t)) <= 1)%Q).
    { apply Qle_shift_div_r; [exact Hpos|lra]. }
    cbn [js_or_zero]. destruct (Qeq_bool _ 0); cbn; split; lra.
Qed.

Lemma harmonic_is_ratio (p r : JsNumber) :
  is_ratio p -> is_ratio r ->
  is_ratio (js_or_zero (js_quot (js_mul (Finite 2) (js_mul p r)) (js_add p r))).
Proof.
  destruct p as [a| | |], r as [b| | |]; cbn [is_ratio]; try contradiction.
  intros (Ha0 & Ha1) (Hb0 & Hb1).
  cbn [js_mul js_add js_quot]. unfold js_div.
  destruct (Qeq_bool (a + b) 0) eqn:E.
  - apply Qeq_bool_iff in E.
    replace (Qeq_bool (2 * (a * b)) 0) with true; [cbn; split; lra|].
    symmetry. apply Qeq_bool_iff.
    assert (Ea : (a == 0)%Q) by lra. rewrite Ea. ring.
  - apply Qeq_bool_neq in E.
    assert (Hpos : (0 < a + b)%Q) by lra.
    assert (Hab : (0 <= a * b)%Q) by (apply Qmult_le_0_compat; assumption).
    assert (Hab1 : (a * b <= a)%Q) by nra.
    assert (Hab2 : (a * b <= b)%Q) by nra.
    assert (H0 : (0 <= 2 * (a * b) / (a + b))%Q).
    { apply Qle_shift_div_l; [exact Hpos|lra]. }
    assert (H1 : (2 * (a * b) / (a + b) <= 1)%Q).
    { apply Qle_shift_div_r; [exact Hpos|lra]. }
    cbn [js_or_zero]. destruct (Qeq_bool _ 0); cbn; split; lra.
Qed.

Lemma class_scores_are_ratios (m : Matrix) (i : nat) :
  holds_counts m -> (i < List.length m)%nat ->
  is_ratio (precision (class_scores m i))
  /\ is_ratio (recall (class_scores m i))
  /\ is_ratio (f1Score (class_scores m i)).
Proof.
  intros Hm Hi. unfold class_scores. cbv zeta. cbn [precision recall f1Score].
  set (row := nth i m []).
  assert (Hrow_in : In row m) by (apply nth_In; exact Hi).
  assert (Hrow : Forall count_or_nan (present row)).
  { apply counts_weaken. unfold holds_counts in Hm. rewrite Forall_forall in Hm.
    now apply Hm. }
  destruct (read_is_count row (Z.of_nat i) Hrow) as (Htp & Htp_in).
  assert (Hp : is_ratio
                 (js_or_zero
                    (js_quot (read row (Z.of_nat i))
                       (js_add (read row (Z.of_nat i))
                          (js_sub
                             (js_sum (map (fun row => read row (Z.of_nat i)) m))
                             (read row (Z.of_nat i))))))).
  { apply share_is_ratio; [exact Htp|].
    destruct (sum_of_counts (map (fun row => read row (Z.of_nat i)) m) 0)
      as [E|(s & E & _ & Hs)].
    - apply Forall_forall. intros x Hx. apply in_map_iff in Hx as (r & <- & Hr).
      apply read_is_count. apply counts_weaken.
      unfold holds_counts in Hm. rewrite Forall_forall in Hm. now apply Hm.
    - lra.
    - now left.
    - right. exists s. split; [exact E|]. intros q Eq. apply Hs.
      rewrite <- Eq. apply (in_map (fun row => read row (Z.of_nat i))).
      exact Hrow_in. }
  assert (Hr : is_ratio
                 (js_or_zero
                    (js_quot (read row (Z.of_nat i))
                       (js_add (read row (Z.of_nat i))
                          (js_sub (js_sum (present row))
                                  (read row (Z.of_nat i))))))).
  { apply share_is_ratio; [exact Htp|].
    destruct (sum_of_counts (present row) 0 Hrow) as [E|(s & E & _ & Hs)].
    - lra.
    - now left.
    - right. exists s. split; [exact E|]. intros q Eq. apply Hs. now apply Htp_in. }
  split; [exact Hp|]. split; [exact Hr|].
  apply harmonic_is_ratio; assumption.
Qed.

Lemma within_add (k : Q) (x y : JsNumber) :
  within k x -> is_ratio y -> within (k + 1) (js_add x y).
Proof.
  destruct x as [a| | |], y as [b| | |]; cbn; try contradiction.
  intros (H1 & H2) (H3 & H4). split; lra.
Qed.

Lemma totals_are_within (m : Matrix) (classes : list nat) (total : Scores)
    (k : Q) :
  holds_counts m ->
  (forall i, In i classes -> (i < List.length m)%nat) ->
  within k (precision total) -> within k (recall total) ->
  within k (f1Score total) ->
  let total' :=
    fold_left (fun total i => add_scores total (class_scores m i)) classes total in
  let k' := (k + inject_Z (Z.of_nat (List.length classes)))%Q in
  within k' (precision total') /\ within k' (recall total')
  /\ within k' (f1Score total').
Proof.
  intros Hm. revert total k.
  induction classes as [|i classes IH]; intros total k Hi Hp Hr Hf; cbv zeta.
  - cbn [fold_left List.length Z.of_nat].
    assert (E : (k + inject_Z 0 == k)%Q) by (unfold inject_Z; ring).
    destruct (precision total), (recall total), (f1Score total);
      cbn in *; try contradiction.
    repeat split; lra.
  - cbn [fold_left].
    destruct (class_scores_are_ratios m i Hm) as (Cp & Cr & Cf);
      [apply Hi; now left|].
    destruct (IH (add_scores total (class_scores m i)) (k + 1)%Q)
      as (Ip & Ir & If).
    + intros j Hj. apply Hi. now right.
    + now apply within_add.
    + now apply within_add.
    + now apply within_add.
    + assert (E : (k + 1 + inject_Z (Z.of_nat (List.length classes))
                   == k + inject_Z (Z.of_nat (List.length (i :: classes))))%Q).
      { cbn [List.length]. rewrite Nat2Z.inj_succ. unfold Z.succ.
        rewrite inject_Z_plus. unfold inject_Z at 3. ring. }
      cbv zeta in Ip, Ir, If.
      destruct (precision (fold_left _ classes _)),
               (recall (fold_left _ classes _)),
               (f1Score (fold_left _ classes _));
        cbn in *; try contradiction.
      repeat split; lra.
Qed.

Lemma average_is_ratio (n : nat) (x : JsNumber) :
  (0 < n)%nat -> within (inject_Z (Z.of_nat n)) x ->
  is_ratio (js_quot x (Finite (inject_Z (Z.of_nat n)))).
Proof.
  intros Hn. destruct x as [t| | |]; cbn [within]; try contradiction.
  intros (H0 & H1). cbn [js_quot]. unfold js_div.
  assert (Hpos : (0 < inject_Z (Z.of_nat n))%Q).
  { change 0%Q with (inject_Z 0). rewrite <- Zlt_Qlt. lia. }
  destruct (Qeq_bool (inject_Z (Z.of_nat n)) 0) eqn:E.
  - apply Qeq_bool_iff in E. lra.
  - cbn [is_ratio]. split.
    + apply Qle_shift_div_l; [exact Hpos|lra].
    + apply Qle_shift_div_r; [exact Hpos|lra].
Qed.

Lemma ratios_of_counts (m : Matrix) :
  holds_counts m -> m <> [] ->
  is_ratio (precision (calculateMetrics m))
  /\ is_ratio (recall (calculateMetrics m))
  /\ is_ratio (f1Score (calculateMetrics m)).
Proof.
  intros Hcounts Hm.
  assert (Hn : (0 < List.length m)%nat).
  { destruct m; [contradiction|cbn; lia]. }
  unfold calculateMetrics. cbv zeta. cbn [precision recall f1Score].
  destruct (totals_are_within m (seq 0 (List.length m))
              {| precision := Finite 0; recall := Finite 0; f1Score := Finite 0 |}
              0%Q Hcounts) as (Hp & Hr & Hf).
  - intros i Hi. apply in_seq in Hi. lia.
  - cbn. split; lra.
  - cbn. split; lra.
  - cbn. split; lra.
  - rewrite length_seq in Hp, Hr, Hf.
    assert (Hw : forall x, within (0 + inject_Z (Z.of_nat (List.length m))) x ->
                           within (inject_Z (Z.of_nat (List.length m))) x).
    { intros [q| | |]; cbn; try contradiction. intros (H0 & H1). split; lra. }
    repeat split; apply average_is_ratio; auto.
Qed.

(** X24.  On a matrix whose elements are finite and not negative,
    [calculateMetrics] returns three numbers between 0 and 1, whatever the
    shape of the matrix: a class without samples or predictions counts as 0
    (the [|| 0] guards).  The average over the classes is not guarded: for
    the matrix without classes all three scores are NaN. *)
Theorem scores_are_ratios (m : Matrix) (Hcounts : holds_counts m) :
  match m with
  | [] =>
      calculateMetrics m = {| precision := NaN; recall := NaN; f1Score := NaN |}
  | _ =>
      is_ratio (precision (calculateMetrics m))
      /\ is_ratio (recall (calculateMetrics m))
      /\ is_ratio (f1Score (calculateMetrics m))
  end.
Proof.
  destruct m as [|row rows] eqn:Em; [reflexivity|]. rewrite <- Em in *.
  apply ratios_of_counts; [exact Hcounts|]. rewrite Em. discriminate.
Qed.

Lemma scores_are_ratios_witness :
  is_ratio (precision (calculateMetrics (of_counts [[2; 1]; [0; 3]])))
  /\ is_ratio (recall (calculateMetrics (of_counts [[2; 1]; [0; 3]])))
  /\ is_ratio (f1Score (calculateMetrics (of_counts [[2; 1]; [0; 3]]))).
Proof.
  apply (scores_are_ratios (of_counts [[2; 1]; [0; 3]])).
  repeat constructor; cbn; discriminate.
Defined.

(** ** The evaluation of a model on the synthetic test set *)

Lemma synthetic_labels_in_range (numSamples : nat) :
  Forall (in_range 3) (generateSyntheticData_labels numSamples).
Proof.
  unfold generateSyntheticData_labels. apply Forall_forall. intros c Hc.
  apply in_map_iff in Hc as (i & <- & _). unfold in_range.
  pose proof (Z.mod_pos_bound (Z.of_nat i) 3). lia.
Qed.

Lemma pair_counts_hold_counts (actual predicted : list Z) (n : nat) :
  holds_counts (of_counts (pair_counts actual predicted n)).
Proof.
  unfold holds_counts, of_counts, pair_counts. rewrite map_map.
  apply Forall_forall. intros row Hrow.
  apply in_map_iff in Hrow as (a & <- & _). rewrite map_map.
  apply Forall_forall. intros v Hv. unfold present in Hv.
  apply in_flat_map in Hv as (c & Hc & Hv).
  apply in_map_iff in Hc as (p & <- & _). destruct Hv as [<-|[]].
  unfold pairs_counted. change 0%Q with (inject_Z 0). rewrite <- Zle_Qle. lia.
Qed.

(** X25.  As [evaluateModel] uses them: on the labels of the synthetic test
    set and predictions that are classes 0, 1 or 2, one per sample,
    [calculateConfusionMatrix] does not throw and the precision, recall and
    F1 score computed from its matrix are numbers between 0 and 1, for every
    size of the test set (an empty one included: all three are 0). *)
Theorem evaluation_scores_are_ratios (numSamples : nat) (predicted : list Z)
    (Hpredicted : Forall (in_range 3) predicted)
    (Hlength : List.length predicted = numSamples) :
  exists confusionMatrix,
    calculateConfusionMatrix (generateSyntheticData_labels numSamples) predicted 3
    = Some confusionMatrix
    /\ List.length confusionMatrix = 3%nat
    /\ is_ratio (precision (calculateMetrics confusionMatrix))
    /\ is_ratio (recall (calculateMetrics confusionMatrix))
    /\ is_ratio (f1Score (calculateMetrics confusionMatrix)).
Proof.
  eexists. split.
  - apply confusion_matrix_counts_table.
    + lia.
    + apply synthetic_labels_in_range.
    + exact Hpredicted.
    + unfold generateSyntheticData_labels. rewrite length_map, length_seq. lia.
  - split; [reflexivity|].
    apply (ratios_of_counts
             (of_counts (pair_counts (generateSyntheticData_labels numSamples)
                                     predicted 3))).
    + apply pair_counts_hold_counts.
    + discriminate.
Qed.

Lemma evaluation_scores_are_ratios_witness :
  exists confusionMatrix,
    calculateConfusionMatrix (generateSyntheticData_labels 4) [0; 2; 2; 1] 3
    = Some confusionMatrix
    /\ List.length confusionMatrix = 3%nat
    /\ is_ratio (precision (calculateMetrics confusionMatrix))
    /\ is_ratio (recall (calculateMetrics confusionMatrix))
    /\ is_ratio (f1Score (calculateMetrics confusionMatrix)).
Proof.
  apply (evaluation_scores_are_ratios 4 [0; 2; 2; 1]).
  - repeat constructor; cbn; lia.
  - reflexivity.
Defined.

(** ** A model that predicts every label *)

Lemma own_pairs_off_diagonal (labels : list Z) (a p : Z) :
  a <> p -> pairs_counted labels labels a p = 0.
Proof.
  intros Hne. unfold pairs_counted.
  induction labels as [|x labels IH]; cbn [combine filter fst snd]; [reflexivity|].
  destruct (x =? a) eqn:E1, (x =? p) eqn:E2; cbn [andb]; try exact IH.
  apply Z.eqb_eq in E1, E2. congruence.
Qed.

Lemma own_pairs_on_diagonal (labels : list Z) (c : nat) :
  0 <= pairs_counted labels labels (Z.of_nat c) (Z.of_nat c)
  /\ (pairs_counted labels labels (Z.of_nat c) (Z.of_nat c) = 0
      <-> occurs labels c = false).
Proof.
  unfold pairs_counted, occurs. split; [lia|].
  induction labels as [|x labels IH]; cbn [combine filter fst snd existsb];
    [split; reflexivity|].
  rewrite (Z.eqb_sym (Z.of_nat c) x).
  destruct (x =? Z.of_nat c); cbn [andb orb List.length]; [|exact IH].
  split; [lia|discriminate].
Qed.

Lemma sum_of_integers (zs : list Z) (a : Q) :
  exists s, fold_left js_add (map (fun z => Finite (inject_Z z)) zs) (Finite a)
            = Finite s
            /\ (s == a + inject_Z (sum_Z zs))%Q.
Proof.
  revert a. induction zs as [|z zs IH]; intros a.
  - exists a. split; [reflexivity|]. unfold sum_Z. cbn. unfold inject_Z. ring.
  - cbn [map fold_left js_add]. destruct (IH (a + inject_Z z)%Q) as (s & E & Hs).
    exists s. split; [exact E|]. rewrite Hs, sum_Z_cons, inject_Z_plus. ring.
Qed.

Lemma sum_of_single (f : nat -> Z) (i n s : nat) :
  (s <= i < s + n)%nat -> (forall a, a <> i -> f a = 0) ->
  sum_Z (map f (seq s n)) = f i.
Proof.
  revert s. induction n as [|n IH]; intros s Hi Hzero; [lia|].
  cbn [seq map]. rewrite sum_Z_cons.
  destruct (Nat.eq_dec s i) as [->|Hne].
  - assert (E : sum_Z (map f (seq (S i) n)) = 0); [|lia].
    clear IH Hi. generalize (S i) (Nat.lt_succ_diag_r i).
    induction n as [|n IHn]; intros s Hs; [reflexivity|].
    cbn [seq map]. rewrite sum_Z_cons, IHn by lia.
    rewrite Hzero by lia. reflexivity.
  - rewrite Hzero by assumption. rewrite IH by (try assumption; lia). lia.
Qed.

Lemma present_of_full (G : nat -> JsNumber) (l : list nat) :
  present (map (fun j => Some (G j)) l) = map G l.
Proof.
  unfold present. induction l as [|x l IH]; cbn; [reflexivity|]. now rewrite IH.
Qed.

Lemma share_exact (t s : Q) :
  (s == t)%Q -> (0 <= t)%Q ->
  equals (if Qeq_bool t 0 then 0 else 1)
         (js_or_zero (js_quot (Finite t)
                        (js_add (Finite t) (js_sub (Finite s) (Finite t))))).
Proof.
  intros Hs Ht. cbn [js_sub js_neg js_add js_quot]. unfold js_div.
  destruct (Qeq_bool t 0) eqn:E.
  - apply Qeq_bool_iff in E.
    replace (Qeq_bool (t + (s + - t)) 0) with true
      by (symmetry; apply Qeq_bool_iff; lra).
    cbn. reflexivity.
  - apply Qeq_bool_neq in E.
    assert (Hne : ~ (t + (s + - t) == 0)%Q) by lra.
    replace (Qeq_bool (t + (s + - t)) 0) with false.
    2: { symmetry. apply not_true_is_false. rewrite Qeq_bool_iff. exact Hne. }
    assert (H1 : (t / (t + (s + - t)) == 1)%Q).
    { assert (Hd : (t + (s + - t) == t)%Q) by lra. rewrite Hd. now field. }
    cbn [js_or_zero].
    replace (Qeq_bool (t / (t + (s + - t))) 0) with false.
    2: { symmetry. apply not_true_is_false. rewrite Qeq_bool_iff. lra. }
    exact H1.
Qed.

Lemma harmonic_exact (present : bool) (p r : JsNumber) :
  equals (if present then 1 else 0) p -> equals (if present then 1 else 0) r ->
  equals (if present then 1 else 0)
         (js_or_zero (js_quot (js_mul (Finite 2) (js_mul p r)) (js_add p r))).
Proof.
  destruct p as [a| | |], r as [b| | |]; cbn [equals]; try contradiction.
  intros Ha Hb. cbn [js_mul js_add js_quot]. unfold js_div.
  destruct present.
  - assert (Hs : ~ (a + b == 0)%Q) by lra.
    replace (Qeq_bool (a + b) 0) with false.
    2: { symmetry. apply not_true_is_false. rewrite Qeq_bool_iff. exact Hs. }
    assert (H1 : (2 * (a * b) / (a + b) == 1)%Q).
    { rewrite Ha, Hb. reflexivity. }
    cbn [js_or_zero].
    replace (Qeq_bool (2 * (a * b) / (a + b)) 0) with false.
    2: { symmetry. apply not_true_is_false. rewrite Qeq_bool_iff. lra. }
    exact H1.
  - replace (Qeq_bool (a + b) 0) with true
      by (symmetry; apply Qeq_bool_iff; lra).
    replace (Qeq_bool (2 * (a * b)) 0) with true.
    2: { symmetry. apply Qeq_bool_iff. rewrite Ha. ring. }
    cbn. reflexivity.
Qed.

Lemma own_table_scores (labels : list Z) (n i : nat) :
  (i < n)%nat ->
  let m := of_counts (pair_counts labels labels n) in
  let share := if occurs labels i then 1%Q else 0%Q in
  equals share (precision (class_scores m i))
  /\ equals share (recall (class_scores m i))
  /\ equals share (f1Score (class_scores m i)).
Proof.
  intros Hi. cbv zeta.
  set (cnt := fun a p : nat => pairs_counted labels labels (Z.of_nat a) (Z.of_nat p)).
  assert (Hm : of_counts (pair_counts labels labels n)
               = map (fun a => map (fun p => Some (Finite (inject_Z (cnt a p))))
                                   (seq 0 n))
                     (seq 0 n)).
  { unfold of_counts, pair_counts. rewrite map_map. apply map_ext. intros a.
    now rewrite map_map. }
  rewrite Hm. clear Hm.
  set (m := map _ (seq 0 n)).
  assert (Hrow : nth i m [] = map (fun p => Some (Finite (inject_Z (cnt i p))))
                                  (seq 0 n)).
  { apply nth_error_nth. unfold m.
    rewrite (nth_error_map
               (fun a => map (fun p => Some (Finite (inject_Z (cnt a p))))
                             (seq 0 n))),
            nth_error_seq.
    replace (i <? n)%nat with true by (symmetry; apply Nat.ltb_lt; lia).
    reflexivity. }
  assert (Htp : read (nth i m []) (Z.of_nat i) = Finite (inject_Z (cnt i i))).
  { rewrite Hrow. apply (read_map (fun p => Finite (inject_Z (cnt i p)))).
    assumption. }
  assert (Hcol : map (fun row => read row (Z.of_nat i)) m
                 = map (fun z => Finite (inject_Z z))
                       (map (fun a => cnt a i) (seq 0 n))).
  { unfold m. rewrite !map_map. apply map_ext. intros a.
    apply (read_map (fun p => Finite (inject_Z (cnt a p)))). assumption. }
  assert (Hpresent : present (nth i m [])
                     = map (fun z => Finite (inject_Z z))
                           (map (fun p => cnt i p) (seq 0 n))).
  { rewrite Hrow, (present_of_full (fun p => Finite (inject_Z (cnt i p)))).
    now rewrite map_map. }
  assert (Hoff : forall a p : nat, a <> p -> cnt a p = 0).
  { intros a p Hne. apply own_pairs_off_diagonal. lia. }
  destruct (own_pairs_on_diagonal labels i) as (Hnonneg & Hzero).
  fold (cnt i i) in Hnonneg, Hzero.
  destruct (sum_of_integers (map (fun a => cnt a i) (seq 0 n)) 0)
    as (sc & Esc & Hsc).
  destruct (sum_of_integers (map (fun p => cnt i p) (seq 0 n)) 0)
    as (sr & Esr & Hsr).
  rewrite (sum_of_single (fun a => cnt a i) i) in Hsc
    by (try lia; intros a Ha; now apply Hoff).
  rewrite (sum_of_single (fun p => cnt i p) i) in Hsr
    by (try lia; intros a Ha; apply Hoff; congruence).
  assert (Hind : (if Qeq_bool (inject_Z (cnt i i)) 0 then 0%Q else 1%Q)
                 = (if occurs labels i then 1%Q else 0%Q)).
  { destruct (occurs labels i) eqn:Eo.
    - replace (Qeq_bool (inject_Z (cnt i i)) 0) with false; [reflexivity|].
      symmetry. apply not_true_is_false. rewrite Qeq_bool_iff.
      change 0%Q with (inject_Z 0). rewrite inject_Z_injective.
      intros E0. apply Hzero in E0. congruence.
    - replace (cnt i i) with 0 by (symmetry; now apply Hzero). reflexivity. }
  assert (Hp : equals (if occurs labels i then 1%Q else 0%Q)
                      (precision (class_scores m i))).
  { unfold class_scores. cbv zeta. cbn [precision]. unfold Row in *.
    rewrite Htp, Hcol. unfold js_sum. rewrite Esc, <- Hind.
    apply share_exact; [lra|].
    change 0%Q with (inject_Z 0). rewrite <- Zle_Qle. exact Hnonneg. }
  assert (Hr : equals (if occurs labels i then 1%Q else 0%Q)
                      (recall (class_scores m i))).
  { unfold class_scores. cbv zeta. cbn [recall]. unfold Row in *.
    rewrite Htp, Hpresent. unfold js_sum. rewrite Esr, <- Hind.
    apply share_exact; [lra|].
    change 0%Q with (inject_Z 0). rewrite <- Zle_Qle. exact Hnonneg. }
  split; [exact Hp|]. split; [exact Hr|].
  apply (harmonic_exact (occurs labels i)); assumption.
Qed.

Lemma equals_add (k e : Q) (x y : JsNumber) :
  equals k x -> equals e y -> equals (k + e) (js_add x y).
Proof.
  destruct x as [a| | |], y as [b| | |]; cbn; try contradiction.
  intros -> ->. reflexivity.
Qed.

Lemma equals_morphism (k k' : Q) (x : JsNumber) :
  (k == k')%Q -> equals k x -> equals k' x.
Proof.
  destruct x as [a| | |]; cbn; try contradiction. intros E ->. exact E.
Qed.

Lemma own_table_totals (labels : list Z) (n : nat) (classes : list nat)
    (total : Scores) (k : Q) :
  (forall i, In i classes -> (i < n)%nat) ->
  equals k (precision total) -> equals k (recall total) ->
  equals k (f1Score total) ->
  let m := of_counts (pair_counts labels labels n) in
  let total' :=
    fold_left (fun total i => add_scores total (class_scores m i)) classes total in
  let k' :=
    (k + inject_Z (Z.of_nat (List.length (filter (occurs labels) classes))))%Q in
  equals k' (precision total') /\ equals k' (recall total')
  /\ equals k' (f1Score total').
Proof.
  revert total k. induction classes as [|i classes IH];
    intros total k Hi Hp Hr Hf; cbv zeta.
  - cbn [fold_left filter List.length Z.of_nat].
    assert (E : (k == k + inject_Z 0)%Q) by (unfold inject_Z; ring).
    repeat split; eapply equals_morphism; eauto.
  - cbn [fold_left filter].
    destruct (own_table_scores labels n i) as (Cp & Cr & Cf);
      [apply Hi; now left|].
    cbv zeta in Cp, Cr, Cf.
    destruct (IH (add_scores total
                    (class_scores (of_counts (pair_counts labels labels n)) i))
                 (k + (if occurs labels i then 1 else 0))%Q)
      as (Ip & Ir & If).
    + intros j Hj. apply Hi. now right.
    + now apply equals_add.
    + now apply equals_add.
    + now apply equals_add.
    + cbv zeta in Ip, Ir, If.
      assert (E : (k + (if occurs labels i then 1 else 0)
                   + inject_Z (Z.of_nat (List.length (filter (occurs labels) classes)))
                   == k + inject_Z (Z.of_nat
                                      (List.length
                                         (if occurs labels i
                                          then i :: filter (occurs labels) classes
                                          else filter (occurs labels) classes))))%Q).
      { destruct (occurs labels i); cbn [List.length].
        - rewrite Nat2Z.inj_succ. unfold Z.succ. rewrite inject_Z_plus.
          unfold inject_Z at 3. ring.
        - ring. }
      repeat split; eapply equals_morphism; eauto.
Qed.

Lemma average_exact (n : nat) (k : Q) (x : JsNumber) :
  (0 < n)%nat -> equals k x ->
  equals (k / inject_Z (Z.of_nat n)) (js_quot x (Finite (inject_Z (Z.of_nat n)))).
Proof.
  intros Hn. destruct x as [t| | |]; cbn [equals]; try contradiction.
  intros Ht. cbn [js_quot]. unfold js_div.
  assert (Hpos : (0 < inject_Z (Z.of_nat n))%Q).
  { change 0%Q with (inject_Z 0). rewrite <- Zlt_Qlt. lia. }
  replace (Qeq_bool (inject_Z (Z.of_nat n)) 0) with false.
  2: { symmetry. apply not_true_is_false. rewrite Qeq_bool_iff. lra. }
  cbn [equals]. now rewrite Ht.
Qed.

(** X26.  A model that predicts every label exactly does not always score
    1: each of precision, recall and F1 score is the share of the classes
    that have a sample.  A class without samples counts as 0 in the average
    (its [0 / 0] is replaced by 0), so the three scores are 1 exactly when
    every class occurs among the labels. *)
Theorem perfect_predictions_score_share_of_classes (labels : list Z)
    (numClasses : nat)
    (Hsize : Z.of_nat numClasses <= 4294967295)
    (Hclasses : (0 < numClasses)%nat)
    (Hlabels : Forall (in_range numClasses) labels) :
  exists confusionMatrix,
    calculateConfusionMatrix labels labels numClasses = Some confusionMatrix
    /\ let share := (inject_Z (Z.of_nat (classes_present labels numClasses))
                     / inject_Z (Z.of_nat numClasses))%Q in
       equals share (precision (calculateMetrics confusionMatrix))
       /\ equals share (recall (calculateMetrics confusionMatrix))
       /\ equals share (f1Score (calculateMetrics confusionMatrix)).
Proof.
  eexists. split;
    [apply confusion_matrix_counts_table; try assumption; lia|].
  cbv zeta. unfold calculateMetrics. cbv zeta. cbn [precision recall f1Score].
  assert (Hlen : List.length (of_counts (pair_counts labels labels numClasses))
                 = numClasses).
  { unfold of_counts, pair_counts. now rewrite !length_map, length_seq. }
  rewrite Hlen.
  destruct (own_table_totals labels numClasses (seq 0 numClasses)
              {| precision := Finite 0; recall := Finite 0; f1Score := Finite 0 |}
              0%Q) as (Hp & Hr & Hf).
  - intros i Hi. apply in_seq in Hi. lia.
  - reflexivity.
  - reflexivity.
  - reflexivity.
  - cbv zeta in Hp, Hr, Hf. fold (classes_present labels numClasses) in Hp, Hr, Hf.
    assert (E : (0 + inject_Z (Z.of_nat (classes_present labels numClasses))
                 == inject_Z (Z.of_nat (classes_present labels numClasses)))%Q)
      by ring.
    repeat split; apply average_exact; try assumption;
      eapply equals_morphism; eauto.
Qed.

Lemma perfect_predictions_score_share_of_classes_witness :
  exists confusionMatrix,
    calculateConfusionMatrix (generateSyntheticData_labels 2)
                             (generateSyntheticData_labels 2) 3
    = Some confusionMatrix
    /\ equals (2 # 3) (precision (calculateMetrics confusionMatrix))
    /\ equals (2 # 3) (recall (calculateMetrics confusionMatrix))
    /\ equals (2 # 3) (f1Score (calculateMetrics confusionMatrix)).
Proof.
  destruct (perfect_predictions_score_share_of_classes
              (generateSyntheticData_labels 2) 3)
    as (m & Em & Hp & Hr & Hf).
  - lia.
  - lia.
  - repeat constructor; cbn; lia.
  - exists m. split; [exact Em|].
    repeat split; eapply equals_morphism; eauto; reflexivity.
Defined.

(** ** The synthetic data set *)

(** X27.  The labels of the synthetic data set rotate through the classes
    0, 1, 2: there is one label per sample, each a class, and the classes
    are balanced, class [c] having [(numSamples + 2 - c) / 3] samples
    (integer division), so that two classes never differ by more than one
    sample. *)
Theorem synthetic_labels_are_balanced (numSamples : nat) :
  let labels := generateSyntheticData_labels numSamples in
  List.length labels = numSamples
  /\ Forall (in_range 3) labels
  /\ (forall c, in_range 3 c ->
        samples_of c labels = (Z.of_nat numSamples + 2 - c) / 3)
  /\ forall c c', in_range 3 c -> in_range 3 c' ->
       Z.abs (samples_of c labels - samples_of c' labels) <= 1.
Proof.
  cbv zeta.
  assert (Hcount : forall c, in_range 3 c ->
            samples_of c (generateSyntheticData_labels numSamples)
            = (Z.of_nat numSamples + 2 - c) / 3).
  { intros c (Hc0 & Hc1). unfold samples_of, generateSyntheticData_labels.
    induction numSamples as [|n IH].
    - cbn [seq map filter List.length]. Z.div_mod_to_equations. lia.
    - rewrite seq_S, map_app, filter_app, length_app, Nat2Z.inj_add, IH.
      cbn [Nat.add map filter].
      destruct (c =? Z.of_nat n mod 3) eqn:E; cbn [List.length];
        [apply Z.eqb_eq in E|apply Z.eqb_neq in E];
        Z.div_mod_to_equations; lia. }
  split; [unfold generateSyntheticData_labels; now rewrite length_map, length_seq|].
  split; [apply synthetic_labels_in_range|].
  split; [exact Hcount|].
  intros c c' Hc Hc'. rewrite (Hcount c Hc), (Hcount c' Hc').
  destruct Hc, Hc'. Z.div_mod_to_equations. lia.
Qed.

(** ** The estimate of the remaining time *)

Lemma round_of_integer (q : Q) (z : Z) :
  (q == inject_Z z)%Q -> Qfloor (q + (1 # 2)) = z.
Proof.
  intros E.
  assert (E' : (q + (1 # 2) == (2 * z + 1) # 2)%Q).
  { rewrite E. unfold inject_Z, Qplus, Qeq. cbn [Qnum Qden].
    change (Z.pos (1 * 2)) with 2. lia. }
  rewrite (Qfloor_comp _ _ E'). unfold Qfloor. Z.div_mod_to_equations. lia.
Qed.

(** X28.  After at least one epoch, the estimate [calculateETA] gives is 0
    at the last epoch, and it is exact when the epochs so far took the same
    time each: with [d] milliseconds per epoch it is [d] times the number of
    epochs left. *)
Theorem eta_is_exact_at_constant_pace (currentEpoch totalEpochs startTime now : Z)
    (Hstarted : 1 <= currentEpoch) :
  (currentEpoch = totalEpochs ->
   calculateETA currentEpoch totalEpochs startTime now = Finite 0)
  /\ forall d, now - startTime = currentEpoch * d ->
       calculateETA currentEpoch totalEpochs startTime now
       = Finite (inject_Z (d * (totalEpochs - currentEpoch))).
Proof.
  assert (Hne : Qeq_bool (inject_Z currentEpoch) 0 = false).
  { apply not_true_is_false. rewrite Qeq_bool_iff.
    change 0%Q with (inject_Z 0). rewrite inject_Z_injective. lia. }
  assert (Hc : ~ (inject_Z currentEpoch == 0)%Q).
  { change 0%Q with (inject_Z 0). rewrite inject_Z_injective. lia. }
  unfold calculateETA. cbv zeta. unfold js_div. rewrite Hne.
  cbn [js_mul js_round]. split.
  - intros ->. f_equal. change 0%Q with (inject_Z 0). f_equal.
    apply round_of_integer. rewrite Z.sub_diag.
    change (inject_Z 0) with 0%Q. ring.
  - intros d Hd. f_equal. f_equal. apply round_of_integer.
    rewrite Hd, !inject_Z_mult. field. exact Hc.
Qed.

Lemma eta_is_exact_at_constant_pace_witness :
  calculateETA 4 10 1000 9000 = Finite (inject_Z 12000).
Proof.
  destruct (eta_is_exact_at_constant_pace 4 10 1000 9000) as (_ & Hpace);
    [lia|].
  apply (Hpace 2000). reflexivity.
Defined.
